(** * A verification development for the MCP-Server repository

    The development embeds the Python sources [vector_db.py], [client.py]
    and [main.py] and settles the properties stated about them.

    Python values are modelled as follows.
    - [str] is a list of Unicode code points ([pystr := list N]);
    - [int] is [Z] (Python integers are unbounded);
    - indices and slices follow Python's clamping rules ([py_slice]);
    - a [while] loop whose termination depends on its arguments is a
      fuel-indexed function returning [None] when the fuel runs out. *)

From Stdlib Require Import ZArith NArith QArith Lia List Ascii String.
From Stdlib Require Import DecimalNat DecimalString DecimalZ DecimalFacts.
From stdpp Require Import base list.
Import ListNotations.

Set Warnings "-register-all".

(** ** Python strings *)

Module Py.

Abbreviation char := N (only parsing).
Abbreviation pystr := (list N) (only parsing).

(** A string literal of the source, as code points. *)
Definition lit (s : string) : pystr :=
  map N_of_ascii (list_ascii_of_string s).

(** [str.isspace] on one code point: CPython's [_PyUnicode_IsWhitespace]. *)
Definition isspace (c : char) : bool :=
  ((9 <=? c) && (c <=? 13) || (28 <=? c) && (c <=? 32)
   || (c =? 133) || (c =? 160) || (c =? 5760)
   || (8192 <=? c) && (c <=? 8202)
   || (c =? 8232) || (c =? 8233) || (c =? 8239) || (c =? 8287)
   || (c =? 12288))%N.

Fixpoint lstrip (s : pystr) : pystr :=
  match s with
  | [] => []
  | c :: s' => if isspace c then lstrip s' else s
  end.

Definition rstrip (s : pystr) : pystr := rev (lstrip (rev s)).

(** [s.strip()] *)
Definition strip (s : pystr) : pystr := rstrip (lstrip s).

(** Truth value of a string: non-empty. *)
Definition str_truthy (s : pystr) : bool :=
  match s with [] => false | _ => true end.

Definition len {A} (l : list A) : Z := Z.of_nat (length l).

(** How a slice bound [x] is resolved against a sequence of length [n]:
    negative bounds count from the end, everything is clamped to [0, n]. *)
Definition py_index (n x : Z) : Z :=
  if (x <? 0)%Z then Z.max (x + n) 0 else Z.min x n.

(** [l[a:b]] *)
Definition py_slice {A} (l : list A) (a b : Z) : list A :=
  let a' := py_index (len l) a in
  let b' := py_index (len l) b in
  take (Z.to_nat (b' - a')) (drop (Z.to_nat a') l).

(** [s.startswith(sub)] *)
Fixpoint starts_with (sub s : pystr) : bool :=
  match sub, s with
  | [], _ => true
  | _ :: _, [] => false
  | a :: sub', b :: s' => (a =? b)%N && starts_with sub' s'
  end.

Fixpoint find_at (sub s : pystr) (i : Z) : Z :=
  if starts_with sub s then i
  else match s with
       | [] => (-1)%Z
       | _ :: s' => find_at sub s' (i + 1)%Z
       end.

(** [s.find(sub)]: the lowest index where [sub] occurs, or [-1]. *)
Definition find (s sub : pystr) : Z := find_at sub s 0.

Fixpoint rfind_at (sub s : pystr) (i best : Z) : Z :=
  let best' := if starts_with sub s then i else best in
  match s with
  | [] => best'
  | _ :: s' => rfind_at sub s' (i + 1)%Z best'
  end.

(** [s.rfind(sub)]: the highest index where [sub] occurs, or [-1]. *)
Definition rfind (s sub : pystr) : Z := rfind_at sub s 0 (-1).

(** Left-to-right, non-overlapping replacement of a non-empty [old];
    [skip] counts the characters of a match still to be dropped. *)
Fixpoint replace_go (old new s : pystr) (skip : nat) : pystr :=
  match s with
  | [] => []
  | c :: s' =>
      match skip with
      | S k => replace_go old new s' k
      | O => if starts_with old s
             then new ++ replace_go old new s' (length old - 1)
             else c :: replace_go old new s' 0
      end
  end.

(** [s.replace(old, new)] *)
Definition replace (s old new : pystr) : pystr :=
  match old with
  | [] => new ++ flat_map (fun c => c :: new) s
  | _ => replace_go old new s 0
  end.

(** [str(n)] for an integer. *)
Definition str_of_nat (n : nat) : pystr :=
  lit (NilZero.string_of_uint (Nat.to_uint n)).

Definition str_of_Z (z : Z) : pystr :=
  lit (NilZero.string_of_int (Z.to_int z)).

(** Lower-casing of the ASCII letters.  [str.lower] agrees with it on
    every string whose lower-cased form is one of the session's exit
    words, which is the only use the sources make of it. *)
Definition lower_char (c : char) : char :=
  if ((65 <=? c) && (c <=? 90))%N then (c + 32)%N else c.

Definition lower (s : pystr) : pystr := map lower_char s.

(** [c] occurs in [t] as the contiguous piece starting at offset [length pre]. *)
Definition substring_at (t c pre post : pystr) : Prop := t = pre ++ c ++ post.

(** A text without any whitespace character, and one of whitespace only. *)
Definition no_space (text : pystr) : Prop :=
  Forall (fun c => isspace c = false) text.

Definition blank (text : pystr) : Prop :=
  Forall (fun c => isspace c = true) text.

(** The characters of a text that are not whitespace, in their order. *)
Definition visible (text : pystr) : pystr :=
  List.filter (fun c => negb (isspace c)) text.

End Py.

(** ** vector_db.py: the document chunker *)

Module Chunker.
Import Py.
Local Open Scope Z_scope.

(** The [while start < len(text)] loop of [split_text]; [None] when the
    fuel is exhausted before the loop condition fails. *)
Fixpoint split_loop (fuel : nat) (text : pystr) (chunk_size overlap : Z)
    (start : Z) (chunks : list pystr) : option (list pystr) :=
  match fuel with
  | O => None
  | S fuel' =>
      if start <? len text then
        let end_ := Z.min (start + chunk_size) (len text) in
        let chunk := strip (py_slice text start end_) in
        let chunks' := if str_truthy chunk then chunks ++ [chunk] else chunks in
        split_loop fuel' text chunk_size overlap
                   (start + (chunk_size - overlap)) chunks'
      else Some chunks
  end.

(** [split_text(text, chunk_size, overlap)] run for at most [fuel] iterations. *)
Definition split_text (fuel : nat) (text : pystr) (chunk_size overlap : Z)
    : option (list pystr) :=
  split_loop fuel text chunk_size overlap 0 [].

(** Position [i] of [text] lies inside an occurrence of one of [chunks]. *)
Definition covered (text : pystr) (chunks : list pystr) (i : nat) : Prop :=
  exists c pre post,
    In c chunks /\ substring_at text c pre post /\
    (length pre <= i < length pre + length c)%nat.

(** A well-formed chunk: non-empty, already trimmed, a substring of [text]. *)
Definition good_chunk (text c : pystr) : Prop :=
  c <> [] /\ strip c = c /\ exists pre post, substring_at text c pre post.

(** The slice [text[start:end]] the loop cuts at offset [start], before
    it is trimmed. *)
Definition window (text : pystr) (chunk_size start : Z) : pystr :=
  py_slice text start (Z.min (start + chunk_size) (len text)).

(** The offsets a loop with a positive step visits: the multiples of the
    step below the length of the text. *)
Definition window_starts (text : pystr) (chunk_size overlap : Z) : list Z :=
  let step := chunk_size - overlap in
  map (fun k => Z.of_nat k * step)
      (seq 0 (Z.to_nat ((len text + step - 1) / step))).

End Chunker.

(** ** The [json] module of the Python standard library

    [json.loads] follows CPython's decoder ([json/decoder.py], [json/scanner.py]
    and their C accelerator): the token order of [scan_once], the separators
    accepted between members, strict strings, and the final check that only
    blanks follow the value.  Floating-point literals are kept as their
    lexeme.  The depth of nesting is bounded by the length of the text,
    so a text nested deeper than the interpreter's recursion limit, which
    CPython gives up on with [RecursionError], is decoded here. *)

Module Json.
Import Py.
Local Open Scope N_scope.

Inductive json : Type :=
| JNull
| JBool (b : bool)
| JInt (n : Z)
| JFloat (lexeme : pystr)
| JString (s : pystr)
| JArray (items : list json)
| JObject (members : list (pystr * json)).

(** The messages of [json.JSONDecodeError], and the interpreter's
    recursion limit. *)
Inductive decode_error : Type :=
| ExpectingValue
| ExpectingPropertyName
| ExpectingColon
| ExpectingComma
| UnterminatedString
| InvalidControlCharacter
| InvalidEscape
| InvalidUnicodeEscape
| ExtraData
| UnexpectedBOM
| RecursionLimit.

Inductive result (A : Type) : Type :=
| Ok (a : A)
| Error (e : decode_error).
Arguments Ok {A} a.
Arguments Error {A} e.

Definition c_quote : char := 34.
Definition c_backslash : char := 92.
Definition c_slash : char := 47.
Definition c_lbrace : char := 123.
Definition c_rbrace : char := 125.
Definition c_lbracket : char := 91.
Definition c_rbracket : char := 93.
Definition c_colon : char := 58.
Definition c_comma : char := 44.
Definition c_minus : char := 45.
Definition c_plus : char := 43.
Definition c_dot : char := 46.
Definition c_newline : char := 10.
Definition c_space : char := 32.

(** [WHITESPACE_STR = ' \t\n\r'] *)
Definition is_json_ws (c : char) : bool :=
  (c =? 32) || (c =? 9) || (c =? 10) || (c =? 13).

Fixpoint skip_ws (s : pystr) : pystr :=
  match s with
  | c :: s' => if is_json_ws c then skip_ws s' else s
  | [] => []
  end.

Definition is_digit (c : char) : bool := (48 <=? c) && (c <=? 57).

Fixpoint span_digits (s : pystr) : pystr * pystr :=
  match s with
  | c :: s' =>
      if is_digit c then let (ds, r) := span_digits s' in (c :: ds, r)
      else ([], s)
  | [] => ([], [])
  end.

Definition hex_value (c : char) : option N :=
  if (48 <=? c) && (c <=? 57) then Some (c - 48)
  else if (97 <=? c) && (c <=? 102) then Some (c - 87)
  else if (65 <=? c) && (c <=? 70) then Some (c - 55)
  else None.

Definition hex4 (a b c d : char) : option N :=
  match hex_value a, hex_value b, hex_value c, hex_value d with
  | Some x, Some y, Some z, Some w => Some (((x * 16 + y) * 16 + z) * 16 + w)
  | _, _, _, _ => None
  end.

(** [BACKSLASH]: the one-character escapes. *)
Definition backslash_table (c : char) : option char :=
  if c =? 34 then Some 34          (* quote *)
  else if c =? 92 then Some 92     (* backslash *)
  else if c =? 47 then Some 47     (* slash *)
  else if c =? 98 then Some 8      (* b *)
  else if c =? 102 then Some 12    (* f *)
  else if c =? 110 then Some 10    (* n *)
  else if c =? 114 then Some 13    (* r *)
  else if c =? 116 then Some 9     (* t *)
  else None.

Definition is_high_surrogate (u : N) : bool := (55296 <=? u) && (u <=? 56319).
Definition is_low_surrogate (u : N) : bool := (56320 <=? u) && (u <=? 57343).
Definition join_surrogates (hi lo : N) : N :=
  65536 + ((hi - 55296) * 1024 + (lo - 56320)).

(** [scanstring(s, end, strict=True)], entered after the opening quote;
    [acc] holds the decoded characters, most recent first. *)
Fixpoint scanstring (s : pystr) (acc : pystr) : result (pystr * pystr) :=
  match s with
  | [] => Error UnterminatedString
  | c :: s1 =>
      if c =? c_quote then Ok (rev acc, s1)
      else if c =? c_backslash then
        match s1 with
        | [] => Error UnterminatedString
        | e :: s2 =>
            if e =? 117 (* u *) then
              match s2 with
              | h1 :: h2 :: h3 :: h4 :: s3 =>
                  match hex4 h1 h2 h3 h4 with
                  | None => Error InvalidUnicodeEscape
                  | Some uni =>
                      match s3 with
                      | b :: u :: s4 =>
                          if is_high_surrogate uni && (b =? c_backslash) && (u =? 117)
                          then
                            match s4 with
                            | k1 :: k2 :: k3 :: k4 :: s5 =>
                                match hex4 k1 k2 k3 k4 with
                                | None => Error InvalidUnicodeEscape
                                | Some uni2 =>
                                    if is_low_surrogate uni2
                                    then scanstring s5 (join_surrogates uni uni2 :: acc)
                                    else scanstring s3 (uni :: acc)
                                end
                            | _ => Error InvalidUnicodeEscape
                            end
                          else scanstring s3 (uni :: acc)
                      | _ => scanstring s3 (uni :: acc)
                      end
                  end
              | _ => Error InvalidUnicodeEscape
              end
            else
              match backslash_table e with
              | Some ch => scanstring s2 (ch :: acc)
              | None => Error InvalidEscape
              end
        end
      else if c <? 32 then Error InvalidControlCharacter
      else scanstring s1 (c :: acc)
  end.

Definition Z_of_digits (ds : pystr) : Z :=
  fold_left (fun acc d => (acc * 10 + Z.of_N (d - 48))%Z) ds 0%Z.

(** [NUMBER_RE] in its parts.  The sign: an optional minus. *)
Definition number_sign (s : pystr) : pystr * pystr :=
  match s with
  | c :: t => if c =? c_minus then ([c], t) else ([], s)
  | [] => ([], s)
  end.

(** The integer part: a zero, or a digit run with no leading zero. *)
Definition number_integer (s : pystr) : option (pystr * pystr) :=
  match s with
  | d :: t =>
      if d =? 48 then Some ([d], t)
      else if is_digit d then
        let (ds, r) := span_digits t in Some (d :: ds, r)
      else None
  | [] => None
  end.

(** The optional fraction: a dot and at least one digit. *)
Definition number_fraction (r : pystr) : pystr * pystr :=
  match r with
  | p :: ((d :: _) as t) =>
      if (p =? c_dot) && is_digit d
      then let (fs, r') := span_digits t in (p :: fs, r')
      else ([], r)
  | _ => ([], r)
  end.

(** The optional exponent: e or E, an optional sign, at least one digit. *)
Definition number_exponent (r : pystr) : pystr * pystr :=
  match r with
  | e :: t =>
      if (e =? 101) || (e =? 69) then
        let '(sg, t') :=
          match t with
          | g :: t1 => if (g =? c_plus) || (g =? c_minus) then ([g], t1) else ([], t)
          | [] => ([], t)
          end in
        match span_digits t' with
        | ([], _) => ([], r)
        | (es, r') => (e :: sg ++ es, r')
        end
      else ([], r)
  | [] => ([], r)
  end.

(** [match_number] and the conversion of the match: an integer when there
    is neither fraction nor exponent, a float otherwise. *)
Definition match_number (s : pystr) : option (json * pystr) :=
  let '(sign, s1) := number_sign s in
  match number_integer s1 with
  | None => None
  | Some (int_digits, r) =>
      let '(frac, r1) := number_fraction r in
      let '(exp, r2) := number_exponent r1 in
      match frac, exp with
      | [], [] =>
          let v := Z_of_digits int_digits in
          Some (JInt (match sign with [] => v | _ => (- v)%Z end), r2)
      | _, _ => Some (JFloat (sign ++ int_digits ++ frac ++ exp), r2)
      end
  end.

(** A character that may follow a value inside a container. *)
Definition is_terminator (c : char) : bool :=
  is_json_ws c || (c =? c_comma) || (c =? c_rbrace) || (c =? c_rbracket).

(** [d[k] = v] on a dict kept as an association list in insertion order. *)
Fixpoint dict_set {V} (d : list (pystr * V)) (k : pystr) (v : V) : list (pystr * V) :=
  match d with
  | [] => [(k, v)]
  | (k', v') :: d' =>
      if decide (k' = k) then (k, v) :: d' else (k', v') :: dict_set d' k v
  end.

(** [dict(pairs)]: a later pair overwrites an earlier one with the same key. *)
Definition dict_of_pairs {V} (pairs : list (pystr * V)) : list (pystr * V) :=
  fold_left (fun d kv => dict_set d (fst kv) (snd kv)) pairs [].

Section Containers.
(** The scanner for nested values, [scan_once]. *)
Variable scan : pystr -> result (json * pystr).

(** The member loop of [JSONObject], entered after the opening quote of a
    key; [acc] holds the pairs read so far, most recent first. *)
Fixpoint object_members (fuel : nat) (s : pystr) (acc : list (pystr * json))
    : result (json * pystr) :=
  match fuel with
  | O => Error RecursionLimit
  | S fuel' =>
      match scanstring s [] with
      | Error e => Error e
      | Ok (key, r) =>
          match skip_ws r with
          | c :: r2 =>
              if c =? c_colon then
                match scan (skip_ws r2) with
                | Error e => Error e
                | Ok (value, r4) =>
                    let acc' := (key, value) :: acc in
                    match skip_ws r4 with
                    | d :: r6 =>
                        if d =? c_rbrace
                        then Ok (JObject (dict_of_pairs (rev acc')), r6)
                        else if d =? c_comma then
                          match skip_ws r6 with
                          | q :: r7 =>
                              if q =? c_quote then object_members fuel' r7 acc'
                              else Error ExpectingPropertyName
                          | [] => Error ExpectingPropertyName
                          end
                        else Error ExpectingComma
                    | [] => Error ExpectingComma
                    end
                end
              else Error ExpectingColon
          | [] => Error ExpectingColon
          end
      end
  end.

(** [JSONObject], entered after the opening brace. *)
Definition JSONObject (s : pystr) : result (json * pystr) :=
  match skip_ws s with
  | c :: r =>
      if c =? c_rbrace then Ok (JObject [], r)
      else if c =? c_quote then object_members (length s) r []
      else Error ExpectingPropertyName
  | [] => Error ExpectingPropertyName
  end.

(** The element loop of [JSONArray]. *)
Fixpoint array_items (fuel : nat) (s : pystr) (acc : list json)
    : result (json * pystr) :=
  match fuel with
  | O => Error RecursionLimit
  | S fuel' =>
      match scan s with
      | Error e => Error e
      | Ok (value, r) =>
          let acc' := value :: acc in
          match skip_ws r with
          | d :: r2 =>
              if d =? c_rbracket then Ok (JArray (rev acc'), r2)
              else if d =? c_comma then array_items fuel' (skip_ws r2) acc'
              else Error ExpectingComma
          | [] => Error ExpectingComma
          end
      end
  end.

(** [JSONArray], entered after the opening bracket. *)
Definition JSONArray (s : pystr) : result (json * pystr) :=
  match skip_ws s with
  | c :: r =>
      if c =? c_rbracket then Ok (JArray [], r)
      else array_items (length s) (skip_ws s) []
  | [] => array_items (length s) [] []
  end.

End Containers.

(** The tokens of [scan_once] that are neither strings nor containers,
    in its order: null, true, false, a number, NaN, Infinity, -Infinity. *)
Definition scan_atom (s : pystr) : result (json * pystr) :=
  if starts_with (lit "null") s then Ok (JNull, drop 4 s)
  else if starts_with (lit "true") s then Ok (JBool true, drop 4 s)
  else if starts_with (lit "false") s then Ok (JBool false, drop 5 s)
  else
    match match_number s with
    | Some res => Ok res
    | None =>
        if starts_with (lit "NaN") s
        then Ok (JFloat (lit "NaN"), drop 3 s)
        else if starts_with (lit "Infinity") s
        then Ok (JFloat (lit "Infinity"), drop 8 s)
        else if starts_with (lit "-Infinity") s
        then Ok (JFloat (lit "-Infinity"), drop 9 s)
        else Error ExpectingValue
    end.

(** [scan_once]; [depth] bounds the nesting of containers. *)
Fixpoint scan_once (depth : nat) (s : pystr) : result (json * pystr) :=
  match depth with
  | O => Error RecursionLimit
  | S depth' =>
      match s with
      | [] => Error ExpectingValue
      | c :: r =>
          if c =? c_quote then
            match scanstring r [] with
            | Ok (str, r') => Ok (JString str, r')
            | Error e => Error e
            end
          else if c =? c_lbrace then JSONObject (scan_once depth') r
          else if c =? c_lbracket then JSONArray (scan_once depth') r
          else scan_atom s
      end
  end.

(** [json.loads(s)] for a [str] argument. *)
Definition loads (s : pystr) : result json :=
  if starts_with [65279] s then Error UnexpectedBOM
  else
    match scan_once (S (length s)) (skip_ws s) with
    | Error e => Error e
    | Ok (obj, r) =>
        match skip_ws r with
        | [] => Ok obj
        | _ :: _ => Error ExtraData
        end
    end.

(** *** [json.dumps] *)

Definition hex_digit (n : N) : char :=
  if n <? 10 then 48 + n else 87 + n.

(** [format(n, '04x')] behind a backslash and [u]. *)
Definition u_escape (n : N) : pystr :=
  [c_backslash; 117;
   hex_digit (n / 4096 mod 16); hex_digit (n / 256 mod 16);
   hex_digit (n / 16 mod 16); hex_digit (n mod 16)].

(** The replacement [encode_basestring_ascii] makes for one character. *)
Definition escape_char (c : char) : pystr :=
  if c =? 34 then [c_backslash; 34]
  else if c =? 92 then [c_backslash; 92]
  else if c =? 10 then [c_backslash; 110]
  else if c =? 13 then [c_backslash; 114]
  else if c =? 9 then [c_backslash; 116]
  else if c =? 12 then [c_backslash; 102]
  else if c =? 8 then [c_backslash; 98]
  else if (32 <=? c) && (c <=? 126) then [c]
  else if c <? 65536 then u_escape c
  else
    let n := c - 65536 in
    u_escape (55296 + (n / 1024) mod 1024) ++ u_escape (56320 + n mod 1024).

Definition encode_basestring_ascii (s : pystr) : pystr :=
  c_quote :: flat_map escape_char s ++ [c_quote].

Definition newline_indent (indent : option nat) (level : nat) : pystr :=
  match indent with
  | None => []
  | Some k => c_newline :: repeat c_space (k * level)
  end.

Definition item_separator (indent : option nat) (level : nat) : pystr :=
  match indent with
  | None => [c_comma; c_space]
  | Some _ => c_comma :: newline_indent indent level
  end.

Fixpoint join (sep : pystr) (parts : list pystr) : pystr :=
  match parts with
  | [] => []
  | [p] => p
  | p :: ps => p ++ sep ++ join sep ps
  end.

(** [json.dumps(v, indent=indent)] at nesting [level]. *)
Fixpoint dumps_at (indent : option nat) (level : nat) (v : json) : pystr :=
  match v with
  | JNull => lit "null"
  | JBool true => lit "true"
  | JBool false => lit "false"
  | JInt n => str_of_Z n
  | JFloat lexeme => lexeme
  | JString s => encode_basestring_ascii s
  | JArray [] => lit "[]"
  | JArray items =>
      c_lbracket :: newline_indent indent (S level)
      ++ join (item_separator indent (S level))
              (map (dumps_at indent (S level)) items)
      ++ newline_indent indent level ++ [c_rbracket]
  | JObject [] => lit "{}"
  | JObject members =>
      c_lbrace :: newline_indent indent (S level)
      ++ join (item_separator indent (S level))
              (map (fun kv => encode_basestring_ascii (fst kv)
                              ++ [c_colon; c_space]
                              ++ dumps_at indent (S level) (snd kv)) members)
      ++ newline_indent indent level ++ [c_rbrace]
  end.

Definition dumps (v : json) (indent : option nat) : pystr := dumps_at indent 0 v.

(** *** Python operations on decoded values *)

(** [bool(v)] *)
Definition truthy (v : json) : bool :=
  match v with
  | JNull => false
  | JBool b => b
  | JInt n => negb (n =? 0)%Z
  | JFloat _ => true
  | JString s => str_truthy s
  | JArray items => match items with [] => false | _ => true end
  | JObject members => match members with [] => false | _ => true end
  end.

Fixpoint dict_lookup {V} (d : list (pystr * V)) (k : pystr) : option V :=
  match d with
  | [] => None
  | (k', v) :: d' => if decide (k' = k) then Some v else dict_lookup d' k
  end.

(** [v == s] for a string [s]: only an equal string compares equal. *)
Definition eq_str (v : json) (s : pystr) : bool :=
  match v with
  | JString s' => bool_decide (s' = s)
  | _ => false
  end.

(** *** Vocabulary for statements about texts *)

(** A code point outside the surrogate range: what a [str] holds unless
    it was built from lone surrogates. *)
Definition is_scalar (c : char) : bool :=
  (c <? 55296) || ((57343 <? c) && (c <? 1114112)).

Definition scalar_text (s : pystr) : Prop :=
  Forall (fun c => is_scalar c = true) s.

(** A text of ASCII characters only. *)
Definition ascii_text (s : pystr) : Prop :=
  Forall (fun c => (c <? 128) = true) s.

End Json.

(** ** Exceptions and outcomes of Python computations *)

Module Exn.
Import Py Json.

(** Instances of [Exception]: what [except Exception] catches. *)
Inductive exception : Type :=
| KeyError (key : pystr)
| IndexError
| TypeError (msg : pystr)
| AttributeError (msg : pystr)
| RuntimeError (msg : pystr)
| EOFError
| JSONDecodeError (e : decode_error)
| RecursionError
| CollaboratorError (msg : pystr).  (* an error raised inside a collaborator *)

(** Everything a [raise] can carry: [BaseException]. *)
Inductive base_exception : Type :=
| Exception (e : exception)
| KeyboardInterrupt
| SystemExit
| CancelledError.

Definition c_apostrophe : char := 39%N.

(** [str(e)], for the exceptions at the places where the code raises
    them.  [IndexError] comes from a subscript of a list and [EOFError]
    from [input()], so each has the one text of that place.  [KeyError]
    comes from a subscript with a key written in the code, free of
    apostrophes, backslashes and unprintable characters: the [repr] of such
    a key is the key between apostrophes.  The errors of [json.loads] are
    swallowed by [_extract_tool_call] before anything formats them; their
    text (Python's has the message, the line and the column) is not
    modelled, and a fixed word stands for it.  The messages carried by the
    other constructors are the texts themselves. *)
Definition str_of_exception (e : exception) : pystr :=
  match e with
  | KeyError key => c_apostrophe :: key ++ [c_apostrophe]
  | IndexError => lit "list index out of range"
  | TypeError msg => msg
  | AttributeError msg => msg
  | RuntimeError msg => msg
  | EOFError => lit "EOF when reading a line"
  | JSONDecodeError _ => lit "JSONDecodeError"
  | RecursionError => lit "maximum recursion depth exceeded"
  | CollaboratorError msg => msg
  end.

(** How a computation ends: it returns, it raises, or it never comes back
    (a collaborator that blocks for ever, a loop out of fuel). *)
Inductive outcome (A : Type) : Type :=
| Return (a : A)
| Raise (e : base_exception)
| Hang.
Arguments Return {A} a.
Arguments Raise {A} e.
Arguments Hang {A}.

Definition is_Exception (e : base_exception) : bool :=
  match e with Exception _ => true | _ => false end.

Definition is_KeyboardInterrupt (e : base_exception) : bool :=
  match e with KeyboardInterrupt => true | _ => false end.

(** The exception [json.loads] raises for a decoding failure. *)
Definition exception_of_decode_error (e : decode_error) : base_exception :=
  match e with
  | RecursionLimit => Exception RecursionError
  | _ => Exception (JSONDecodeError e)
  end.

End Exn.

(** ** client.py *)

Module Client.
Import Py Json Exn.

(** *** The tool-call extractor *)

Definition fence_json : pystr := lit "```json".
Definition fence : pystr := lit "```".

(** [text.replace('```json', '').replace('```', '').strip()] *)
Definition strip_fences (text : pystr) : pystr :=
  strip (replace (replace text fence_json []) fence []).

(** The body of the [try] block of [_extract_tool_call]; falling out of
    the [if] reaches [return None]. *)
Definition extract_body (text : pystr) : outcome json :=
  let text := strip_fences text in
  let start := find text [c_lbrace] in
  let end_ := (rfind text [c_rbrace] + 1)%Z in
  if negb (start =? -1)%Z && (end_ >? start)%Z then
    let json_str := py_slice text start end_ in
    match loads json_str with
    | Ok tool_call => Return tool_call
    | Error e => Raise (exception_of_decode_error e)
    end
  else Return JNull.

(** [_extract_tool_call(text)]: the bare [except: pass] swallows whatever
    the body raised, and [None] is returned. *)
Definition _extract_tool_call (text : pystr) : outcome json :=
  match extract_body text with
  | Return tool_call => Return tool_call
  | Raise _ => Return JNull
  | Hang => Hang
  end.

(** What the extractor returns for a decoding result: the decoded value,
    or [None] after an error. *)
Definition or_none (r : result json) : json :=
  match r with Ok v => v | Error _ => JNull end.

Definition c_backtick : char := 96%N.

(** Model outputs used as examples. *)
Definition quoted (s : string) : pystr := c_quote :: lit s ++ [c_quote].

(** The text of the literal escape of the decision prompt: the object
    with the single member tool = none. *)
Definition text_tool_none : pystr :=
  lit "{" ++ quoted "tool" ++ lit ":" ++ quoted "none" ++ lit "}".

Definition value_tool_none : json :=
  JObject [(lit "tool", JString (lit "none"))].

(** The same object inside a json code fence. *)
Definition fenced_tool_none : pystr :=
  fence_json ++ [c_newline] ++ text_tool_none ++ [c_newline] ++ fence.

(** A call of get_latest_news with empty arguments. *)
Definition text_news_call : pystr :=
  lit "{" ++ quoted "tool" ++ lit ":" ++ quoted "get_latest_news" ++ lit ","
  ++ quoted "arguments" ++ lit ":{}}".

Definition value_news_call : json :=
  JObject [(lit "tool", JString (lit "get_latest_news"));
           (lit "arguments", JObject [])].

(** One complete object followed by a second one. *)
Definition text_two_objects : pystr :=
  text_tool_none ++ lit " " ++ text_news_call.

(** *** Collaborators *)

Record tool : Type := { name : pystr; description : pystr }.

(** An item of [CallToolResult.content]; only text items have a [text]. *)
Inductive content : Type :=
| TextContent (text : pystr)
| OtherContent.

(** The three prompt templates, by the values substituted into them. *)
Inductive prompt : Type :=
| DecisionPrompt (user_message : pystr)
| NaturalPrompt (user_query raw_data : pystr)
| ChatPrompt (user_message : pystr).

Record options : Type := { temperature : Q; top_p : option Q }.

Definition decision_options : options :=
  {| temperature := 1 # 10; top_p := Some (5 # 10) |}.
Definition natural_options : options :=
  {| temperature := 8 # 10; top_p := Some (9 # 10) |}.
Definition chat_options : options :=
  {| temperature := 8 # 10; top_p := None |}.

(** What the program does to the outside, most recent first in a trace. *)
Inductive event : Type :=
| Printed (line : pystr)
| Asked
| Generated (p : prompt) (o : options)
| ToolCalled (tool_name tool_args : json)
| ClientEntered
| SessionEntered
| SessionInitialized
| ToolsListed
| SessionExited
| ClientExited.

(** The outside world: the language model, the MCP session and the
    console.  Each call may return, raise or block. *)
Record Backend : Type := {
  world : Type;
  ollama_generate : prompt -> options -> world -> outcome pystr * world;
  client_aenter : world -> outcome unit * world;
  session_aenter : world -> outcome unit * world;
  session_initialize : world -> outcome unit * world;
  session_list_tools : world -> outcome (list tool) * world;
  session_call_tool : json -> json -> world -> outcome (list content) * world;
  session_aexit : world -> outcome unit * world;
  client_aexit : world -> outcome unit * world;
  input : world -> outcome pystr * world
}.

(** The attributes of an [MCPClient]; a context or session that is set is
    a truthy object. *)
Record MCPClient : Type := {
  session : bool;
  available_tools : list tool;
  client_context : bool;
  session_context : bool
}.

(** [MCPClient()] *)
Definition new_client : MCPClient :=
  {| session := false; available_tools := [];
     client_context := false; session_context := false |}.

(** *** Messages

    The texts the client prints; a character outside ASCII is given by the
    code points it has in the source file. *)

Definition times (s : pystr) (n : nat) : pystr := concat (repeat s n).

Definition nl : pystr := [c_newline].
Definition cap_emoji : pystr := [240; 376; 381; 8220; 32]%N.
Definition msg_connected : pystr :=
  [226; 339; 8230]%N ++ lit " Connected to MCP Server" ++ nl.
Definition msg_banner_top : pystr := nl ++ times cap_emoji 20.
Definition msg_welcome : pystr :=
  nl ++ lit "   Welcome to BMSCE Assistant! " ++ [240; 376; 164; 8211]%N.
Definition msg_helper : pystr :=
  lit "   Your friendly AI helper for all things BMS College" ++ nl.
Definition msg_banner_bottom : pystr := times cap_emoji 20 ++ nl.
Definition msg_hey : pystr :=
  [240; 376; 8217; 172]%N
  ++ lit " Hey there! Ask me about college events, notifications, or anything else!".
Definition msg_type_quit : pystr :=
  lit "   Type 'quit' or 'exit' when you're done." ++ nl.
Definition msg_separator : pystr := times [226; 8221; 8364]%N 60 ++ nl.
Definition msg_see_you : pystr :=
  nl ++ [240; 376; 8216; 8249]%N ++ lit " See you later! Have an awesome day! "
  ++ [240; 376; 338; 376]%N ++ nl.
Definition msg_catch_you : pystr :=
  nl ++ nl ++ [240; 376; 8216; 8249]%N ++ lit " Catch you later! Take care! "
  ++ [240; 376; 338; 376]%N ++ nl.
Definition msg_debug (e : exception) : pystr :=
  lit "DEBUG: An error occurred while calling the tool: " ++ str_of_exception e.
Definition msg_apology : pystr :=
  lit "Oops! I had trouble getting that information. Could you try asking in a different way? "
  ++ [240; 376; 732; 352]%N ++ nl.

Definition exit_words : list pystr :=
  [lit "quit"; lit "exit"; lit "bye"; lit "goodbye"].

(** [user_input.lower() in ['quit', 'exit', 'bye', 'goodbye']] *)
Definition is_exit_command (user_input : pystr) : bool :=
  bool_decide (lower user_input ∈ exit_words).

(** *** The session *)

Section Session.
Context (B : Backend).

Record state : Type := {
  self : MCPClient;
  env : world B;
  trace : list event
}.

(** Computations over the client object, the world and the trace. *)
Definition M (A : Type) : Type := state -> outcome A * state.

Definition ret {A} (a : A) : M A := fun s => (Return a, s).
Definition raise {A} (e : base_exception) : M A := fun s => (Raise e, s).
Definition hang {A} : M A := fun s => (Hang, s).

Definition bind {A C} (c : M A) (k : A -> M C) : M C :=
  fun s =>
    match c s with
    | (Return a, s') => k a s'
    | (Raise e, s') => (Raise e, s')
    | (Hang, s') => (Hang, s')
    end.

(** [try: c  except <catches> as e: handler e] *)
Definition try_except {A} (c : M A) (catches : base_exception -> bool)
    (handler : base_exception -> M A) : M A :=
  fun s =>
    match c s with
    | (Raise e, s') => if catches e then handler e s' else (Raise e, s')
    | r => r
    end.

(** [try: c  finally: f]: [f] runs however [c] ended; an exception of
    [f] replaces the pending result. *)
Definition try_finally {A} (c : M A) (f : M unit) : M A :=
  fun s =>
    match c s with
    | (Hang, s') => (Hang, s')
    | (r, s') =>
        match f s' with
        | (Return _, s'') => (r, s'')
        | (Raise e, s'') => (Raise e, s'')
        | (Hang, s'') => (Hang, s'')
        end
    end.

(** A value computed without touching the state. *)
Definition lift {A} (o : outcome A) : M A := fun s => (o, s).

Definition record (ev : event) : M unit :=
  fun s => (Return tt,
            {| self := self s; env := env s; trace := ev :: trace s |}).

(** [print(line)] *)
Definition print (line : pystr) : M unit := record (Printed line).

(** A call to a collaborator: the event, then the world's answer. *)
Definition call {A} (ev : event) (f : world B -> outcome A * world B) : M A :=
  fun s =>
    let (r, w) := f (env s) in
    (r, {| self := self s; env := w; trace := ev :: trace s |}).

Definition get_self : M MCPClient := fun s => (Return (self s), s).
Definition set_self (c : MCPClient) : M unit :=
  fun s => (Return tt, {| self := c; env := env s; trace := trace s |}).

End Session.

Arguments ret {B A} a.
Arguments raise {B A} e.
Arguments hang {B A}.
Arguments bind {B A C} c k.
Arguments try_except {B A} c catches handler.
Arguments try_finally {B A} c f.
Arguments lift {B A} o.
Arguments record {B} ev.
Arguments print {B} line.
Arguments call {B A} ev f.
Arguments get_self {B}.
Arguments set_self {B} c.
Arguments self {B} s.
Arguments env {B} s.
Arguments trace {B} s.

Notation "'do' x <- c ;; k" := (bind c (fun x => k))
  (at level 10, x name, c at level 99, k at level 200).
Notation "c ;;; k" := (bind c (fun _ => k))
  (at level 200, k at level 200).

Section Methods.
Context (B : Backend).

(** [connect_to_server] *)
Definition connect_to_server (server_script_path : pystr) : M B unit :=
  do c <- get_self ;;
  set_self {| session := session c; available_tools := available_tools c;
              client_context := true; session_context := session_context c |} ;;;
  call ClientEntered (client_aenter B) ;;;
  do c <- get_self ;;
  set_self {| session := session c; available_tools := available_tools c;
              client_context := client_context c; session_context := true |} ;;;
  call SessionEntered (session_aenter B) ;;;
  do c <- get_self ;;
  set_self {| session := true; available_tools := available_tools c;
              client_context := client_context c;
              session_context := session_context c |} ;;;
  call SessionInitialized (session_initialize B) ;;;
  do tools <- call ToolsListed (session_list_tools B) ;;
  do c <- get_self ;;
  set_self {| session := session c; available_tools := tools;
              client_context := client_context c;
              session_context := session_context c |} ;;;
  print msg_connected.

(** [process_tool_call] *)
Definition process_tool_call (tool_name tool_args : json) : M B pystr :=
  do c <- get_self ;;
  if negb (session c)
  then raise (Exception (RuntimeError (lit "Not connected to server")))
  else
    do result <- call (ToolCalled tool_name tool_args)
                   (session_call_tool B tool_name tool_args) ;;
    match result with
    | [] => raise (Exception IndexError)
    | TextContent text :: _ => ret text
    | OtherContent :: _ =>
        raise (Exception (AttributeError (lit "object has no attribute 'text'")))
    end.

(** [get_tools_for_llm] *)
Definition get_tools_for_llm (c : MCPClient) : pystr :=
  join nl (map (fun t => lit "- " ++ name t ++ lit ": " ++ description t)
               (available_tools c)).

(** [make_natural_response] *)
Definition make_natural_response (user_query raw_data : pystr) : M B pystr :=
  do response <- call (Generated (NaturalPrompt user_query raw_data) natural_options)
                   (ollama_generate B (NaturalPrompt user_query raw_data)
                                    natural_options) ;;
  ret (strip response).

(** [tool_call.get(key, default)]; only a dict has the method. *)
Definition py_get (tool_call : json) (key : pystr) (default : json)
    : outcome json :=
  match tool_call with
  | JObject d =>
      Return (match dict_lookup d key with Some v => v | None => default end)
  | _ => Raise (Exception (AttributeError (lit "object has no attribute 'get'")))
  end.

(** [tool_call[key]] *)
Definition py_getitem (tool_call : json) (key : pystr) : outcome json :=
  match tool_call with
  | JObject d =>
      match dict_lookup d key with
      | Some v => Return v
      | None => Raise (Exception (KeyError key))
      end
  | _ => Raise (Exception (TypeError (lit "object is not subscriptable")))
  end.

(** [tool_call and tool_call.get('tool') != 'none'], as a truth value. *)
Definition wants_tool (tool_call : json) : outcome bool :=
  if truthy tool_call then
    match py_get tool_call (lit "tool") JNull with
    | Return v => Return (negb (eq_str v (lit "none")))
    | Raise e => Raise e
    | Hang => Hang
    end
  else Return false.

(** The branch of [chat_with_mistral] that calls a tool (lines 137-151):
    the two lookups stand before the [try]. *)
Definition tool_branch (user_message : pystr) (tool_call : json) : M B unit :=
  do tool_name <- lift (py_getitem tool_call (lit "tool")) ;;
  do tool_args <- lift (py_get tool_call (lit "arguments") (JObject [])) ;;
  try_except
    (do raw_data <- process_tool_call tool_name tool_args ;;
     do natural_response <- make_natural_response user_message raw_data ;;
     print (natural_response ++ nl))
    is_Exception
    (fun e =>
       match e with
       | Exception e' => print (msg_debug e') ;;; print msg_apology
       | _ => raise e
       end).

(** The branch without tools (lines 153-168). *)
Definition conversation_branch (user_message : pystr) : M B unit :=
  do response <- call (Generated (ChatPrompt user_message) chat_options)
                      (ollama_generate B (ChatPrompt user_message) chat_options) ;;
  print (strip response ++ nl).

(** [chat_with_mistral] *)
Definition chat_with_mistral (user_message : pystr) : M B unit :=
  do decision_response <-
    call (Generated (DecisionPrompt user_message) decision_options)
         (ollama_generate B (DecisionPrompt user_message) decision_options) ;;
  do tool_call <- lift (_extract_tool_call decision_response) ;;
  do dispatch <- lift (wants_tool tool_call) ;;
  if dispatch : bool
  then tool_branch user_message tool_call
  else conversation_branch user_message.

(** [close] *)
Definition close : M B unit :=
  do c <- get_self ;;
  (if session_context c then call SessionExited (session_aexit B) else ret tt) ;;;
  do c <- get_self ;;
  if client_context c then call ClientExited (client_aexit B) else ret tt.

(** The [while True] loop of [main]; [fuel] bounds the number of inputs
    read, and running out of it means the loop is still going. *)
Fixpoint session_loop (fuel : nat) : M B unit :=
  match fuel with
  | O => hang
  | S fuel' =>
      do line <- call Asked (input B) ;;
      let user_input := strip line in
      if is_exit_command user_input then print msg_see_you
      else if negb (str_truthy user_input) then session_loop fuel'
      else
        print [] ;;;
        chat_with_mistral user_input ;;;
        print msg_separator ;;;
        session_loop fuel'
  end.

(** [main] up to the [try] (lines 196-208): the banner and the connection. *)
Definition startup : M B unit :=
  set_self new_client ;;;
  print msg_banner_top ;;;
  print msg_welcome ;;;
  print msg_helper ;;;
  print msg_banner_bottom ;;;
  connect_to_server (lit "main.py") ;;;
  print msg_hey ;;;
  print msg_type_quit ;;;
  print msg_separator.

(** The [try ... except KeyboardInterrupt ... finally] of [main]
    (lines 210-228). *)
Definition interactive_session (fuel : nat) : M B unit :=
  try_finally
    (try_except (session_loop fuel) is_KeyboardInterrupt
                (fun _ => print msg_catch_you))
    close.

(** [main] *)
Definition main (fuel : nat) : M B unit :=
  startup ;;; interactive_session fuel.

(** The state in which the program starts in world [w]. *)
Definition initial_state (w : world B) : state B :=
  {| self := new_client; env := w; trace := [] |}.

End Methods.

(** *** Vocabulary for statements about runs *)

(** [c] takes every state to an [R]-related one, however it ends. *)
Definition respects {B A} (R : state B -> state B -> Prop) (c : M B A) : Prop :=
  forall s r s', c s = (r, s') -> R s s'.

Definition same_self {B} (s s' : state B) : Prop := self s' = self s.

(** An event is fine unless it is a tool call with the name none. *)
Definition not_none_call (ev : event) : Prop :=
  match ev with
  | ToolCalled n _ => eq_str n (lit "none") = false
  | _ => True
  end.

Definition adds_fine_events {B} (s s' : state B) : Prop :=
  exists new, trace s' = new ++ trace s /\ Forall not_none_call new.

(** The state in which the model's decision for [user_message] has
    arrived, the world being [w] then. *)
Definition decided {B} (user_message : pystr) (s : state B) (w : world B)
    : state B :=
  {| self := self s; env := w;
     trace := Generated (DecisionPrompt user_message) decision_options
              :: trace s |}.

(** The state in which [events] (most recent first) have happened after
    [s], the world being [w] then. *)
Definition after {B} (events : list event) (s : state B) (w : world B)
    : state B :=
  {| self := self s; env := w; trace := events ++ trace s |}.

(** The value is none, the empty object, or an object whose tool member
    is the string none. *)
Definition declines_tool (v : json) : Prop :=
  v = JNull \/ v = JObject [] \/
  exists d, v = JObject d /\
            dict_lookup d (lit "tool") = Some (JString (lit "none")).

(** The events of one kind in a list of events. *)
Definition is_generated (ev : event) : bool :=
  match ev with Generated _ _ => true | _ => false end.

Definition is_tool_called (ev : event) : bool :=
  match ev with ToolCalled _ _ => true | _ => false end.

Definition is_asked (ev : event) : bool :=
  match ev with Asked => true | _ => false end.

Definition count_events (kind : event -> bool) (events : list event) : nat :=
  length (List.filter kind events).

(** What a turn may do to the outside: print, ask the model, call a tool. *)
Definition turn_event (ev : event) : Prop :=
  match ev with
  | Printed _ | Generated _ _ | ToolCalled _ _ => True
  | _ => False
  end.

(** What connecting may do to the outside: print and open the connection. *)
Definition connect_event (ev : event) : Prop :=
  match ev with
  | Printed _ | ClientEntered | SessionEntered | SessionInitialized
  | ToolsListed => True
  | _ => False
  end.

(** The state [s] with another tool catalog in the client. *)
Definition with_tools {B} (tools : list tool) (s : state B) : state B :=
  {| self := {| session := session (self s); available_tools := tools;
                client_context := client_context (self s);
                session_context := session_context (self s) |};
     env := env s; trace := trace s |}.

(** The console delivers [lines], one for each call of [input], and the
    world goes from [w] to [w'] meanwhile. *)
Fixpoint reads (B : Backend) (w : world B) (lines : list pystr) (w' : world B)
    : Prop :=
  match lines with
  | [] => w' = w
  | line :: rest =>
      exists w1, input B w = (Return line, w1) /\ reads B w1 rest w'
  end.

(** *** Example worlds *)

(** A catalog with the three tool names of [main.py].  Each description
    is the docstring of the tool written on one line, a space standing
    for each of the line breaks the docstring itself has. *)
Definition catalog : list tool :=
  [ {| name := lit "get_latest_news";
       description := lit "Extracts the 'News & Events' Website, and returns the data as a JSON string." |};
    {| name := lit "get_college_notifications";
       description := lit "Extracts 'College Notifications' from the Website, and returns the data as a JSON string." |};
    {| name := lit "query_knowledge_base";
       description := lit "Queries the ChromaDB vector store to find the most relevant document chunks for a given text query." |} ].

(** A server that knows the catalog and rejects every other tool name. *)
Definition catalog_server (tool_name tool_args : json) : outcome (list content) :=
  match tool_name with
  | JString n =>
      if bool_decide (n ∈ map name catalog)
      then Return [TextContent (lit "[]")]
      else Raise (Exception (CollaboratorError (lit "Unknown tool: " ++ n)))
  | _ => Raise (Exception (CollaboratorError (lit "Invalid tool name")))
  end.

(** A world whose model answers every decision prompt with [decision],
    whose server is [catalog_server], and whose console delivers the
    lines of the list, then end of input. *)
Definition scripted (decision : pystr) : Backend :=
  {| world := list (outcome pystr);
     ollama_generate p _ w :=
       match p with
       | DecisionPrompt _ => (Return decision, w)
       | NaturalPrompt _ raw_data => (Return (lit "Here you go: " ++ raw_data), w)
       | ChatPrompt _ => (Return (lit "Hello! "), w)
       end;
     client_aenter w := (Return tt, w);
     session_aenter w := (Return tt, w);
     session_initialize w := (Return tt, w);
     session_list_tools w := (Return catalog, w);
     session_call_tool n a w := (catalog_server n a, w);
     session_aexit w := (Return tt, w);
     client_aexit w := (Return tt, w);
     input w :=
       match w with
       | [] => (Raise (Exception EOFError), [])
       | line :: w' => (line, w')
       end |}.

(** The same world with a server that refuses the handshake: entering
    the transport and the session works, [initialize] raises. *)
Definition refusing (decision : pystr) : Backend :=
  {| world := list (outcome pystr);
     ollama_generate := ollama_generate (scripted decision);
     client_aenter := client_aenter (scripted decision);
     session_aenter := session_aenter (scripted decision);
     session_initialize w :=
       (Raise (Exception (CollaboratorError (lit "Connection closed"))), w);
     session_list_tools := session_list_tools (scripted decision);
     session_call_tool := session_call_tool (scripted decision);
     session_aexit := session_aexit (scripted decision);
     client_aexit := client_aexit (scripted decision);
     input := input (scripted decision) |}.

(** The same world with a model server that is down: every call of
    [ollama.generate] raises. *)
Definition offline (decision : pystr) : Backend :=
  {| world := list (outcome pystr);
     ollama_generate _ _ w :=
       (Raise (Exception (CollaboratorError (lit "Failed to connect to Ollama"))), w);
     client_aenter := client_aenter (scripted decision);
     session_aenter := session_aenter (scripted decision);
     session_initialize := session_initialize (scripted decision);
     session_list_tools := session_list_tools (scripted decision);
     session_call_tool := session_call_tool (scripted decision);
     session_aexit := session_aexit (scripted decision);
     client_aexit := client_aexit (scripted decision);
     input := input (scripted decision) |}.

(** The same world with a session that cannot be left: its [__aexit__]
    raises. *)
Definition stale (decision : pystr) : Backend :=
  {| world := list (outcome pystr);
     ollama_generate := ollama_generate (scripted decision);
     client_aenter := client_aenter (scripted decision);
     session_aenter := session_aenter (scripted decision);
     session_initialize := session_initialize (scripted decision);
     session_list_tools := session_list_tools (scripted decision);
     session_call_tool := session_call_tool (scripted decision);
     session_aexit w :=
       (Raise (Exception (CollaboratorError (lit "Broken pipe"))), w);
     client_aexit := client_aexit (scripted decision);
     input := input (scripted decision) |}.

(** A world whose model delivers the decision and then fails on every
    other prompt, and whose server answers every call with [answer]. *)
Definition mute (decision : pystr) (answer : list content) : Backend :=
  {| world := list (outcome pystr);
     ollama_generate p _ w :=
       match p with
       | DecisionPrompt _ => (Return decision, w)
       | _ => (Raise (Exception (CollaboratorError (lit "model runner has stopped"))), w)
       end;
     client_aenter := client_aenter (scripted decision);
     session_aenter := session_aenter (scripted decision);
     session_initialize := session_initialize (scripted decision);
     session_list_tools := session_list_tools (scripted decision);
     session_call_tool _ _ w := (Return answer, w);
     session_aexit := session_aexit (scripted decision);
     client_aexit := client_aexit (scripted decision);
     input := input (scripted decision) |}.

(** A model that asks for a tool nobody registered. *)
Definition text_make_coffee : pystr :=
  lit "{" ++ quoted "tool" ++ lit ":" ++ quoted "make_coffee" ++ lit "}".

(** A model that answers with an object without a tool member. *)
Definition text_no_tool_key : pystr :=
  lit "{" ++ quoted "arguments" ++ lit ":{" ++ quoted "x" ++ lit ":1}}".

(** The client once [connect_to_server] has returned in a [scripted] world. *)
Definition connected_client : MCPClient :=
  {| session := true; available_tools := catalog;
     client_context := true; session_context := true |}.

(** A connected client in world [B], with the console lines [w] to come
    and nothing done so far. *)
Definition connected (B : Backend) (w : world B) : state B :=
  {| self := connected_client; env := w; trace := [] |}.

(** The state after [startup] in the world [scripted decision] with the
    console lines [w] to come. *)
Definition started (decision : pystr) (w : list (outcome pystr))
    : state (scripted decision) :=
  Build_state (scripted decision) connected_client w
    [Printed msg_separator; Printed msg_type_quit; Printed msg_hey;
     Printed msg_connected; ToolsListed; SessionInitialized;
     SessionEntered; ClientEntered; Printed msg_banner_bottom;
     Printed msg_helper; Printed msg_welcome; Printed msg_banner_top].

End Client.

(** ** main.py: the knowledge-base query tool *)

Module Server.
Import Py Json Exn.

(** The part of Chroma's [QueryResult] the tool reads: under the key
    documents, one list of texts per query text, or nothing. *)
Record QueryResult : Type := { documents : option (list (list pystr)) }.

(** How [collection.query] ends: with a result or with an error.  The
    errors are instances of [Exception], which is what the store and its
    embedding function raise; an interrupt of the whole server process is
    not an outcome of the call. *)
Inductive query_outcome : Type :=
| QueryReturns (results : QueryResult)
| QueryRaises (e : exception).

(** The collection object imported from [vector_db]. *)
Record Collection : Type := {
  query : list pystr -> Z -> query_outcome
}.

Definition error_payload (message : pystr) : pystr :=
  dumps (JObject [(lit "error", JString message)]) None.

Definition msg_not_available : pystr :=
  lit "Cannot query. ChromaDB collection is not available.".

Definition msg_query_failed (e : exception) : pystr :=
  lit "An error occurred during the query: " ++ str_of_exception e.

(** The [try] block of [query_knowledge_base], with [results['documents'][0]]
    spelled out. *)
Definition query_body (c : Collection) (query_text : pystr) (n_results : Z)
    : outcome pystr :=
  match query c [query_text] n_results with
  | QueryRaises e => Raise (Exception e)
  | QueryReturns results =>
      match documents results with
      | None =>
          Raise (Exception (TypeError (lit "'NoneType' object is not subscriptable")))
      | Some [] => Raise (Exception IndexError)
      | Some (docs :: _) => Return (dumps (JArray (map JString docs)) (Some 2%nat))
      end
  end.

(** [query_knowledge_base(query_text, n_results)]; a collection that is
    not there is [None]. *)
Definition query_knowledge_base (collection : option Collection)
    (query_text : pystr) (n_results : Z) : outcome pystr :=
  match collection with
  | None => Return (error_payload msg_not_available)
  | Some c =>
      match query_body c query_text n_results with
      | Raise (Exception e) => Return (error_payload (msg_query_failed e))
      | r => r
      end
  end.

(** The two shapes of a payload. *)
Definition is_string_array (payload : pystr) : Prop :=
  exists docs, payload = dumps (JArray (map JString docs)) (Some 2%nat).

Definition is_error_object (payload : pystr) : Prop :=
  exists message, payload = error_payload message.

(** A store holding two texts, and one whose query fails. *)
Definition two_documents : Collection :=
  {| query _ _ :=
       QueryReturns {| documents := Some [[lit "Syllabus of CS101"; lit "Exam dates"]] |} |}.

Definition broken_store : Collection :=
  {| query _ _ := QueryRaises (CollaboratorError (lit "connection refused")) |}.

(** A store that finds nothing and answers with an empty list. *)
Definition empty_result : Collection :=
  {| query _ _ := QueryReturns {| documents := Some [] |} |}.

End Server.

(** ** vector_db.py: ingestion *)

Module VectorDb.
Import Py Json Chunker.
Local Open Scope Z_scope.

(** [os.path.basename] (POSIX) *)
Definition basename (p : pystr) : pystr :=
  let i := rfind p [c_slash] + 1 in
  py_slice p i (len p).

(** The scan over the leading characters of the file name in [splitext]:
    is there one that is not a dot? *)
Fixpoint has_non_dot (s : pystr) : bool :=
  match s with
  | [] => false
  | c :: s' => if negb (c =? c_dot)%N then true else has_non_dot s'
  end.

(** [os.path.splitext] (POSIX) *)
Definition splitext (p : pystr) : pystr * pystr :=
  let sepIndex := rfind p [c_slash] in
  let dotIndex := rfind p [c_dot] in
  if (dotIndex >? sepIndex) && has_non_dot (py_slice p (sepIndex + 1) dotIndex)
  then (py_slice p 0 dotIndex, py_slice p dotIndex (len p))
  else (p, []).

(** [os.path.splitext(os.path.basename(pdf_path))[0]] *)
Definition base_name_of (pdf_path : pystr) : pystr :=
  fst (splitext (basename pdf_path)).

Definition c_underscore : char := 95%N.

(** The id of chunk [i]: the base name, [_chunk_] and the index. *)
Definition chunk_id (base_name : pystr) (i : nat) : pystr :=
  base_name ++ lit "_chunk_" ++ str_of_nat i.

(** [extract_text_from_pdf]; [reader] gives the pages of a file, each with
    the text [extract_text] finds on it, if any. *)
Definition extract_text_from_pdf (reader : pystr -> list (option pystr))
    (pdf_path : pystr) : pystr :=
  fold_left (fun text page => text ++ match page with
                                      | Some t => t
                                      | None => []
                                      end)
            (reader pdf_path) [].

(** [add_pdf_to_vectordb]: the documents and ids handed to
    [collection.add].  The chunker runs with its defaults; the fuel
    exceeds the text length. *)
Definition add_pdf_to_vectordb (reader : pystr -> list (option pystr))
    (pdf_path : pystr) : option (list pystr * list pystr) :=
  let pdf_text := extract_text_from_pdf reader pdf_path in
  match split_text (S (length pdf_text)) pdf_text 1000 100 with
  | None => None
  | Some chunks =>
      let base_name := base_name_of pdf_path in
      let ids := map (chunk_id base_name) (seq 0 (length chunks)) in
      Some (chunks, ids)
  end.

(** Two files with the same name in different directories. *)
Definition two_folders (pdf_path : pystr) : list (option pystr) :=
  if bool_decide (pdf_path = lit "2023/notes.pdf") then [Some (lit "Semester one")]
  else if bool_decide (pdf_path = lit "2024/notes.pdf") then [Some (lit "Semester two")]
  else [].

End VectorDb.

(** * Facts about Python strings *)

Module PyFacts.
Import Py.

Lemma lstrip_split (s : pystr) :
  exists ws, s = ws ++ lstrip s /\ forallb isspace ws = true.
Proof.
  induction s as [|c s IH]; simpl.
  - exists []. split; reflexivity.
  - destruct (isspace c) eqn:Hc.
    + destruct IH as (ws & Hs & Hws). exists (c :: ws). simpl.
      rewrite Hc, Hws. split; [congruence | reflexivity].
    + exists []. split; reflexivity.
Qed.

Lemma lstrip_head (s : pystr) c t :
  lstrip s = c :: t -> isspace c = false.
Proof.
  induction s as [|d s IH]; simpl; [discriminate|].
  destruct (isspace d) eqn:Hd; [exact IH|].
  intros [= -> _]. exact Hd.
Qed.

Lemma lstrip_fixed c t : isspace c = false -> lstrip (c :: t) = c :: t.
Proof. intros H. simpl. now rewrite H. Qed.

Lemma lstrip_idem s : lstrip (lstrip s) = lstrip s.
Proof.
  destruct (lstrip s) as [|c t] eqn:E; [reflexivity|].
  apply lstrip_fixed, (lstrip_head _ _ _ E).
Qed.

Lemma rstrip_split (s : pystr) :
  exists ws, s = rstrip s ++ ws /\ forallb isspace ws = true.
Proof.
  destruct (lstrip_split (rev s)) as (ws & Hs & Hws).
  exists (rev ws). split.
  - unfold rstrip. rewrite <- rev_app_distr, <- Hs. now rewrite rev_involutive.
  - rewrite forallb_forall in *. intros x Hx. apply Hws. now apply in_rev.
Qed.

Lemma rstrip_idem s : rstrip (rstrip s) = rstrip s.
Proof. unfold rstrip. now rewrite rev_involutive, lstrip_idem. Qed.

(** [strip] removes a run of whitespace at each end, and nothing else. *)
Lemma strip_split (s : pystr) :
  exists ws1 ws2,
    s = ws1 ++ strip s ++ ws2 /\
    forallb isspace ws1 = true /\ forallb isspace ws2 = true.
Proof.
  destruct (lstrip_split s) as (ws1 & H1 & Hw1).
  destruct (rstrip_split (lstrip s)) as (ws2 & H2 & Hw2).
  exists ws1, ws2. unfold strip. rewrite <- H2. auto.
Qed.

Lemma strip_head s c t : strip s = c :: t -> isspace c = false.
Proof.
  unfold strip. intros E.
  destruct (rstrip_split (lstrip s)) as (ws & H & _).
  rewrite E in H. simpl in H. now apply (lstrip_head s c (t ++ ws)).
Qed.

Lemma strip_idem s : strip (strip s) = strip s.
Proof.
  destruct (strip s) as [|c t] eqn:E; [reflexivity|].
  unfold strip at 1. rewrite lstrip_fixed by apply (strip_head _ _ _ E).
  rewrite <- E. unfold strip. apply rstrip_idem.
Qed.

Lemma forallb_lookup (ws : pystr) i c :
  forallb isspace ws = true -> ws !! i = Some c -> isspace c = true.
Proof.
  intros H Hi. rewrite forallb_forall in H. apply H.
  apply list_elem_of_In. eapply list_elem_of_lookup_2; eauto.
Qed.

(** A non-blank character of [s] survives [strip], at its own offset. *)
Lemma strip_keeps (s : pystr) i c :
  s !! i = Some c -> isspace c = false ->
  exists ws1 ws2,
    s = ws1 ++ strip s ++ ws2 /\
    (length ws1 <= i < length ws1 + length (strip s))%nat.
Proof.
  intros Hi Hc.
  destruct (strip_split s) as (ws1 & ws2 & Hs & H1 & H2).
  exists ws1, ws2. split; [exact Hs|].
  remember (strip s) as m eqn:Em. clear Em. subst s.
  destruct (Nat.lt_ge_cases i (length ws1)) as [Hlt|Hge].
  { rewrite lookup_app_l in Hi by exact Hlt.
    rewrite (forallb_lookup _ _ _ H1 Hi) in Hc. discriminate. }
  split; [exact Hge|].
  rewrite lookup_app_r in Hi by exact Hge.
  destruct (Nat.lt_ge_cases (i - length ws1) (length m)) as [Hlt|Hge2];
    [lia|].
  rewrite lookup_app_r in Hi by exact Hge2.
  rewrite (forallb_lookup _ _ _ H2 Hi) in Hc. discriminate.
Qed.

Lemma py_index_in_range n x : (0 <= x <= n)%Z -> py_index n x = x.
Proof. unfold py_index. intros H. destruct (Z.ltb_spec x 0); lia. Qed.

(** Within bounds a Python slice is [take]/[drop]. *)
Lemma py_slice_in_range {A} (l : list A) (a b : Z) :
  (0 <= a <= b)%Z -> (b <= len l)%Z ->
  py_slice l a b = take (Z.to_nat (b - a)) (drop (Z.to_nat a) l).
Proof.
  intros Ha Hb. unfold py_slice.
  rewrite !py_index_in_range by lia. reflexivity.
Qed.

Lemma py_slice_split {A} (l : list A) (a b : Z) :
  (0 <= a <= b)%Z -> (b <= len l)%Z ->
  l = take (Z.to_nat a) l ++ py_slice l a b ++ drop (Z.to_nat b) l /\
  length (take (Z.to_nat a) l) = Z.to_nat a /\
  length (py_slice l a b) = Z.to_nat (b - a).
Proof.
  intros Ha Hb. rewrite py_slice_in_range by assumption.
  unfold len in Hb. repeat split.
  - rewrite <- (take_drop (Z.to_nat a) l) at 1. f_equal.
    rewrite <- (take_drop (Z.to_nat (b - a)) (drop (Z.to_nat a) l)) at 1.
    f_equal. rewrite drop_drop. f_equal. lia.
  - rewrite length_take. lia.
  - rewrite length_take, length_drop. lia.
Qed.

Lemma py_slice_lookup {A} (l : list A) (a b : Z) (i : nat) :
  (0 <= a <= b)%Z -> (b <= len l)%Z -> (a <= Z.of_nat i < b)%Z ->
  py_slice l a b !! (i - Z.to_nat a)%nat = l !! i.
Proof.
  intros Ha Hb Hi. rewrite py_slice_in_range by assumption.
  rewrite lookup_take_lt by lia. rewrite lookup_drop. f_equal. lia.
Qed.

End PyFacts.

(** * The chunker *)

Module ChunkerFacts.
Import Py PyFacts Chunker.
Local Open Scope Z_scope.

Lemma covered_mono text chunks chunks' i :
  (forall c, In c chunks -> In c chunks') ->
  covered text chunks i -> covered text chunks' i.
Proof.
  intros Hin (c & pre & post & Hc & Hs & Hi).
  exists c, pre, post. auto.
Qed.

Lemma str_truthy_nonempty (s : pystr) : str_truthy s = true <-> s <> [].
Proof. destruct s; simpl; split; congruence. Qed.

(** What one window contributes: the trimmed slice is a substring of the
    text, and it contains every non-blank position of the window. *)
Lemma window_chunk (text : pystr) (a b : Z) :
  0 <= a <= b -> b <= len text ->
  let chunk := strip (py_slice text a b) in
  (exists pre post, substring_at text chunk pre post) /\
  (forall (i : nat) ch, a <= Z.of_nat i < b ->
     text !! i = Some ch -> isspace ch = false ->
     covered text [chunk] i).
Proof.
  intros Ha Hb chunk.
  destruct (py_slice_split text a b Ha Hb) as (Ht & Hl1 & Hl2).
  split.
  - destruct (strip_split (py_slice text a b)) as (ws1 & ws2 & Hs & _ & _).
    exists (take (Z.to_nat a) text ++ ws1), (ws2 ++ drop (Z.to_nat b) text).
    unfold substring_at. fold chunk in Hs.
    rewrite Ht at 1. rewrite Hs at 1. now rewrite <- !app_assoc.
  - intros i ch Hi Hlk Hsp.
    rewrite <- (py_slice_lookup text a b i Ha Hb Hi) in Hlk.
    destruct (strip_keeps _ _ _ Hlk Hsp) as (ws1 & ws2 & Hs & Hr).
    fold chunk in Hs, Hr.
    exists chunk, (take (Z.to_nat a) text ++ ws1),
           (ws2 ++ drop (Z.to_nat b) text).
    split; [now left|]. split.
    + unfold substring_at. rewrite Ht at 1. rewrite Hs at 1.
      now rewrite <- !app_assoc.
    + rewrite length_app, Hl1. lia.
Qed.

(** The loop invariant: every chunk collected so far is well formed and
    every non-blank position before [start] is covered. *)
Lemma split_loop_invariant fuel : forall text chunk_size overlap start chunks res,
  0 <= overlap < chunk_size -> 0 <= start ->
  split_loop fuel text chunk_size overlap start chunks = Some res ->
  Forall (good_chunk text) chunks ->
  (forall (i : nat) ch, Z.of_nat i < start ->
     text !! i = Some ch -> isspace ch = false -> covered text chunks i) ->
  Forall (good_chunk text) res /\
  (forall (i : nat) ch,
     text !! i = Some ch -> isspace ch = false -> covered text res i).
Proof.
  induction fuel as [|fuel IH]; intros text S O start chunks res HSO Hst;
    simpl; [discriminate|].
  destruct (Z.ltb_spec start (len text)) as [Hlt|Hge].
  - intros Hrun Hgood Hcov.
    set (e := Z.min (start + S) (len text)) in Hrun.
    assert (He : start <= e /\ e <= len text) by (unfold e; lia).
    destruct (window_chunk text start e ltac:(lia) ltac:(lia)) as (Hsub & Hwin).
    cbv zeta in Hsub, Hwin.
    set (chunk := strip (py_slice text start e)) in *.
    apply IH in Hrun; [exact Hrun | exact HSO | lia | |].
    + destruct (str_truthy chunk) eqn:Ht; [|exact Hgood].
      apply Forall_app. split; [exact Hgood|].
      constructor; [|constructor].
      split; [now apply str_truthy_nonempty|].
      split; [apply strip_idem | exact Hsub].
    + intros i ch Hi Hlk Hsp.
      destruct (Z.lt_ge_cases (Z.of_nat i) start) as [Hold|Hnew].
      * eapply covered_mono; [|eapply Hcov; eauto].
        intros c Hc. destruct (str_truthy chunk); [apply in_or_app|]; auto.
      * assert (Hie : Z.of_nat i < e).
        { apply lookup_lt_Some in Hlk. unfold e, len. lia. }
        specialize (Hwin i ch ltac:(lia) Hlk Hsp).
        assert (Ht : str_truthy chunk = true).
        { apply str_truthy_nonempty. intros Hnil.
          destruct Hwin as (c & pre & post & [<-|[]] & _ & Hr).
          rewrite Hnil in Hr. simpl in Hr. lia. }
        rewrite Ht. eapply covered_mono; [|exact Hwin].
        intros c [<-|[]]. apply in_or_app. right. now left.
  - intros [= <-] Hgood Hcov. split; [exact Hgood|].
    intros i ch Hlk Hsp. eapply Hcov; eauto.
    apply lookup_lt_Some in Hlk. unfold len in Hge. lia.
Qed.

(** With a valid configuration the loop makes progress and stops. *)
Lemma split_loop_terminates fuel : forall text chunk_size overlap start chunks,
  0 <= overlap < chunk_size -> 0 <= start ->
  (Z.to_nat (len text - start) < fuel)%nat ->
  exists res, split_loop fuel text chunk_size overlap start chunks = Some res.
Proof.
  induction fuel as [|fuel IH]; intros text S O start chunks HSO Hst Hf;
    [lia|]. simpl.
  destruct (Z.ltb_spec start (len text)) as [Hlt|Hge]; [|eauto].
  apply IH; lia.
Qed.

(** More fuel never changes a result already obtained. *)
Lemma split_loop_more_fuel fuel : forall fuel' text chunk_size overlap start chunks res,
  split_loop fuel text chunk_size overlap start chunks = Some res ->
  (fuel <= fuel')%nat ->
  split_loop fuel' text chunk_size overlap start chunks = Some res.
Proof.
  induction fuel as [|fuel IH]; intros fuel' text S O start chunks res;
    simpl; [discriminate|].
  intros Hrun Hle. destruct fuel' as [|fuel']; [lia|]. simpl.
  destruct (start <? len text); [|exact Hrun].
  apply IH; [exact Hrun | lia].
Qed.

(** Without progress the loop condition stays true for ever. *)
Lemma split_loop_diverges fuel : forall text chunk_size overlap start chunks,
  chunk_size <= overlap -> start <= 0 -> text <> [] ->
  split_loop fuel text chunk_size overlap start chunks = None.
Proof.
  induction fuel as [|fuel IH]; intros text S O start chunks HSO Hst Hne;
    [reflexivity|]. simpl.
  assert (Hlen : 0 < len text).
  { unfold len. destruct text; [congruence | simpl; lia]. }
  destruct (Z.ltb_spec start (len text)) as [Hlt|Hge]; [|lia].
  apply IH; [exact HSO | lia | exact Hne].
Qed.

(** C1 (as the code behaves): with [overlap >= chunk_size] and a non-empty
    text, [split_text] raises nothing and never leaves its loop: no amount
    of fuel lets it return, so neither a configuration error nor an empty
    chunk list is produced. *)
Theorem split_text_bad_overlap_never_returns :
  forall (fuel : nat) (text : pystr) (chunk_size overlap : Z),
    overlap >= chunk_size -> text <> [] ->
    split_text fuel text chunk_size overlap = None.
Proof.
  intros fuel text S O HSO Hne. unfold split_text.
  apply split_loop_diverges; [lia | lia | exact Hne].
Qed.

Lemma split_text_bad_overlap_witness :
  split_text 1000 (lit "a") 1 1 = None.
Proof.
  apply (split_text_bad_overlap_never_returns 1000 (lit "a") 1 1);
    [lia | discriminate].
Defined.

(** With progress the chunker returns, covers the text and yields only
    well-formed chunks. *)
Lemma split_text_returns_covering :
  forall (text : pystr) (chunk_size overlap : Z),
    0 <= overlap < chunk_size ->
    exists chunks,
      (forall fuel, (length text < fuel)%nat ->
         split_text fuel text chunk_size overlap = Some chunks) /\
      (forall (i : nat) ch,
         text !! i = Some ch -> isspace ch = false -> covered text chunks i) /\
      Forall (good_chunk text) chunks.
Proof.
  intros text S O HSO.
  destruct (split_loop_terminates (Datatypes.S (length text)) text S O 0 [])
    as (res & Hres); [lia | lia | unfold len; lia |].
  exists res.
  assert (Hall : forall fuel, (length text < fuel)%nat ->
            split_text fuel text S O = Some res).
  { intros fuel Hf.
    destruct (split_loop_terminates fuel text S O 0 [])
      as (res' & Hres'); [lia | lia | unfold len; lia |].
    unfold split_text. rewrite Hres'. f_equal.
    destruct (Nat.le_ge_cases fuel (Datatypes.S (length text))) as [Hle|Hle].
    - apply (split_loop_more_fuel _ _ _ _ _ _ _ _ Hres') in Hle. congruence.
    - apply (split_loop_more_fuel _ _ _ _ _ _ _ _ Hres) in Hle. congruence. }
  split; [exact Hall|].
  destruct (split_loop_invariant (Datatypes.S (length text)) text S O 0 [] res
              ltac:(lia) ltac:(lia) Hres) as (Hgood & Hcov).
  - constructor.
  - intros i ch Hi. exfalso. lia.
  - split; [exact Hcov | exact Hgood].
Qed.

(** C2: for a valid configuration [0 < overlap < chunk_size] the chunker
    returns (any fuel above the text length is enough), every non-blank
    character position of the text lies inside one of the returned chunks,
    and every returned chunk is a non-empty, trimmed substring of the text. *)
Theorem split_text_coverage :
  forall (text : pystr) (chunk_size overlap : Z),
    0 < overlap < chunk_size ->
    exists chunks,
      (forall fuel, (length text < fuel)%nat ->
         split_text fuel text chunk_size overlap = Some chunks) /\
      (forall (i : nat) ch,
         text !! i = Some ch -> isspace ch = false -> covered text chunks i) /\
      Forall (good_chunk text) chunks.
Proof.
  intros text S O HSO. apply split_text_returns_covering. lia.
Qed.

Lemma split_text_coverage_witness :
  exists chunks,
    (forall fuel, (length (lit "ab cd") < fuel)%nat ->
       split_text fuel (lit "ab cd") 3 1 = Some chunks) /\
    (forall (i : nat) ch,
       lit "ab cd" !! i = Some ch -> isspace ch = false ->
       covered (lit "ab cd") chunks i) /\
    Forall (good_chunk (lit "ab cd")) chunks.
Proof. apply (split_text_coverage (lit "ab cd") 3 1). lia. Defined.

(** The chunks of a small text: windows of three characters, one shared. *)
Example split_text_small :
  split_text 6 (lit "ab cd") 3 1 = Some [lit "ab"; lit "cd"; lit "d"].
Proof. reflexivity. Qed.

(** An empty text yields no chunk whatever the configuration. *)
Example split_text_empty chunk_size overlap :
  split_text 1 [] chunk_size overlap = Some [].
Proof. reflexivity. Qed.

End ChunkerFacts.

(** * Searching, replacing and trimming *)

Module SearchFacts.
Import Py PyFacts.
Local Open Scope Z_scope.

Lemma len_app {A} (l k : list A) : len (l ++ k) = len l + len k.
Proof. unfold len. rewrite length_app. lia. Qed.

Lemma len_cons {A} (x : A) (l : list A) : len (x :: l) = 1 + len l.
Proof. unfold len. simpl. lia. Qed.

Lemma len_nonneg {A} (l : list A) : 0 <= len l.
Proof. unfold len. lia. Qed.

Lemma find_at_cons (c x : char) s i :
  find_at [c] (x :: s) i = if (c =? x)%N then i else find_at [c] s (i + 1).
Proof. simpl. rewrite andb_true_r. reflexivity. Qed.

Lemma find_at_nil (c : char) i : find_at [c] [] i = -1.
Proof. reflexivity. Qed.

Lemma rfind_at_cons (c x : char) s i best :
  rfind_at [c] (x :: s) i best =
  rfind_at [c] s (i + 1) (if (c =? x)%N then i else best).
Proof. simpl. rewrite andb_true_r. reflexivity. Qed.

Lemma find_at_absent (c : char) s : forall i, c ∉ s -> find_at [c] s i = -1.
Proof.
  induction s as [|x s IH]; intros i Hn; [reflexivity|].
  apply not_elem_of_cons in Hn as [Hne Hn].
  rewrite find_at_cons. apply N.eqb_neq in Hne. rewrite Hne. now apply IH.
Qed.

Lemma find_at_first (c : char) a r : forall i,
  c ∉ a -> find_at [c] (a ++ c :: r) i = i + len a.
Proof.
  induction a as [|x a IH]; intros i Hn.
  - simpl app. rewrite find_at_cons, N.eqb_refl. unfold len. simpl. lia.
  - apply not_elem_of_cons in Hn as [Hne Hn].
    simpl app. rewrite find_at_cons. apply N.eqb_neq in Hne. rewrite Hne.
    rewrite IH by exact Hn. rewrite len_cons. lia.
Qed.

Lemma rfind_at_absent (c : char) b : forall i best,
  c ∉ b -> rfind_at [c] b i best = best.
Proof.
  induction b as [|x b IH]; intros i best Hn; [reflexivity|].
  apply not_elem_of_cons in Hn as [Hne Hn].
  rewrite rfind_at_cons. apply N.eqb_neq in Hne. rewrite Hne. now apply IH.
Qed.

Lemma rfind_at_last (c : char) r b : forall i best,
  c ∉ b -> rfind_at [c] (r ++ c :: b) i best = i + len r.
Proof.
  induction r as [|x r IH]; intros i best Hn.
  - simpl app. rewrite rfind_at_cons, N.eqb_refl.
    rewrite rfind_at_absent by exact Hn. unfold len. simpl. lia.
  - simpl app. rewrite rfind_at_cons, IH by exact Hn. rewrite len_cons. lia.
Qed.

(** [find] of one character: [-1] exactly when it is absent, else the
    offset of its first occurrence. *)
Lemma find_char_spec (t : pystr) (c : char) :
  ((c ∉ t) /\ find t [c] = -1) \/
  (exists a r, t = a ++ c :: r /\ (c ∉ a) /\ find t [c] = len a).
Proof.
  destruct (decide (c ∈ t)) as [Hin|Hn].
  - right. apply list_elem_of_split_l in Hin as (a & r & -> & Ha).
    exists a, r. repeat split; [exact Ha|].
    unfold find. now rewrite find_at_first.
  - left. split; [exact Hn|]. now apply find_at_absent.
Qed.

(** [rfind] of one character: [-1] exactly when it is absent, else the
    offset of its last occurrence. *)
Lemma rfind_char_spec (t : pystr) (c : char) :
  ((c ∉ t) /\ rfind t [c] = -1) \/
  (exists r b, t = r ++ c :: b /\ (c ∉ b) /\ rfind t [c] = len r).
Proof.
  destruct (decide (c ∈ t)) as [Hin|Hn].
  - right. apply list_elem_of_split_r in Hin as (r & b & -> & Hb).
    exists r, b. repeat split; [exact Hb|].
    unfold rfind. now rewrite rfind_at_last.
  - left. split; [exact Hn|]. now apply rfind_at_absent.
Qed.

(** The slice from the first [c1] through the last [c2]. *)
Lemma py_slice_between (a m b : pystr) (c1 c2 : char) :
  py_slice (a ++ c1 :: m ++ c2 :: b) (len a) (len a + len m + 2)
  = c1 :: m ++ [c2].
Proof.
  rewrite py_slice_in_range.
  - unfold len. rewrite Nat2Z.id, drop_app_length.
    replace (Z.to_nat _) with (length (c1 :: m ++ [c2]))
      by (simpl; rewrite length_app; simpl; lia).
    change (c1 :: m ++ c2 :: b) with ((c1 :: m) ++ [c2] ++ b).
    rewrite app_assoc. now rewrite take_app_length.
  - pose proof (len_nonneg a). pose proof (len_nonneg m). lia.
  - rewrite len_app, len_cons, len_app, len_cons.
    pose proof (len_nonneg b). lia.
Qed.

(** *** [strip] *)

Lemma lstrip_app_nonspace (a r : pystr) (c : char) :
  isspace c = false -> lstrip (a ++ c :: r) = lstrip a ++ c :: r.
Proof.
  intros Hc. induction a as [|x a IH]; simpl.
  - now rewrite Hc.
  - destruct (isspace x); [exact IH | reflexivity].
Qed.

Lemma rstrip_app_nonspace (r b : pystr) (c : char) :
  isspace c = false -> rstrip (r ++ c :: b) = r ++ c :: rstrip b.
Proof.
  intros Hc. unfold rstrip.
  rewrite rev_app_distr. simpl rev. rewrite <- app_assoc. simpl app.
  rewrite lstrip_app_nonspace by exact Hc.
  rewrite rev_app_distr. simpl rev. rewrite rev_involutive.
  now rewrite <- app_assoc.
Qed.

Lemma strip_around (a m b : pystr) (c1 c2 : char) :
  isspace c1 = false -> isspace c2 = false ->
  strip (a ++ c1 :: m ++ c2 :: b) = lstrip a ++ c1 :: m ++ c2 :: rstrip b.
Proof.
  intros H1 H2. unfold strip.
  rewrite lstrip_app_nonspace by exact H1.
  change (lstrip a ++ c1 :: m ++ c2 :: b)
    with (lstrip a ++ (c1 :: m) ++ c2 :: b).
  rewrite app_assoc, rstrip_app_nonspace by exact H2.
  now rewrite <- app_assoc.
Qed.

Lemma lstrip_subset (s : pystr) c : c ∈ lstrip s -> c ∈ s.
Proof.
  destruct (lstrip_split s) as (ws & Hs & _). intros H.
  rewrite Hs. apply elem_of_app. now right.
Qed.

Lemma rstrip_subset (s : pystr) c : c ∈ rstrip s -> c ∈ s.
Proof.
  destruct (rstrip_split s) as (ws & Hs & _). intros H.
  rewrite Hs. apply elem_of_app. now left.
Qed.

Lemma strip_subset (s : pystr) c : c ∈ strip s -> c ∈ s.
Proof. intros H. now apply lstrip_subset, rstrip_subset. Qed.

(** *** [replace] *)

Lemma starts_with_app (old rest : pystr) : starts_with old (old ++ rest) = true.
Proof.
  induction old as [|h t IH]; [reflexivity|].
  simpl. now rewrite N.eqb_refl.
Qed.

Lemma replace_go_skip (old new m s : pystr) :
  replace_go old new (m ++ s) (length m) = replace_go old new s 0.
Proof. induction m as [|x m IH]; [reflexivity | exact IH]. Qed.

(** A match at the front is replaced and scanning resumes behind it. *)
Lemma replace_go_match (h : char) (t new rest : pystr) :
  replace_go (h :: t) new ((h :: t) ++ rest) 0
  = new ++ replace_go (h :: t) new rest 0.
Proof.
  change ((h :: t) ++ rest) with (h :: (t ++ rest)).
  cbn [replace_go].
  change (h :: (t ++ rest)) with ((h :: t) ++ rest).
  rewrite starts_with_app. f_equal.
  replace (length (h :: t) - 1)%nat with (length t) by (simpl; lia).
  apply replace_go_skip.
Qed.

(** No match can start inside a piece that lacks the first character. *)
Lemma replace_go_free (h : char) (t new p s : pystr) :
  h ∉ p ->
  replace_go (h :: t) new (p ++ s) 0 = p ++ replace_go (h :: t) new s 0.
Proof.
  induction p as [|x p IH]; intros Hn; [reflexivity|].
  apply not_elem_of_cons in Hn as [Hne Hn].
  simpl app. cbn [replace_go starts_with].
  apply N.eqb_neq in Hne. rewrite Hne. simpl. f_equal. now apply IH.
Qed.

(** Deleting matches brings in no new character. *)
Lemma replace_go_delete_subset (old s : pystr) c : forall k,
  c ∈ replace_go old [] s k -> c ∈ s.
Proof.
  induction s as [|x s IH]; intros k; cbn [replace_go]; [easy|].
  destruct k as [|k].
  - destruct (starts_with old (x :: s)).
    + simpl. intros H. right. eapply IH, H.
    + intros [->|H]%elem_of_cons; [left | right; eapply IH, H].
  - intros H. right. eapply IH, H.
Qed.

Lemma replace_match (old new rest : pystr) h t :
  old = h :: t -> replace (old ++ rest) old new = new ++ replace rest old new.
Proof. intros ->. apply replace_go_match. Qed.

Lemma replace_free (old new p s : pystr) h t :
  old = h :: t -> h ∉ p -> replace (p ++ s) old new = p ++ replace s old new.
Proof. intros ->. apply replace_go_free. Qed.

Lemma replace_delete_subset (old s : pystr) h t c :
  old = h :: t -> c ∈ replace s old [] -> c ∈ s.
Proof. intros ->. apply replace_go_delete_subset. Qed.

End SearchFacts.

(** * The JSON decoder *)

Module JsonFacts.
Import Py Json.
Local Open Scope N_scope.

Lemma scan_once_lbrace depth (r : pystr) :
  scan_once (S depth) (c_lbrace :: r) = JSONObject (scan_once depth) r.
Proof. reflexivity. Qed.

(** The member loop only ever returns a dict. *)
Lemma object_members_object scan fuel : forall s acc v r,
  object_members scan fuel s acc = Ok (v, r) -> exists d, v = JObject d.
Proof.
  induction fuel as [|fuel IH]; intros s acc v r; cbn [object_members];
    [discriminate|].
  repeat case_match; try discriminate.
  - intros [= <- <-]. eauto.
  - apply IH.
Qed.

Lemma JSONObject_object scan (s : pystr) v r :
  JSONObject scan s = Ok (v, r) -> exists d, v = JObject d.
Proof.
  unfold JSONObject. repeat case_match; try discriminate.
  - intros [= <- <-]. eauto.
  - apply object_members_object.
Qed.

(** A text that opens with a brace decodes to a dict, if it decodes. *)
Lemma loads_object (r : pystr) v :
  loads (c_lbrace :: r) = Ok v -> exists d, v = JObject d.
Proof.
  unfold loads.
  change (starts_with [65279] (c_lbrace :: r)) with false.
  change (skip_ws (c_lbrace :: r)) with (c_lbrace :: r).
  cbv iota. rewrite scan_once_lbrace.
  destruct (JSONObject _ r) as [[v' r']|e] eqn:E; [|discriminate].
  destruct (skip_ws r'); [|discriminate].
  intros [= <-]. eapply JSONObject_object, E.
Qed.

End JsonFacts.

(** * Decoding a text that continues behind the value *)

Module JsonPrefixFacts.
Import Py PyFacts SearchFacts Json JsonFacts.
Local Open Scope N_scope.

Lemma skip_ws_app_cons (r x : pystr) c r' :
  skip_ws r = c :: r' -> skip_ws (r ++ x) = c :: r' ++ x.
Proof.
  induction r as [|d r IH]; simpl; [discriminate|].
  destruct (is_json_ws d); [exact IH|]. now intros [= <- <-].
Qed.

Lemma skip_ws_app_nil (r x : pystr) :
  skip_ws r = [] -> skip_ws (r ++ x) = skip_ws x.
Proof.
  induction r as [|d r IH]; simpl; [reflexivity|].
  destruct (is_json_ws d); [exact IH | discriminate].
Qed.

Lemma skip_ws_head (r : pystr) c r' :
  skip_ws r = c :: r' -> is_json_ws c = false.
Proof.
  induction r as [|d r IH]; simpl; [discriminate|].
  destruct (is_json_ws d) eqn:E; [exact IH|]. now intros [= <- _].
Qed.

(** A string literal is closed by its quote: what follows is not read. *)
Lemma scanstring_app (n : nat) : forall (s acc str r x : pystr),
  (length s <= n)%nat ->
  scanstring s acc = Ok (str, r) -> scanstring (s ++ x) acc = Ok (str, r ++ x).
Proof.
  induction n as [|n IH]; intros s acc str r x Hlen.
  { destruct s; [discriminate | simpl in Hlen; lia]. }
  destruct s as [|c s1]; [discriminate|]. simpl in Hlen.
  cbn [scanstring app].
  destruct (c =? c_quote); [now intros [= <- <-]|].
  destruct (c =? c_backslash).
  2:{ destruct (c <? 32); [discriminate|]. apply IH. lia. }
  destruct s1 as [|e s2]; [discriminate|]. simpl in Hlen. cbn [app].
  destruct (e =? 117).
  2:{ destruct (backslash_table e); [|discriminate]. apply IH. lia. }
  destruct s2 as [|h1 [|h2 [|h3 [|h4 s3]]]]; try discriminate.
  simpl in Hlen. cbn [app].
  destruct (hex4 h1 h2 h3 h4) as [uni|]; [|discriminate].
  destruct s3 as [|b [|u s4]].
  - discriminate.
  - (* one character left: it is the closing quote *)
    intros H. cbn [app]. destruct x as [|u x'].
    + now rewrite app_nil_r.
    + destruct (is_high_surrogate uni && (b =? c_backslash) && (u =? 117)) eqn:E.
      * apply andb_true_iff in E as [E _]. apply andb_true_iff in E as [_ E].
        apply N.eqb_eq in E. subst b. discriminate H.
      * apply (IH [b] (uni :: acc) str r (u :: x')); [simpl; lia | exact H].
  - simpl in Hlen. cbn [app].
    destruct (is_high_surrogate uni && (b =? c_backslash) && (u =? 117)).
    + destruct s4 as [|k1 [|k2 [|k3 [|k4 s5]]]]; try discriminate.
      simpl in Hlen. cbn [app].
      destruct (hex4 k1 k2 k3 k4) as [uni2|]; [|discriminate].
      destruct (is_low_surrogate uni2).
      * apply IH. lia.
      * apply (IH (b :: u :: k1 :: k2 :: k3 :: k4 :: s5)). simpl; lia.
    + apply (IH (b :: u :: s4)). simpl; lia.
Qed.

(** *** Numbers *)

Lemma span_digits_app (s x ds r : pystr) c :
  span_digits s = (ds, c :: r) -> span_digits (s ++ x) = (ds, c :: r ++ x).
Proof.
  revert ds. induction s as [|d s IH]; intros ds; [discriminate|].
  cbn [span_digits app]. destruct (is_digit d).
  - destruct (span_digits s) as [ds' r'] eqn:E. intros [= <- ->].
    now rewrite (IH ds' eq_refl).
  - now intros [= <- <- <-].
Qed.

Lemma terminator_cases c :
  is_terminator c = true ->
  c = 32 \/ c = 9 \/ c = 10 \/ c = 13 \/ c = 44 \/ c = 125 \/ c = 93.
Proof.
  unfold is_terminator, is_json_ws, c_comma, c_rbrace, c_rbracket.
  rewrite !orb_true_iff, !N.eqb_eq. tauto.
Qed.

Lemma terminator_not_digit c : is_terminator c = true -> is_digit c = false.
Proof.
  intros H%terminator_cases. unfold is_digit.
  apply andb_false_iff. rewrite !N.leb_gt. lia.
Qed.

Lemma terminator_not_dot c : is_terminator c = true -> (c =? c_dot) = false.
Proof. intros H%terminator_cases. apply N.eqb_neq. unfold c_dot. lia. Qed.

Lemma terminator_not_e c :
  is_terminator c = true -> (c =? 101) || (c =? 69) = false.
Proof.
  intros H%terminator_cases. apply orb_false_iff. rewrite !N.eqb_neq. lia.
Qed.

Lemma number_integer_app (s x ds r : pystr) c :
  number_integer s = Some (ds, c :: r) ->
  number_integer (s ++ x) = Some (ds, c :: r ++ x).
Proof.
  destruct s as [|d t]; [discriminate|]. cbn [number_integer app].
  destruct (d =? 48); [now intros [= <- ->]|].
  destruct (is_digit d); [|discriminate].
  destruct (span_digits t) as [ds' r'] eqn:E. intros [= <- ->].
  now rewrite (span_digits_app _ _ _ _ _ E).
Qed.

Lemma number_fraction_app (s x fs r : pystr) c :
  number_fraction s = (fs, c :: r) -> (c =? c_dot) = false ->
  number_fraction (s ++ x) = (fs, c :: r ++ x).
Proof.
  destruct s as [|p [|d t]]; [discriminate| |].
  - intros [= <- <- <-] Hc. cbn [app number_fraction].
    destruct x as [|d x]; [reflexivity|].
    now rewrite Hc.
  - cbn [number_fraction app]. destruct ((p =? c_dot) && is_digit d).
    + destruct (span_digits (d :: t)) as [fs' r'] eqn:E. intros [= <- ->] _.
      change (d :: t ++ x) with ((d :: t) ++ x).
      now rewrite (span_digits_app _ _ _ _ _ E).
    + now intros [= <- <- <-].
Qed.

Lemma number_exponent_app (s x es r : pystr) c :
  number_exponent s = (es, c :: r) -> is_terminator c = true ->
  number_exponent (s ++ x) = (es, c :: r ++ x).
Proof.
  destruct s as [|e t]; [discriminate|]. cbn [number_exponent app].
  destruct ((e =? 101) || (e =? 69)) eqn:Ee.
  2:{ now intros [= <- <- <-]. }
  intros H Hc.
  assert (Hsign : forall t' sg,
            match t with
            | g :: t1 => if (g =? c_plus) || (g =? c_minus) then ([g], t1) else ([], t)
            | [] => ([], t)
            end = (sg, t') ->
            forall ds r', span_digits t' = (ds, c :: r') ->
            match t ++ x with
            | g :: t1 => if (g =? c_plus) || (g =? c_minus) then ([g], t1) else ([], t ++ x)
            | [] => ([], t ++ x)
            end = (sg, t' ++ x)).
  { intros t' sg Hs ds r' Hd. destruct t as [|g t1].
    - injection Hs as <- <-. discriminate Hd.
    - cbn [app]. destruct ((g =? c_plus) || (g =? c_minus)).
      + now injection Hs as <- <-.
      + now injection Hs as <- <-. }
  destruct (match t with
            | g :: t1 => if (g =? c_plus) || (g =? c_minus) then ([g], t1) else ([], t)
            | [] => ([], t)
            end) as [sg t'] eqn:Es.
  destruct (span_digits t') as [ds r'] eqn:Ed.
  destruct ds as [|d0 ds].
  - injection H as <- <- <-. rewrite (terminator_not_e _ Hc) in Ee. discriminate.
  - injection H as <- ->.
    rewrite (Hsign t' sg eq_refl _ _ Ed).
    now rewrite (span_digits_app _ _ _ _ _ Ed).
Qed.

Lemma number_sign_app (s x sg s1 : pystr) c :
  number_sign s = (sg, c :: s1) -> number_sign (s ++ x) = (sg, c :: s1 ++ x).
Proof.
  destruct s as [|d t]; [discriminate|]. cbn [number_sign app].
  destruct (d =? c_minus).
  - now intros [= <- ->].
  - now intros [= <- <- <-].
Qed.

Lemma number_exponent_head (t es r2 : pystr) c1 :
  number_exponent (c1 :: t) = (es, r2) ->
  (es = [] /\ r2 = c1 :: t) \/ (c1 =? 101) || (c1 =? 69) = true.
Proof.
  cbn [number_exponent]. destruct ((c1 =? 101) || (c1 =? 69)); [now right|].
  intros [= <- <-]. now left.
Qed.

(** A number followed by a terminator is the same number whatever comes
    after the terminator. *)
Lemma match_number_app (s x r : pystr) v c :
  match_number s = Some (v, c :: r) -> is_terminator c = true ->
  match_number (s ++ x) = Some (v, c :: r ++ x).
Proof.
  unfold match_number. intros H Hc.
  destruct (number_sign s) as [sg s1] eqn:Es.
  destruct (number_integer s1) as [[ds r0]|] eqn:Ei; [|discriminate].
  destruct (number_fraction r0) as [fs r1] eqn:Ef.
  destruct (number_exponent r1) as [es r2] eqn:Ee.
  assert (r2 = c :: r) as ->.
  { destruct fs, es; now injection H. }
  assert (exists c1 r1', r1 = c1 :: r1') as (c1 & r1' & ->).
  { destruct r1; [discriminate Ee | eauto]. }
  assert (exists c0 r0', r0 = c0 :: r0') as (c0 & r0' & ->).
  { destruct r0; [discriminate Ef | eauto]. }
  assert (exists cs s1', s1 = cs :: s1') as (cs & s1' & ->).
  { destruct s1; [discriminate Ei | eauto]. }
  assert (Hc1 : (c1 =? c_dot) = false).
  { destruct (number_exponent_head _ _ _ _ Ee) as [[_ [= -> _]]|He].
    - now apply terminator_not_dot.
    - apply orb_true_iff in He. rewrite !N.eqb_eq in He.
      apply N.eqb_neq. unfold c_dot. lia. }
  rewrite (number_sign_app _ x _ _ _ Es).
  change (cs :: s1' ++ x) with ((cs :: s1') ++ x).
  rewrite (number_integer_app _ x _ _ _ Ei).
  change (c0 :: r0' ++ x) with ((c0 :: r0') ++ x).
  rewrite (number_fraction_app _ x _ _ _ Ef Hc1).
  change (c1 :: r1' ++ x) with ((c1 :: r1') ++ x).
  rewrite (number_exponent_app _ x _ _ _ Ee Hc).
  destruct fs, es; now injection H as <-.
Qed.

(** *** Containers *)

Lemma skip_ws_terminator (r r6 : pystr) d :
  skip_ws r = d :: r6 -> is_terminator d = true ->
  exists c r', r = c :: r' /\ is_terminator c = true.
Proof.
  destruct r as [|c r']; [discriminate|]. cbn [skip_ws].
  destruct (is_json_ws c) eqn:E.
  - intros _ _. exists c, r'. split; [reflexivity|].
    unfold is_terminator. now rewrite E.
  - intros [= <- <-] Hd. eauto.
Qed.

Section ContainersApp.
Variables scan scan' : pystr -> result (json * pystr).
Hypothesis scan_nil : forall res, scan [] <> Ok res.
Hypothesis scan_app : forall s x v c r,
  scan s = Ok (v, c :: r) -> is_terminator c = true ->
  scan' (s ++ x) = Ok (v, c :: r ++ x).

Lemma object_members_app fuel : forall fuel' s acc v r x,
  (fuel <= fuel')%nat ->
  object_members scan fuel s acc = Ok (v, r) ->
  object_members scan' fuel' (s ++ x) acc = Ok (v, r ++ x).
Proof.
  induction fuel as [|fuel IH]; intros fuel' s acc v r x Hle; [discriminate|].
  destruct fuel' as [|fuel']; [lia|]. cbn [object_members].
  destruct (scanstring s []) as [[key r1]|e] eqn:Ek; [|discriminate].
  rewrite (scanstring_app _ _ _ _ _ x (Nat.le_refl _) Ek).
  destruct (skip_ws r1) as [|c r2] eqn:E1; [discriminate|].
  rewrite (skip_ws_app_cons _ x _ _ E1).
  destruct (c =? c_colon); [|discriminate].
  destruct (scan (skip_ws r2)) as [[value r4]|e] eqn:Ev; [|discriminate].
  destruct (skip_ws r2) as [|c3 r3] eqn:E2; [now apply scan_nil in Ev|].
  rewrite (skip_ws_app_cons _ x _ _ E2).
  destruct (skip_ws r4) as [|d r6] eqn:E4; [discriminate|].
  assert (Hd : (d =? c_rbrace) || (d =? c_comma) = true ->
               is_terminator d = true).
  { unfold is_terminator. rewrite !orb_true_iff. tauto. }
  destruct (d =? c_rbrace) eqn:Erb.
  - destruct (skip_ws_terminator _ _ _ E4 (Hd eq_refl)) as (c4 & r4' & -> & Hc4).
    change (c3 :: r3 ++ x) with ((c3 :: r3) ++ x).
    rewrite (scan_app _ x _ _ _ Ev Hc4).
    change (c4 :: r4' ++ x) with ((c4 :: r4') ++ x).
    rewrite (skip_ws_app_cons _ x _ _ E4), Erb. now intros [= <- <-].
  - destruct (d =? c_comma) eqn:Ecm; [|discriminate].
    destruct (skip_ws_terminator _ _ _ E4 (Hd eq_refl)) as (c4 & r4' & -> & Hc4).
    change (c3 :: r3 ++ x) with ((c3 :: r3) ++ x).
    rewrite (scan_app _ x _ _ _ Ev Hc4).
    change (c4 :: r4' ++ x) with ((c4 :: r4') ++ x).
    rewrite (skip_ws_app_cons _ x _ _ E4), Erb, Ecm.
    destruct (skip_ws r6) as [|q r7] eqn:E6; [discriminate|].
    rewrite (skip_ws_app_cons _ x _ _ E6).
    destruct (q =? c_quote); [|discriminate].
    apply IH. lia.
Qed.

Lemma JSONObject_app (s x : pystr) v r :
  JSONObject scan s = Ok (v, r) -> JSONObject scan' (s ++ x) = Ok (v, r ++ x).
Proof.
  unfold JSONObject.
  destruct (skip_ws s) as [|c r1] eqn:E; [discriminate|].
  rewrite (skip_ws_app_cons _ x _ _ E).
  destruct (c =? c_rbrace); [now intros [= <- <-]|].
  destruct (c =? c_quote); [|discriminate].
  apply object_members_app. rewrite length_app. lia.
Qed.

Lemma array_items_app fuel : forall fuel' s acc v r x,
  (fuel <= fuel')%nat ->
  array_items scan fuel s acc = Ok (v, r) ->
  array_items scan' fuel' (s ++ x) acc = Ok (v, r ++ x).
Proof.
  induction fuel as [|fuel IH]; intros fuel' s acc v r x Hle; [discriminate|].
  destruct fuel' as [|fuel']; [lia|]. cbn [array_items].
  destruct (scan s) as [[value r1]|e] eqn:Ev; [|discriminate].
  destruct (skip_ws r1) as [|d r2] eqn:E1; [discriminate|].
  assert (Hd : (d =? c_rbracket) || (d =? c_comma) = true ->
               is_terminator d = true).
  { unfold is_terminator. rewrite !orb_true_iff. tauto. }
  destruct (d =? c_rbracket) eqn:Erb.
  - destruct (skip_ws_terminator _ _ _ E1 (Hd eq_refl)) as (c1 & r1' & -> & Hc1).
    rewrite (scan_app _ x _ _ _ Ev Hc1).
    change (c1 :: r1' ++ x) with ((c1 :: r1') ++ x).
    rewrite (skip_ws_app_cons _ x _ _ E1), Erb. now intros [= <- <-].
  - destruct (d =? c_comma) eqn:Ecm; [|discriminate].
    destruct (skip_ws_terminator _ _ _ E1 (Hd eq_refl)) as (c1 & r1' & -> & Hc1).
    rewrite (scan_app _ x _ _ _ Ev Hc1).
    change (c1 :: r1' ++ x) with ((c1 :: r1') ++ x).
    rewrite (skip_ws_app_cons _ x _ _ E1), Erb, Ecm.
    destruct (skip_ws r2) as [|c3 r3] eqn:E2.
    + intros H. exfalso. destruct fuel; [discriminate H|].
      cbn [array_items] in H.
      destruct (scan []) as [res|e];
        [exact (scan_nil res eq_refl) | discriminate H].
    + rewrite (skip_ws_app_cons _ x _ _ E2).
      change (c3 :: r3 ++ x) with ((c3 :: r3) ++ x). apply IH. lia.
Qed.

Lemma JSONArray_app (s x : pystr) v r :
  JSONArray scan s = Ok (v, r) -> JSONArray scan' (s ++ x) = Ok (v, r ++ x).
Proof.
  unfold JSONArray.
  destruct (skip_ws s) as [|c r1] eqn:E.
  - intros H. exfalso. destruct (length s); [discriminate H|].
    cbn [array_items] in H.
    destruct (scan []) as [res|e];
      [exact (scan_nil res eq_refl) | discriminate H].
  - rewrite (skip_ws_app_cons _ x _ _ E).
    destruct (c =? c_rbracket); [now intros [= <- <-]|].
    intros H. change (c :: r1 ++ x) with ((c :: r1) ++ x).
    eapply array_items_app; [|exact H]. rewrite length_app. lia.
Qed.

End ContainersApp.

(** *** Atoms *)

Lemma starts_with_true (p s : pystr) :
  starts_with p s = true -> s = p ++ drop (length p) s.
Proof.
  revert s. induction p as [|a p IH]; intros s; [reflexivity|].
  destruct s as [|b s]; [discriminate|]. cbn [starts_with].
  intros [Hab Hp]%andb_true_iff. apply N.eqb_eq in Hab as ->.
  cbn. f_equal. now apply IH.
Qed.

Lemma match_number_head (c0 : char) (s0 : pystr) res :
  match_number (c0 :: s0) = Some res -> (c0 =? c_minus) || is_digit c0 = true.
Proof.
  unfold match_number. cbn [number_sign]. intros H.
  destruct (c0 =? c_minus); [reflexivity|]. cbn [number_integer orb] in *.
  destruct (c0 =? 48) eqn:E.
  - apply N.eqb_eq in E as ->. reflexivity.
  - destruct (is_digit c0); [reflexivity | discriminate H].
Qed.

(** The atoms that are words: each is recognised by its own characters. *)
Lemma scan_atom_word (p rest x : pystr) v :
  In (p, v) [(lit "null", JNull); (lit "true", JBool true);
             (lit "false", JBool false); (lit "NaN", JFloat (lit "NaN"));
             (lit "Infinity", JFloat (lit "Infinity"));
             (lit "-Infinity", JFloat (lit "-Infinity"))] ->
  scan_atom (p ++ rest) = Ok (v, rest).
Proof.
  cbn [In]. intros [[= <- <-]|[[= <- <-]|[[= <- <-]|[[= <- <-]|[[= <- <-]|[[= <- <-]|[]]]]]]];
    reflexivity.
Qed.

Lemma scan_atom_cases (s : pystr) v r :
  scan_atom s = Ok (v, r) ->
  (exists p, s = p ++ r /\
     In (p, v) [(lit "null", JNull); (lit "true", JBool true);
                (lit "false", JBool false); (lit "NaN", JFloat (lit "NaN"));
                (lit "Infinity", JFloat (lit "Infinity"));
                (lit "-Infinity", JFloat (lit "-Infinity"))]) \/
  match_number s = Some (v, r).
Proof.
  unfold scan_atom.
  destruct (starts_with (lit "null") s) eqn:E1.
  { intros [= <- <-]. left. exists (lit "null").
    split; [exact (starts_with_true _ _ E1) | cbn; tauto]. }
  destruct (starts_with (lit "true") s) eqn:E2.
  { intros [= <- <-]. left. exists (lit "true").
    split; [exact (starts_with_true _ _ E2) | cbn; tauto]. }
  destruct (starts_with (lit "false") s) eqn:E3.
  { intros [= <- <-]. left. exists (lit "false").
    split; [exact (starts_with_true _ _ E3) | cbn; tauto]. }
  destruct (match_number s) as [res|]; [intros [= ->]; now right|].
  destruct (starts_with (lit "NaN") s) eqn:E4.
  { intros [= <- <-]. left. exists (lit "NaN").
    split; [exact (starts_with_true _ _ E4) | cbn; tauto]. }
  destruct (starts_with (lit "Infinity") s) eqn:E5.
  { intros [= <- <-]. left. exists (lit "Infinity").
    split; [exact (starts_with_true _ _ E5) | cbn; tauto]. }
  destruct (starts_with (lit "-Infinity") s) eqn:E6; [|discriminate].
  intros [= <- <-]. left. exists (lit "-Infinity").
  split; [exact (starts_with_true _ _ E6) | cbn; tauto].
Qed.

Lemma scan_atom_app (s x r : pystr) v c :
  scan_atom s = Ok (v, c :: r) -> is_terminator c = true ->
  scan_atom (s ++ x) = Ok (v, c :: r ++ x).
Proof.
  intros H Hc. destruct (scan_atom_cases _ _ _ H) as [(p & -> & Hp)|Hn].
  - rewrite <- app_assoc. now apply scan_atom_word.
  - pose proof (match_number_app _ x _ _ _ Hn Hc) as Hx.
    destruct s as [|c0 s0]; [discriminate Hn|].
    pose proof (match_number_head _ _ _ Hn) as Hh.
    unfold scan_atom. rewrite Hx.
    assert (Hw : forall k t, (k =? c_minus) || is_digit k = false ->
                 starts_with (k :: t) ((c0 :: s0) ++ x) = false).
    { intros k t Hk. cbn [app starts_with].
      destruct (N.eqb_spec k c0) as [->|]; [congruence | reflexivity]. }
    change (lit "null") with (110 :: lit "ull").
    change (lit "true") with (116 :: lit "rue").
    change (lit "false") with (102 :: lit "alse").
    now rewrite !Hw.
Qed.

(** *** Values *)

Lemma scan_once_nil depth res : scan_once depth [] <> Ok res.
Proof. destruct depth; discriminate. Qed.

(** A value followed by a terminator is decoded alike whatever comes
    after the terminator, at any larger depth bound. *)
Lemma scan_once_app depth : forall depth' (s x r : pystr) v c,
  (depth <= depth')%nat ->
  scan_once depth s = Ok (v, c :: r) -> is_terminator c = true ->
  scan_once depth' (s ++ x) = Ok (v, c :: r ++ x).
Proof.
  induction depth as [|depth IH]; intros depth' s x r v c Hle; [discriminate|].
  destruct depth' as [|depth']; [lia|].
  destruct s as [|c0 s0]; [discriminate|]. cbn [scan_once app].
  destruct (c0 =? c_quote).
  { destruct (scanstring s0 []) as [[str r']|e] eqn:E; [|discriminate].
    intros [= <- ->] _.
    now rewrite (scanstring_app _ _ _ _ _ x (Nat.le_refl _) E). }
  destruct (c0 =? c_lbrace).
  { intros H _. change (c :: r ++ x) with ((c :: r) ++ x).
    apply (JSONObject_app (scan_once depth)); [apply scan_once_nil | | exact H].
    intros. apply (IH depth'); [lia | assumption..]. }
  destruct (c0 =? c_lbracket).
  { intros H _. change (c :: r ++ x) with ((c :: r) ++ x).
    apply (JSONArray_app (scan_once depth)); [apply scan_once_nil | | exact H].
    intros. apply (IH depth'); [lia | assumption..]. }
  intros H Hc. change (c0 :: s0 ++ x) with ((c0 :: s0) ++ x).
  now apply scan_atom_app.
Qed.

(** An object is closed by its brace: what follows is not read. *)
Lemma scan_once_object_app depth depth' (s x r : pystr) v :
  (depth <= depth')%nat ->
  scan_once depth (c_lbrace :: s) = Ok (v, r) ->
  scan_once depth' (c_lbrace :: s ++ x) = Ok (v, r ++ x).
Proof.
  intros Hle. destruct depth as [|depth]; [discriminate|].
  destruct depth' as [|depth']; [lia|]. rewrite !scan_once_lbrace.
  intros H. apply (JSONObject_app (scan_once depth)); [apply scan_once_nil | | exact H].
  intros. apply (scan_once_app depth); [lia | assumption..].
Qed.

(** Data behind a complete object makes the whole text undecodable. *)
Lemma loads_extra_data (s x : pystr) v :
  loads (c_lbrace :: s) = Ok v -> skip_ws x <> [] ->
  loads (c_lbrace :: s ++ x) = Error ExtraData.
Proof.
  unfold loads.
  change (starts_with [65279] (c_lbrace :: s)) with false.
  change (starts_with [65279] (c_lbrace :: s ++ x)) with false.
  change (skip_ws (c_lbrace :: s)) with (c_lbrace :: s).
  change (skip_ws (c_lbrace :: s ++ x)) with (c_lbrace :: s ++ x).
  cbv iota.
  destruct (scan_once _ (c_lbrace :: s)) as [[obj r]|e] eqn:E; [|discriminate].
  destruct (skip_ws r) eqn:Er; [|discriminate]. intros _ Hx.
  assert (Hle : (S (length (c_lbrace :: s))
                 <= S (length (c_lbrace :: s ++ x)))%nat)
    by (simpl; rewrite length_app; lia).
  rewrite (scan_once_object_app _ _ _ x _ _ Hle E).
  rewrite (skip_ws_app_nil _ _ Er).
  destruct (skip_ws x); [congruence | reflexivity].
Qed.

End JsonPrefixFacts.

(** * The tool-call extractor *)

Module ExtractFacts.
Import Py PyFacts SearchFacts Json JsonFacts JsonPrefixFacts Exn Client.
Local Open Scope Z_scope.

Lemma braces_not_space : isspace c_lbrace = false /\ isspace c_rbrace = false.
Proof. split; reflexivity. Qed.

(** The extractor decodes what lies between the first opening brace and
    the last closing brace of the cleaned text. *)
Lemma extract_between (text a m b : pystr) :
  strip_fences text = a ++ c_lbrace :: m ++ c_rbrace :: b ->
  c_lbrace ∉ a -> c_rbrace ∉ b ->
  _extract_tool_call text = Return (or_none (loads (c_lbrace :: m ++ [c_rbrace]))).
Proof.
  intros Ht Ha Hb. unfold _extract_tool_call, extract_body.
  rewrite Ht.
  assert (Hf : find (a ++ c_lbrace :: m ++ c_rbrace :: b) [c_lbrace] = len a).
  { unfold find. now rewrite find_at_first. }
  assert (Hr : rfind (a ++ c_lbrace :: m ++ c_rbrace :: b) [c_rbrace]
               = len a + len m + 1).
  { unfold rfind.
    change (a ++ c_lbrace :: m ++ c_rbrace :: b)
      with (a ++ (c_lbrace :: m) ++ c_rbrace :: b).
    rewrite app_assoc, rfind_at_last by exact Hb.
    rewrite len_app, len_cons. lia. }
  rewrite Hf, Hr.
  replace (len a + len m + 1 + 1) with (len a + len m + 2) by lia.
  pose proof (len_nonneg a). pose proof (len_nonneg m).
  destruct (Z.eqb_spec (len a) (-1)); [lia|].
  destruct (Z.gtb_spec (len a + len m + 2) (len a)); [|lia].
  cbn [negb andb]. rewrite py_slice_between.
  destruct (loads _); reflexivity.
Qed.

(** Whenever the extractor reaches [json.loads], the text it passes opens
    with a brace. *)
Lemma extract_body_cases (text : pystr) :
  extract_body text = Return JNull \/
  exists r, extract_body text =
            match loads (c_lbrace :: r) with
            | Ok v => Return v
            | Error e => Raise (exception_of_decode_error e)
            end.
Proof.
  unfold extract_body. generalize (strip_fences text) as t. intros t.
  destruct (find_char_spec t c_lbrace) as [(_ & Hf)|(a & r & Ht & Ha & Hf)].
  { rewrite Hf. now left. }
  destruct (rfind_char_spec t c_rbrace) as [(_ & Hr)|(r' & b & Ht' & Hb & Hr)].
  { rewrite Hf, Hr. pose proof (len_nonneg a).
    destruct (Z.gtb_spec (-1 + 1) (len a)); [lia|].
    rewrite andb_false_r. now left. }
  rewrite Hf, Hr.
  destruct (Z.gtb_spec (len r' + 1) (len a)) as [Hgt|Hle];
    [|rewrite andb_false_r; now left].
  destruct (Z.eqb_spec (len a) (-1)); [pose proof (len_nonneg a); lia|].
  cbn [negb andb]. right.
  assert (Hlen : len r' + 1 <= len t).
  { rewrite Ht', len_app, len_cons. pose proof (len_nonneg b). lia. }
  rewrite py_slice_in_range by (pose proof (len_nonneg a); lia).
  destruct (Z.to_nat (len r' + 1 - len a)) as [|k] eqn:Hk; [lia|].
  rewrite Ht. unfold len. rewrite Nat2Z.id, drop_app_length.
  simpl take. eauto.
Qed.

Lemma extract_returns (text : pystr) :
  exists v, _extract_tool_call text = Return v /\
            (v = JNull \/ exists d, v = JObject d).
Proof.
  unfold _extract_tool_call.
  destruct (extract_body_cases text) as [->|(r & ->)]; [eauto|].
  destruct (loads (c_lbrace :: r)) as [v|e] eqn:E.
  - exists v. split; [reflexivity|]. right. eapply loads_object, E.
  - exists JNull. split; [|now left]. now destruct e.
Qed.

Lemma fence_json_head : fence_json = c_backtick :: lit "``json".
Proof. reflexivity. Qed.

Lemma fence_head : fence = c_backtick :: lit "``".
Proof. reflexivity. Qed.

Lemma strip_fences_subset (text : pystr) c : c ∈ strip_fences text -> c ∈ text.
Proof.
  unfold strip_fences. intros H%strip_subset.
  apply (replace_delete_subset _ _ _ _ _ fence_head) in H.
  now apply (replace_delete_subset _ _ _ _ _ fence_json_head) in H.
Qed.

Lemma extract_no_brace (text : pystr) :
  c_lbrace ∉ text -> _extract_tool_call text = Return JNull.
Proof.
  intros Hn. unfold _extract_tool_call, extract_body.
  destruct (find_char_spec (strip_fences text) c_lbrace)
    as [(_ & ->)|(a & r & Ht & _)]; [reflexivity|].
  exfalso. apply Hn, strip_fences_subset. rewrite Ht.
  apply elem_of_app. right. now left.
Qed.

(** Cleaning a fenced object that stands in prose leaves the object
    between two pieces made of the prose, newlines and backticks. *)
Lemma strip_fences_fenced (before after obj : pystr) :
  c_backtick ∉ before -> c_backtick ∉ obj ->
  exists a b,
    strip_fences (before ++ (fence_json ++ [c_newline] ++ (c_lbrace :: obj
                             ++ [c_rbrace]) ++ [c_newline] ++ fence) ++ after)
    = a ++ c_lbrace :: obj ++ c_rbrace :: b /\
    (forall c, c ∈ a -> c ∈ before \/ c = c_newline) /\
    (forall c, c ∈ b -> c ∈ after \/ c = c_newline \/ c = c_backtick).
Proof.
  intros Hb Ho.
  set (mid := [c_newline] ++ (c_lbrace :: obj ++ [c_rbrace]) ++ [c_newline]).
  assert (Hmid : c_backtick ∉ mid).
  { unfold mid.
    repeat first [rewrite not_elem_of_app | rewrite not_elem_of_cons].
    repeat split;
      first [exact Ho | apply not_elem_of_nil | intros [=]]. }
  set (R1 := replace (fence ++ after) fence_json []).
  set (R2 := replace R1 fence []).
  assert (H1 : replace (before ++ (fence_json ++ [c_newline] ++ (c_lbrace :: obj
                 ++ [c_rbrace]) ++ [c_newline] ++ fence) ++ after) fence_json []
               = before ++ mid ++ R1).
  { rewrite (replace_free _ _ _ _ _ _ fence_json_head Hb). f_equal.
    rewrite <- app_assoc.
    rewrite (replace_match _ _ _ _ _ fence_json_head), app_nil_l.
    replace (([c_newline] ++ (c_lbrace :: obj ++ [c_rbrace]) ++ [c_newline] ++ fence) ++ after)
      with (mid ++ fence ++ after)
      by (unfold mid; now rewrite <- !app_assoc).
    now rewrite (replace_free _ _ _ _ _ _ fence_json_head Hmid). }
  assert (H2 : replace (before ++ mid ++ R1) fence [] = before ++ mid ++ R2).
  { rewrite (replace_free _ _ _ _ _ _ fence_head Hb).
    now rewrite (replace_free _ _ _ _ _ _ fence_head Hmid). }
  unfold strip_fences. rewrite H1, H2.
  replace (before ++ mid ++ R2)
    with ((before ++ [c_newline]) ++ c_lbrace :: obj ++ c_rbrace :: [c_newline] ++ R2)
    by (unfold mid; rewrite <- ?app_assoc; simpl; rewrite <- ?app_assoc;
        reflexivity).
  rewrite strip_around by reflexivity.
  eexists _, _. split; [reflexivity|]. split.
  - intros c Hc%lstrip_subset. apply elem_of_app in Hc as [Hc|Hc]; [now left|].
    right. now apply list_elem_of_singleton in Hc.
  - intros c Hc%rstrip_subset. apply elem_of_app in Hc as [Hc|Hc].
    { right. left. now apply list_elem_of_singleton in Hc. }
    apply (replace_delete_subset _ _ _ _ _ fence_head) in Hc.
    apply (replace_delete_subset _ _ _ _ _ fence_json_head) in Hc.
    apply elem_of_app in Hc as [Hc|Hc]; [|now left].
    right. right.
    change fence with [c_backtick; c_backtick; c_backtick] in Hc.
    rewrite !elem_of_cons in Hc. destruct Hc as [?|[?|[?|Hc]]]; try assumption.
    now apply elem_of_nil in Hc.
Qed.

Lemma extract_null_unless_between (text : pystr) :
  (~ exists a m b, strip_fences text = a ++ c_lbrace :: m ++ c_rbrace :: b) ->
  _extract_tool_call text = Return JNull.
Proof.
  intros Hno. unfold _extract_tool_call, extract_body.
  generalize dependent (strip_fences text). intros t Hno.
  destruct (find_char_spec t c_lbrace) as [(_ & Hf)|(a & r & Ht & Ha & Hf)].
  { now rewrite Hf. }
  destruct (rfind_char_spec t c_rbrace) as [(_ & Hr)|(r' & b & Ht' & Hb & Hr)].
  { rewrite Hf, Hr. pose proof (len_nonneg a).
    destruct (Z.gtb_spec (-1 + 1) (len a)); [lia|].
    now rewrite andb_false_r. }
  rewrite Hf, Hr.
  destruct (Z.gtb_spec (len r' + 1) (len a)) as [Hgt|Hle];
    [|now rewrite andb_false_r].
  exfalso. apply Hno. rewrite Ht in Ht'.
  apply app_eq_app in Ht' as (l & [(Hal & Hl)|(Hrl & Hl)]).
  - assert (l = []) as ->.
    { destruct l; [reflexivity|]. rewrite Hal, len_app, len_cons in Hgt.
      pose proof (len_nonneg l). lia. }
    discriminate Hl.
  - destruct l as [|x l]; [discriminate Hl|].
    injection Hl as <- ->. exists a, l, b. exact Ht.
Qed.

Lemma replace_absent (s old new : pystr) h t :
  old = h :: t -> h ∉ s -> replace s old new = s.
Proof.
  intros Ho Hn. rewrite <- (app_nil_r s) at 1.
  rewrite (replace_free _ _ _ _ _ _ Ho Hn). rewrite Ho.
  cbn. apply app_nil_r.
Qed.

Lemma skip_ws_nonempty (x : pystr) c :
  c ∈ x -> is_json_ws c = false -> skip_ws x <> [].
Proof.
  induction x as [|d x IH]; [now intros ?%elem_of_nil|].
  intros [->|Hc]%elem_of_cons Hw; cbn [skip_ws].
  - now rewrite Hw.
  - destruct (is_json_ws d); [now apply IH | discriminate].
Qed.

(** A complete object followed by anything that holds a closing brace:
    the extractor hands both to the decoder, which rejects them. *)
Lemma extract_object_then_more (o m b : pystr) v :
  loads (c_lbrace :: o) = Ok v ->
  c_backtick ∉ (c_lbrace :: o ++ m ++ c_rbrace :: b) ->
  c_rbrace ∉ b ->
  _extract_tool_call (c_lbrace :: o ++ m ++ c_rbrace :: b) = Return JNull.
Proof.
  intros Hv Hbt Hrb.
  assert (Ht : strip_fences (c_lbrace :: o ++ m ++ c_rbrace :: b)
               = [] ++ c_lbrace :: (o ++ m) ++ c_rbrace :: rstrip b).
  { unfold strip_fences.
    rewrite (replace_absent _ _ _ _ _ fence_json_head Hbt).
    rewrite (replace_absent _ _ _ _ _ fence_head Hbt).
    transitivity (strip ([] ++ c_lbrace :: (o ++ m) ++ c_rbrace :: b)).
    { f_equal. simpl. now rewrite <- app_assoc. }
    apply (strip_around [] (o ++ m) b c_lbrace c_rbrace); reflexivity. }
  rewrite (extract_between _ _ _ _ Ht).
  - rewrite <- app_assoc.
    rewrite (loads_extra_data o (m ++ [c_rbrace]) v Hv); [reflexivity|].
    apply (skip_ws_nonempty _ c_rbrace); [|reflexivity].
    apply elem_of_app. right. now left.
  - apply not_elem_of_nil.
  - intros H%rstrip_subset. now apply Hrb.
Qed.

(** C3 (as the code behaves): the extractor removes the fence markers and
    trims the text; when the cleaned text holds an opening brace with a
    closing brace somewhere behind it, the extractor decodes exactly the
    piece from the first opening brace through the last closing brace, and
    returns the decoded object, or none when that piece does not decode;
    in every other case it returns none.  For one complete object followed
    by a fragment that holds a closing brace (a second object, say) that
    piece reaches into the fragment and does not decode (data after the
    first object), so the extractor returns none. *)
Theorem extract_decodes_first_to_last_brace :
  (forall text a m b,
     strip_fences text = a ++ c_lbrace :: m ++ c_rbrace :: b ->
     c_lbrace ∉ a -> c_rbrace ∉ b ->
     _extract_tool_call text
     = Return (or_none (loads (c_lbrace :: m ++ [c_rbrace])))) /\
  (forall text,
     (~ exists a m b, strip_fences text = a ++ c_lbrace :: m ++ c_rbrace :: b) ->
     _extract_tool_call text = Return JNull) /\
  (forall o m b v,
     loads (c_lbrace :: o) = Ok v ->
     c_backtick ∉ (c_lbrace :: o ++ m ++ c_rbrace :: b) ->
     c_rbrace ∉ b ->
     _extract_tool_call (c_lbrace :: o ++ m ++ c_rbrace :: b) = Return JNull) /\
  (loads text_tool_none = Ok value_tool_none /\
   loads text_news_call = Ok value_news_call /\
   loads text_two_objects = Error ExtraData /\
   _extract_tool_call text_two_objects = Return JNull).
Proof.
  split; [exact extract_between|].
  split; [exact extract_null_unless_between|].
  split; [exact extract_object_then_more|].
  repeat split; vm_compute; reflexivity.
Qed.

(** C3, the claim as stated, fails: on a complete object followed by a
    second object the extractor does not return the first object. *)
Lemma extract_two_objects_not_first :
  loads text_tool_none = Ok value_tool_none /\
  _extract_tool_call (text_tool_none ++ lit " " ++ text_news_call)
  <> Return value_tool_none.
Proof. split; [vm_compute; reflexivity | vm_compute; discriminate]. Qed.

Lemma text_tool_none_braces :
  text_tool_none
  = c_lbrace :: (quoted "tool" ++ lit ":" ++ quoted "none") ++ [c_rbrace].
Proof. reflexivity. Qed.

Lemma extract_fenced_tool_none (before after : pystr) :
  c_lbrace ∉ before -> c_backtick ∉ before -> c_rbrace ∉ after ->
  _extract_tool_call (before ++ fenced_tool_none ++ after)
  = Return value_tool_none.
Proof.
  intros Hlb Hbt Hrb.
  destruct (strip_fences_fenced before after
              (quoted "tool" ++ lit ":" ++ quoted "none") Hbt)
    as (a & b & Ht & Ha & Hb).
  { apply (bool_decide_unpack (c_backtick ∉ _)). vm_compute. exact I. }
  unfold fenced_tool_none. rewrite text_tool_none_braces.
  rewrite (extract_between _ a _ b Ht).
  - vm_compute. reflexivity.
  - intros [H|H]%Ha; [now apply Hlb | discriminate H].
  - intros [H|[H|H]]%Hb; [now apply Hrb | discriminate H | discriminate H].
Qed.

(** C4: the extractor always returns, and what it returns is none or a
    decoded object; the fenced object with tool = none, standing between
    prose (no brace or backtick before it, no closing brace after it),
    yields that object; a text without an opening brace yields none. *)
Theorem extract_tool_call_never_raises :
  (forall text, exists v,
     _extract_tool_call text = Return v /\
     (v = JNull \/ exists d, v = JObject d)) /\
  (forall before after,
     c_lbrace ∉ before -> c_backtick ∉ before -> c_rbrace ∉ after ->
     _extract_tool_call (before ++ fenced_tool_none ++ after)
     = Return value_tool_none) /\
  (forall text, c_lbrace ∉ text -> _extract_tool_call text = Return JNull).
Proof.
  split; [exact extract_returns|].
  split; [exact extract_fenced_tool_none | exact extract_no_brace].
Qed.

Lemma extract_decodes_witness :
  _extract_tool_call (lit "Sure: " ++ text_news_call ++ lit " (done)")
  = Return value_news_call.
Proof.
  destruct extract_decodes_first_to_last_brace as (H & _ & _ & _).
  rewrite (H (lit "Sure: " ++ text_news_call ++ lit " (done)") (lit "Sure: ")
             (quoted "tool" ++ lit ":" ++ quoted "get_latest_news" ++ lit ","
              ++ quoted "arguments" ++ lit ":{}")
             (lit " (done)")).
  - vm_compute. reflexivity.
  - vm_compute. reflexivity.
  - apply (bool_decide_unpack (_ ∉ _)). vm_compute. exact I.
  - apply (bool_decide_unpack (_ ∉ _)). vm_compute. exact I.
Defined.

Lemma extract_never_raises_witness :
  _extract_tool_call (lit "Here is my answer: " ++ fenced_tool_none
                      ++ lit " Hope that helps!")
  = Return value_tool_none.
Proof.
  destruct extract_tool_call_never_raises as (_ & H & _).
  apply (H (lit "Here is my answer: ") (lit " Hope that helps!"));
    apply (bool_decide_unpack (_ ∉ _)); vm_compute; exact I.
Defined.

End ExtractFacts.

(** * The turn and the session *)

Module SessionFacts.
Import Py PyFacts Json JsonFacts Exn Client ExtractFacts.

(** ** Relations every step of a computation respects *)

Section Respects.
Context {B : Backend}.
Variable R : state B -> state B -> Prop.
Variable ok : event -> Prop.
Hypothesis R_refl : forall s, R s s.
Hypothesis R_trans : forall s1 s2 s3, R s1 s2 -> R s2 s3 -> R s1 s3.
Hypothesis R_event : forall ev s w,
  ok ev -> R s {| self := self s; env := w; trace := ev :: trace s |}.

Local Abbreviation respects := (respects R).

Lemma respects_ret {A} (a : A) : respects (ret a).
Proof. intros s r s' [= <- <-]. apply R_refl. Qed.

Lemma respects_raise {A} e : respects (raise (A := A) e).
Proof. intros s r s' [= <- <-]. apply R_refl. Qed.

Lemma respects_hang {A} : respects (hang (A := A)).
Proof. intros s r s' [= <- <-]. apply R_refl. Qed.

Lemma respects_lift {A} (o : outcome A) : respects (lift o).
Proof. intros s r s' [= <- <-]. apply R_refl. Qed.

Lemma respects_get_self : respects get_self.
Proof. intros s r s' [= <- <-]. apply R_refl. Qed.

Lemma respects_bind {A C} (c : M B A) (k : A -> M B C) :
  respects c -> (forall a, respects (k a)) -> respects (bind c k).
Proof.
  intros Hc Hk s r s'. unfold bind.
  destruct (c s) as [[a|e|] s1] eqn:E.
  - intros H. eapply R_trans; [eapply Hc, E | eapply Hk, H].
  - intros [= <- <-]. eapply Hc, E.
  - intros [= <- <-]. eapply Hc, E.
Qed.

Lemma respects_try_except {A} (c : M B A) catches handler :
  respects c -> (forall e, respects (handler e)) ->
  respects (try_except c catches handler).
Proof.
  intros Hc Hh s r s'. unfold try_except.
  destruct (c s) as [[a|e|] s1] eqn:E.
  - intros [= <- <-]. eapply Hc, E.
  - destruct (catches e).
    + intros H. eapply R_trans; [eapply Hc, E | eapply Hh, H].
    + intros [= <- <-]. eapply Hc, E.
  - intros [= <- <-]. eapply Hc, E.
Qed.

Lemma respects_record ev : ok ev -> respects (record ev).
Proof. intros Hev s r s' [= <- <-]. now apply R_event. Qed.

Lemma respects_call {A} ev (f : world B -> outcome A * world B) :
  ok ev -> respects (call ev f).
Proof.
  intros Hev s r s'. unfold call. destruct (f (env s)) as [r0 w].
  intros [= <- <-]. now apply R_event.
Qed.

Hypothesis ok_printed : forall line, ok (Printed line).
Hypothesis ok_generated : forall p o, ok (Generated p o).
Hypothesis ok_asked : ok Asked.

Lemma respects_print line : respects (print line).
Proof. apply respects_record, ok_printed. Qed.

Lemma respects_process_tool_call tool_name tool_args :
  ok (ToolCalled tool_name tool_args) ->
  respects (process_tool_call B tool_name tool_args).
Proof.
  intros Hok. unfold process_tool_call.
  apply respects_bind; [apply respects_get_self|]. intros c.
  destruct (negb (session c)); [apply respects_raise|].
  apply respects_bind; [now apply respects_call|].
  intros [|[text|] rest];
    first [apply respects_ret | apply respects_raise].
Qed.

Lemma respects_make_natural_response user_query raw_data :
  respects (make_natural_response B user_query raw_data).
Proof.
  unfold make_natural_response.
  apply respects_bind; [apply respects_call, ok_generated|].
  intros response. apply respects_ret.
Qed.

Lemma respects_conversation_branch user_message :
  respects (conversation_branch B user_message).
Proof.
  unfold conversation_branch.
  apply respects_bind; [apply respects_call, ok_generated|].
  intros response. apply respects_print.
Qed.

Lemma respects_bind_lift {A C} (o : outcome A) (k : A -> M B C) :
  (forall a, o = Return a -> respects (k a)) -> respects (bind (lift o) k).
Proof.
  intros Hk s r s'. unfold bind, lift. destruct o as [a|e|].
  - intros H. eapply Hk; [reflexivity | exact H].
  - intros [= <- <-]. apply R_refl.
  - intros [= <- <-]. apply R_refl.
Qed.

Lemma respects_tool_branch user_message tool_call :
  (forall n, py_getitem tool_call (lit "tool") = Return n ->
             forall a, ok (ToolCalled n a)) ->
  respects (tool_branch B user_message tool_call).
Proof.
  intros Hn. unfold tool_branch.
  apply respects_bind_lift. intros n En.
  apply respects_bind_lift. intros a _.
  apply respects_try_except.
  - apply respects_bind.
    + apply respects_process_tool_call. now apply Hn.
    + intros raw. apply respects_bind;
        [apply respects_make_natural_response | intros ?; apply respects_print].
  - intros [e'| | |]; try apply respects_raise.
    apply respects_bind; [apply respects_print | intros ?; apply respects_print].
Qed.

Hypothesis ok_tool : forall n a,
  eq_str n (lit "none") = false -> ok (ToolCalled n a).

(** In the tool branch the name looked up is never the string none. *)
Lemma wants_tool_name tool_call n :
  wants_tool tool_call = Return true ->
  py_getitem tool_call (lit "tool") = Return n ->
  eq_str n (lit "none") = false.
Proof.
  unfold wants_tool, py_getitem, py_get.
  destruct tool_call as [| | | | | |d]; intros H1 H2; try discriminate H2.
  destruct (truthy (JObject d)); [|discriminate].
  destruct (dict_lookup d (lit "tool")) as [v|]; [|discriminate].
  injection H1 as H1. injection H2 as <-. now apply negb_true_iff in H1.
Qed.

Lemma respects_chat_with_mistral user_message :
  respects (chat_with_mistral B user_message).
Proof.
  unfold chat_with_mistral.
  apply respects_bind; [apply respects_call, ok_generated|].
  intros response. apply respects_bind_lift. intros tool_call _.
  apply respects_bind_lift. intros [|] Hw.
  - apply respects_tool_branch. intros n Hn a.
    apply ok_tool. eapply wants_tool_name; eauto.
  - apply respects_conversation_branch.
Qed.

Lemma respects_session_loop fuel : respects (session_loop B fuel).
Proof.
  induction fuel as [|fuel IH]; cbn [session_loop]; [apply respects_hang|].
  apply respects_bind; [apply respects_call, ok_asked|]. intros line.
  destruct (is_exit_command (strip line)); [apply respects_print|].
  destruct (negb (str_truthy (strip line))); [exact IH|].
  apply respects_bind; [apply respects_print|]. intros _.
  apply respects_bind; [apply respects_chat_with_mistral|]. intros _.
  apply respects_bind; [apply respects_print | intros _; exact IH].
Qed.

End Respects.

(** ** The client object is not touched after the connection *)

Section KeepsSelf.
Context {B : Backend}.

Lemma session_loop_keeps_self fuel (s : state B) r s' :
  session_loop B fuel s = (r, s') -> self s' = self s.
Proof.
  apply (respects_session_loop same_self (fun _ => True)); unfold same_self;
    try easy. intros; congruence.
Qed.

End KeepsSelf.

(** ** Which tool names reach the server *)

Section ToolCalls.
Context {B : Backend}.

Lemma adds_fine_events_refl (s : state B) : adds_fine_events s s.
Proof. exists []. split; [reflexivity | constructor]. Qed.

Lemma adds_fine_events_trans (s1 s2 s3 : state B) :
  adds_fine_events s1 s2 -> adds_fine_events s2 s3 -> adds_fine_events s1 s3.
Proof.
  intros (n1 & H1 & F1) (n2 & H2 & F2). exists (n2 ++ n1). split.
  - rewrite H2, H1. now rewrite app_assoc.
  - apply Forall_app. auto.
Qed.

Lemma adds_fine_events_event ev (s : state B) w :
  not_none_call ev ->
  adds_fine_events s {| self := self s; env := w; trace := ev :: trace s |}.
Proof. intros H. exists [ev]. split; [reflexivity | now constructor]. Qed.

Lemma chat_adds_fine_events user_message (s : state B) r s' :
  chat_with_mistral B user_message s = (r, s') -> adds_fine_events s s'.
Proof.
  apply (respects_chat_with_mistral adds_fine_events not_none_call);
    try easy.
  - apply adds_fine_events_refl.
  - apply adds_fine_events_trans.
  - intros; now apply adds_fine_events_event.
Qed.

End ToolCalls.

(** ** One turn *)

Section Turn.
Context (B : Backend).

Lemma chat_decided user_message (s : state B) text w1 v :
  ollama_generate B (DecisionPrompt user_message) decision_options (env s)
  = (Return text, w1) ->
  _extract_tool_call text = Return v ->
  chat_with_mistral B user_message s =
  match wants_tool v with
  | Return true => tool_branch B user_message v (decided user_message s w1)
  | Return false => conversation_branch B user_message (decided user_message s w1)
  | Raise e => (Raise e, decided user_message s w1)
  | Hang => (Hang, decided user_message s w1)
  end.
Proof.
  intros Hg Hx. unfold chat_with_mistral, bind, call, lift.
  rewrite Hg, Hx. destruct (wants_tool v) as [[|]|e|]; reflexivity.
Qed.

Lemma wants_tool_object d n :
  dict_lookup d (lit "tool") = Some n ->
  wants_tool (JObject d) = Return (negb (eq_str n (lit "none"))).
Proof.
  intros Hn. unfold wants_tool, py_get. rewrite Hn.
  destruct d; [discriminate Hn | reflexivity].
Qed.

Lemma wants_tool_missing d :
  d <> [] -> dict_lookup d (lit "tool") = None ->
  wants_tool (JObject d) = Return true.
Proof.
  intros Hd Hn. unfold wants_tool, py_get. rewrite Hn.
  destruct d; [congruence | reflexivity].
Qed.

Lemma eq_str_true v (s : pystr) : eq_str v s = true <-> v = JString s.
Proof.
  destruct v; simpl; try (split; [discriminate | discriminate]).
  rewrite bool_decide_eq_true. split; [now intros -> | now intros [= ->]].
Qed.

(** When the conversational branch is taken, in terms of the value the
    extractor returned. *)
Lemma wants_tool_false v :
  (v = JNull \/ exists d, v = JObject d) ->
  wants_tool v = Return false <-> declines_tool v.
Proof.
  unfold declines_tool. intros [->|(d & ->)].
  { split; [now left | reflexivity]. }
  destruct (dict_lookup d (lit "tool")) as [n|] eqn:En.
  - rewrite (wants_tool_object _ _ En). split.
    + intros [= H]. apply negb_false_iff, eq_str_true in H. subst n.
      right. right. eauto.
    + intros [H|[H|(d' & [= <-] & H)]]; try discriminate.
      * injection H as ->. discriminate En.
      * rewrite En in H. injection H as ->. reflexivity.
  - destruct d as [|kv d].
    + split; [now right; left | reflexivity].
    + rewrite wants_tool_missing by easy. split; [discriminate|].
      intros [H|[H|(d' & [= <-] & H)]]; try discriminate.
      rewrite En in H. discriminate.
Qed.

(** The handler of the tool branch: an [Exception] raised by the tool
    invocation becomes the two printed lines, and the branch returns. *)
Lemma tool_branch_catches user_message d tool_name tool_args e
    (s s3 : state B) :
  dict_lookup d (lit "tool") = Some tool_name ->
  py_get (JObject d) (lit "arguments") (JObject []) = Return tool_args ->
  process_tool_call B tool_name tool_args s = (Raise (Exception e), s3) ->
  tool_branch B user_message (JObject d) s
  = (Return tt,
     {| self := self s3; env := env s3;
        trace := Printed msg_apology :: Printed (msg_debug e) :: trace s3 |}).
Proof.
  intros Hn Ha Hp. unfold tool_branch, py_getitem. rewrite Hn, Ha.
  unfold bind at 1 2, lift, try_except. unfold bind at 1. rewrite Hp.
  reflexivity.
Qed.

(** The tool branch passes the looked-up name and arguments to the
    session, whatever they are. *)
Lemma tool_branch_calls user_message d tool_name tool_args (s : state B) r s' :
  session (self s) = true ->
  dict_lookup d (lit "tool") = Some tool_name ->
  py_get (JObject d) (lit "arguments") (JObject []) = Return tool_args ->
  tool_branch B user_message (JObject d) s = (r, s') ->
  exists later, trace s' = later ++ ToolCalled tool_name tool_args :: trace s.
Proof.
  intros Hs Hn Ha. unfold tool_branch, py_getitem. rewrite Hn, Ha.
  unfold bind at 1 2, lift, try_except. unfold bind at 1.
  unfold process_tool_call, bind at 1, get_self. rewrite Hs. cbn [negb].
  unfold bind at 1, call at 1.
  destruct (session_call_tool B tool_name tool_args (env s)) as [[res|e|] w2].
  - destruct res as [|[text|] rest].
    + cbn. intros [= <- <-]. now exists [Printed msg_apology; Printed (msg_debug IndexError)].
    + unfold ret, make_natural_response, bind, call, print, record. cbn.
      destruct (ollama_generate B _ _ w2) as [[resp|e|] w3]; cbn.
      * intros [= <- <-]. now eexists [_; _].
      * destruct e as [e| | |]; cbn; intros [= <- <-];
          first [now eexists [_; _; _] | now eexists [_]].
      * intros [= <- <-]. now eexists [_].
    + cbn. intros [= <- <-]. now eexists [_; _].
  - destruct e as [e| | |]; cbn; intros [= <- <-];
      first [now eexists [_; _] | now exists []].
  - cbn. intros [= <- <-]. now exists [].
Qed.

(** C5, the claim as stated, fails: the model names make_coffee, which is
    not in the catalog the client holds, and the turn still sends that
    name to the server. *)
Lemma unknown_tool_is_dispatched :
  let s := started text_make_coffee [] in
(lit "make_coffee" ∉ map name (available_tools (self s))) /\
  _extract_tool_call text_make_coffee
  = Return (JObject [(lit "tool", JString (lit "make_coffee"))]) /\
  chat_with_mistral (scripted text_make_coffee) (lit "coffee please") s
  = (Return tt,
     after [Printed msg_apology;
            Printed (msg_debug
                       (CollaboratorError (lit "Unknown tool: make_coffee")));
            ToolCalled (JString (lit "make_coffee")) (JObject []);
            Generated (DecisionPrompt (lit "coffee please")) decision_options]
           s []).
Proof.
  cbv zeta. split; [|split].
  - apply (bool_decide_unpack (_ ∉ _)). vm_compute. exact I.
  - vm_compute. reflexivity.
  - vm_compute. reflexivity.
Qed.

(** C5 (as the code behaves): when the object extracted from the model
    output has a tool member other than the string none, the turn takes
    the tool branch and hands that member and the arguments to the session
    unchanged, whatever the catalog holds; and every tool call a turn
    issues carries a name other than none. *)
Theorem dispatch_ignores_catalog :
  forall user_message (s : state B) text w1 d tool_name tool_args r s',
    ollama_generate B (DecisionPrompt user_message) decision_options (env s)
    = (Return text, w1) ->
    _extract_tool_call text = Return (JObject d) ->
    dict_lookup d (lit "tool") = Some tool_name ->
    eq_str tool_name (lit "none") = false ->
    py_get (JObject d) (lit "arguments") (JObject []) = Return tool_args ->
    session (self s) = true ->
    chat_with_mistral B user_message s = (r, s') ->
    (exists later,
       trace s' = later ++ ToolCalled tool_name tool_args
                  :: Generated (DecisionPrompt user_message) decision_options
                  :: trace s) /\
    (exists new, trace s' = new ++ trace s /\ Forall not_none_call new).
Proof.
  intros msg s text w1 d n a r s' Hg Hx Hn Hne Ha Hs Hrun. split.
  - rewrite (chat_decided _ _ _ _ _ Hg Hx), (wants_tool_object _ _ Hn), Hne in Hrun.
    cbn [negb] in Hrun.
    eapply (tool_branch_calls msg d n a (decided msg s w1)); eauto.
  - eapply chat_adds_fine_events, Hrun.
Qed.

(** C6: a turn whose tool invocation raises an [Exception] ends normally:
    the exception is caught at the turn boundary, the diagnostic line and
    one apology are printed, and the loop goes on to its next iteration,
    which starts by reading the next input. *)
Theorem tool_failure_is_caught :
  forall fuel (s : state B) line w1 text w2 d tool_name tool_args e s3,
    input B (env s) = (Return line, w1) ->
    is_exit_command (strip line) = false ->
    str_truthy (strip line) = true ->
    ollama_generate B (DecisionPrompt (strip line)) decision_options w1
    = (Return text, w2) ->
    _extract_tool_call text = Return (JObject d) ->
    dict_lookup d (lit "tool") = Some tool_name ->
    eq_str tool_name (lit "none") = false ->
    py_get (JObject d) (lit "arguments") (JObject []) = Return tool_args ->
    process_tool_call B tool_name tool_args
      (decided (strip line) (after [Printed []; Asked] s w1) w2)
    = (Raise (Exception e), s3) ->
    chat_with_mistral B (strip line) (after [Printed []; Asked] s w1)
    = (Return tt, after [Printed msg_apology; Printed (msg_debug e)] s3 (env s3))
    /\
    session_loop B (S fuel) s
    = session_loop B fuel
        (after [Printed msg_separator; Printed msg_apology;
                Printed (msg_debug e)] s3 (env s3)).
Proof.
  intros fuel s line w1 text w2 d n a e s3 Hin Hexit Htruthy Hg Hx Hn Hne Ha Hp.
  assert (Hchat : chat_with_mistral B (strip line) (after [Printed []; Asked] s w1)
            = (Return tt,
               after [Printed msg_apology; Printed (msg_debug e)] s3 (env s3))).
  { rewrite (chat_decided (strip line) (after [Printed []; Asked] s w1)
               text w2 (JObject d) Hg Hx).
    rewrite (wants_tool_object _ _ Hn), Hne. cbn [negb].
    exact (tool_branch_catches _ _ _ _ _ _ _ Hn Ha Hp). }
  split; [exact Hchat|].
  cbn [session_loop]. unfold bind at 1, call at 1. rewrite Hin.
  rewrite Hexit, Htruthy. cbn [negb].
  unfold bind at 1, print at 1, record at 1.
  change {| self := self {| self := self s; env := w1; trace := Asked :: trace s |};
            env := env {| self := self s; env := w1; trace := Asked :: trace s |};
            trace := Printed [] :: trace {| self := self s; env := w1; trace := Asked :: trace s |} |}
    with (after [Printed []; Asked] s w1).
  unfold bind at 1. rewrite Hchat.
  unfold bind at 1, print at 1, record at 1. reflexivity.
Qed.

(** C10, the claim as stated, fails on its own example: for the model
    output consisting of the empty object the extractor returns the empty
    dict, which is falsy, so the turn takes the conversational branch and
    nothing is raised. *)
Lemma empty_object_takes_conversation :
  _extract_tool_call (lit "{}") = Return (JObject []) /\
  dict_lookup (V := json) [] (lit "tool") = None /\
  chat_with_mistral (scripted (lit "{}")) (lit "hi") (started (lit "{}") [])
  = (Return tt,
     after [Printed (lit "Hello!" ++ nl);
            Generated (ChatPrompt (lit "hi")) chat_options;
            Generated (DecisionPrompt (lit "hi")) decision_options]
           (started (lit "{}") []) []).
Proof. repeat split; vm_compute; reflexivity. Qed.

(** C10 (as the code behaves): a non-empty extracted object without a tool
    member sends the turn into the tool branch, where the lookup of the
    member raises [KeyError] before the [try] is entered: nothing is
    printed and the exception leaves [chat_with_mistral].  The
    conversational branch is taken exactly when the extractor returned
    none, the empty object, or an object whose tool member is the string
    none. *)
Theorem missing_tool_key_raises_outside_handler :
  forall user_message (s : state B) text w1 v,
    ollama_generate B (DecisionPrompt user_message) decision_options (env s)
    = (Return text, w1) ->
    _extract_tool_call text = Return v ->
    (forall d, v = JObject d -> d <> [] ->
       dict_lookup d (lit "tool") = None ->
       chat_with_mistral B user_message s
       = (Raise (Exception (KeyError (lit "tool"))),
          decided user_message s w1)) /\
    (declines_tool v ->
       chat_with_mistral B user_message s
       = conversation_branch B user_message (decided user_message s w1)) /\
    (~ declines_tool v ->
       chat_with_mistral B user_message s
       = tool_branch B user_message v (decided user_message s w1)).
Proof.
  intros msg s text w1 v Hg Hx.
  rewrite (chat_decided _ _ _ _ _ Hg Hx).
  assert (Hshape : v = JNull \/ exists d, v = JObject d).
  { destruct (extract_returns text) as (v' & Hv' & Hs).
    rewrite Hx in Hv'. injection Hv' as <-. exact Hs. }
  split; [|split].
  - intros d -> Hd Hn. rewrite (wants_tool_missing d Hd Hn).
    unfold tool_branch, py_getitem. rewrite Hn. reflexivity.
  - intros Hdec. apply (wants_tool_false v Hshape) in Hdec. now rewrite Hdec.
  - intros Hdec. destruct (wants_tool v) as [[|]|e|] eqn:Hw; [reflexivity| | |].
    + exfalso. now apply Hdec, (wants_tool_false v Hshape).
    + destruct Hshape as [->|(d & ->)]; [discriminate Hw|].
      unfold wants_tool, py_get in Hw. destruct (truthy _); discriminate.
    + destruct Hshape as [->|(d & ->)]; [discriminate Hw|].
      unfold wants_tool, py_get in Hw. destruct (truthy _); discriminate.
Qed.

End Turn.

(** ** The whole session *)

Section Main.
Context (B : Backend).

Lemma startup_connected (s0 s1 : state B) :
  startup B s0 = (Return tt, s1) ->
  session_context (self s1) = true /\ client_context (self s1) = true.
Proof.
  intros H. destruct s0 as [c0 w0 t0].
  cbv [startup connect_to_server bind set_self get_self print record call
       self env trace session available_tools client_context session_context
       new_client] in H.
  destruct (client_aenter B w0) as [[[]|e|] w1]; try discriminate H.
  destruct (session_aenter B w1) as [[[]|e|] w2]; try discriminate H.
  destruct (session_initialize B w2) as [[[]|e|] w3]; try discriminate H.
  destruct (session_list_tools B w3) as [[tools|e|] w4]; try discriminate H.
  injection H as <-. split; reflexivity.
Qed.

(** [close] on a connected client: the session is released first, and the
    transport after it unless releasing the session raised. *)
Lemma close_last (s : state B) r s' :
  session_context (self s) = true -> client_context (self s) = true ->
  close B s = (r, s') -> r <> Hang ->
  trace s' = SessionExited :: trace s \/
  trace s' = ClientExited :: SessionExited :: trace s.
Proof.
  intros Hs Hc. unfold close, bind, get_self, call. rewrite Hs. simpl.
  destruct (session_aexit B (env s)) as [[[]|e|] w1]; simpl.
  - rewrite Hc. simpl. destruct (client_aexit B w1) as [rc w2].
    intros [= <- <-] _. now right.
  - intros [= <- <-] _. now left.
  - intros [= <- <-] H. congruence.
Qed.

Lemma guarded_loop_keeps_self fuel (s : state B) r s' :
  try_except (session_loop B fuel) is_KeyboardInterrupt
             (fun _ => print msg_catch_you) s = (r, s') ->
  self s' = self s.
Proof.
  unfold try_except.
  destruct (session_loop B fuel s) as [[[]|e|] s1] eqn:E;
    apply session_loop_keeps_self in E.
  - now intros [= <- <-].
  - destruct (is_KeyboardInterrupt e); now intros [= <- <-].
  - now intros [= <- <-].
Qed.

(** C9: once the connection is up, however the guarded loop ends (the
    exit word, an interrupt, an exception escaping a turn), a program that
    ends has run [close] as its last action: the release of the session is
    the latest event of the run, followed at most by the release of the
    transport. *)
Theorem close_runs_on_every_exit :
  forall fuel (w : world B) s1 r s',
    startup B (initial_state B w) = (Return tt, s1) ->
    main B fuel (initial_state B w) = (r, s') ->
    r <> Hang ->
    exists r2 s2,
      try_except (session_loop B fuel) is_KeyboardInterrupt
                 (fun _ => print msg_catch_you) s1 = (r2, s2) /\
      (trace s' = SessionExited :: trace s2 \/
       trace s' = ClientExited :: SessionExited :: trace s2).
Proof.
  intros fuel w s1 r s' Hstart Hmain Hend.
  unfold main, bind in Hmain. rewrite Hstart in Hmain.
  unfold interactive_session, try_finally in Hmain.
  destruct (try_except _ _ _ s1) as [r2 s2] eqn:E.
  exists r2, s2. split; [reflexivity|].
  apply guarded_loop_keeps_self in E.
  destruct (startup_connected _ _ Hstart) as [Hs Hc].
  rewrite <- E in Hs, Hc.
  destruct (close B s2) as [rc sc] eqn:Ec.
  pose proof (close_last s2 rc sc Hs Hc Ec) as Hlast.
  destruct r2 as [[]|e|].
  - destruct rc; injection Hmain as <- <-;
      first [apply Hlast; discriminate | congruence].
  - destruct rc; injection Hmain as <- <-;
      first [apply Hlast; discriminate | congruence].
  - injection Hmain as <- <-. congruence.
Qed.

End Main.

(** ** The theorems at work in the example worlds *)

Lemma dispatch_ignores_catalog_witness :
  let B := scripted text_make_coffee in
  let s := started text_make_coffee [] in
  exists later new,
    trace (snd (chat_with_mistral B (lit "coffee please") s))
    = later ++ ToolCalled (JString (lit "make_coffee")) (JObject [])
      :: Generated (DecisionPrompt (lit "coffee please")) decision_options
      :: trace s /\
    trace (snd (chat_with_mistral B (lit "coffee please") s)) = new ++ trace s /\
    Forall not_none_call new.
Proof.
  cbv zeta.
  unshelve epose proof
    (dispatch_ignores_catalog (scripted text_make_coffee)
       (lit "coffee please") (started text_make_coffee [])
       text_make_coffee []
       [(lit "tool", JString (lit "make_coffee"))]
       (JString (lit "make_coffee")) (JObject [])
       (fst (chat_with_mistral (scripted text_make_coffee)
               (lit "coffee please") (started text_make_coffee [])))
       (snd (chat_with_mistral (scripted text_make_coffee)
               (lit "coffee please") (started text_make_coffee [])))
       _ _ _ _ _ _ _) as [(later & Hl) (new & Hn & Hf)].
  1-6: vm_compute; reflexivity.
  - apply surjective_pairing.
  - exists later, new. auto.
Defined.

Lemma tool_failure_is_caught_witness :
  let B := scripted text_make_coffee in
  let s := started text_make_coffee [Return (lit "coffee please")] in
  let e := CollaboratorError (lit "Unknown tool: make_coffee") in
  let s3 := after [ToolCalled (JString (lit "make_coffee")) (JObject []);
                   Generated (DecisionPrompt (lit "coffee please"))
                             decision_options;
                   Printed []; Asked] s [] in
  chat_with_mistral B (lit "coffee please") (after [Printed []; Asked] s [])
  = (Return tt, after [Printed msg_apology; Printed (msg_debug e)] s3 [])
  /\
  session_loop B 2 s
  = session_loop B 1
      (after [Printed msg_separator; Printed msg_apology; Printed (msg_debug e)]
             s3 []).
Proof.
  cbv zeta.
  apply (tool_failure_is_caught (scripted text_make_coffee) 1
           (started text_make_coffee [Return (lit "coffee please")])
           (lit "coffee please") [] text_make_coffee []
           [(lit "tool", JString (lit "make_coffee"))]
           (JString (lit "make_coffee")) (JObject [])
           (CollaboratorError (lit "Unknown tool: make_coffee")));
    vm_compute; reflexivity.
Defined.

Lemma missing_tool_key_witness :
  let B := scripted text_no_tool_key in
  let s := started text_no_tool_key [] in
  chat_with_mistral B (lit "hi") s
  = (Raise (Exception (KeyError (lit "tool"))), decided (lit "hi") s []).
Proof.
  cbv zeta.
  unshelve epose proof
    (missing_tool_key_raises_outside_handler (scripted text_no_tool_key)
       (lit "hi") (started text_no_tool_key []) text_no_tool_key []
       (JObject [(lit "arguments", JObject [(lit "x", JInt 1)])]) _ _)
    as (Hraise & _ & _).
  1-2: vm_compute; reflexivity.
  apply (Hraise _ eq_refl); [discriminate | vm_compute; reflexivity].
Defined.

Lemma close_runs_on_every_exit_witness :
  let B := scripted text_no_tool_key in
  let w := [Return (lit "hi")] in
  exists r2 s2,
    try_except (session_loop B 3) is_KeyboardInterrupt
               (fun _ => print msg_catch_you) (started text_no_tool_key w)
    = (r2, s2) /\
    (trace (snd (main B 3 (initial_state B w))) = SessionExited :: trace s2 \/
     trace (snd (main B 3 (initial_state B w)))
     = ClientExited :: SessionExited :: trace s2).
Proof.
  cbv zeta.
  apply (close_runs_on_every_exit (scripted text_no_tool_key) 3
           [Return (lit "hi")] (started text_no_tool_key [Return (lit "hi")])
           (fst (main (scripted text_no_tool_key) 3
                   (initial_state (scripted text_no_tool_key) [Return (lit "hi")])))).
  - vm_compute. reflexivity.
  - apply surjective_pairing.
  - vm_compute. discriminate.
Defined.

(** The exit paths one by one, in the example worlds: the exit word, an
    interrupt at the prompt, an exception that escapes a turn, and the end
    of the input.  Each run ends with the two releases. *)
Example exit_paths_release :
  let ends_released (B : Backend) (w : world B) :=
    exists r earlier,
      main B 4 (initial_state B w)
      = (r, Build_state B (self (snd (main B 4 (initial_state B w))))
                          (env (snd (main B 4 (initial_state B w))))
                          (ClientExited :: SessionExited :: earlier)) /\
      r <> Hang in
  ends_released (scripted text_tool_none) [Return (lit "hello"); Return (lit "Quit")] /\
  ends_released (scripted text_tool_none) [Return (lit "hello"); Raise KeyboardInterrupt] /\
  ends_released (scripted text_no_tool_key) [Return (lit "hello")] /\
  ends_released (scripted text_make_coffee) [Return (lit "coffee please")].
Proof.
  cbv zeta. repeat split; eexists _, _; (split; [vm_compute; reflexivity | discriminate]).
Qed.

End SessionFacts.

(** * The knowledge-base query tool *)

Module ServerFacts.
Import Py Json Exn Server.

Lemma string_array_head payload :
  is_string_array payload -> head payload = Some c_lbracket.
Proof. intros (docs & ->). now destruct docs. Qed.

Lemma error_object_head payload :
  is_error_object payload -> head payload = Some c_lbrace.
Proof. now intros (message & ->). Qed.

Lemma shapes_exclusive payload :
  ~ (is_string_array payload /\ is_error_object payload).
Proof.
  intros [Ha%string_array_head He%error_object_head].
  rewrite Ha in He. discriminate He.
Qed.

(** C7: every call of the query tool returns, and the payload is either
    the serialisation of a list of strings or that of an object with the
    single member error, never both; without a collection it is the error
    object. *)
Theorem query_payload_shape :
  forall (collection : option Collection) (query_text : pystr) (n_results : Z),
  exists payload,
    query_knowledge_base collection query_text n_results = Return payload /\
    (is_string_array payload \/ is_error_object payload) /\
    ~ (is_string_array payload /\ is_error_object payload) /\
    (collection = None -> payload = error_payload msg_not_available).
Proof.
  intros [c|] query_text n_results; unfold query_knowledge_base, query_body.
  - destruct (query c [query_text] n_results) as [[[[|docs rest]|]]|e];
      eexists; (split; [reflexivity|]);
      (split; [|split; [apply shapes_exclusive | discriminate]]).
    + right. now eexists.
    + left. now exists docs.
    + right. now eexists.
    + right. now eexists.
  - eexists. split; [reflexivity|].
    split; [right; now eexists|]. split; [apply shapes_exclusive | reflexivity].
Qed.

(** The payloads of the example stores decode to what the claim names. *)
Example query_payload_examples :
  (exists p, query_knowledge_base (Some two_documents) (lit "syllabus") 3
             = Return p /\
             loads p = Ok (JArray [JString (lit "Syllabus of CS101");
                                   JString (lit "Exam dates")])) /\
  (exists p, query_knowledge_base (Some broken_store) (lit "syllabus") 3
             = Return p /\
             loads p = Ok (JObject [(lit "error",
                            JString (lit "An error occurred during the query: connection refused"))])) /\
  (exists p, query_knowledge_base None (lit "syllabus") 3 = Return p /\
             loads p = Ok (JObject [(lit "error", JString msg_not_available)])).
Proof.
  repeat split; eexists; (split; [reflexivity | vm_compute; reflexivity]).
Qed.

End ServerFacts.

(** * Chunk ids *)

Module VectorDbFacts.
Import Py PyFacts SearchFacts Json Chunker ChunkerFacts VectorDb.

Lemma lit_inj (s1 s2 : string) : lit s1 = lit s2 -> s1 = s2.
Proof.
  unfold lit. intros H.
  rewrite <- (string_of_list_ascii_of_string s1),
          <- (string_of_list_ascii_of_string s2).
  f_equal. revert H.
  generalize (list_ascii_of_string s1) (list_ascii_of_string s2).
  induction l as [|a l IH]; intros [|b k]; simpl; try discriminate; [easy|].
  intros [= Hab Hlk]. f_equal; [|now apply IH].
  rewrite <- (ascii_N_embedding a), <- (ascii_N_embedding b). now f_equal.
Qed.

Lemma to_uint_nonnil (n : nat) : Nat.to_uint n <> Decimal.Nil.
Proof.
  rewrite <- (DecimalNat.Unsigned.of_to n) at 1.
  rewrite DecimalNat.Unsigned.to_of. apply unorm_nonnil.
Qed.

Lemma str_of_nat_inj (i j : nat) : str_of_nat i = str_of_nat j -> i = j.
Proof.
  unfold str_of_nat. intros H%lit_inj.
  apply DecimalNat.Unsigned.to_uint_inj.
  assert (Hi := NilZero.usu _ (to_uint_nonnil i)).
  assert (Hj := NilZero.usu _ (to_uint_nonnil j)).
  rewrite H in Hi. congruence.
Qed.

Lemma digits_no_underscore (d : Decimal.uint) :
  c_underscore ∉ lit (NilEmpty.string_of_uint d).
Proof.
  induction d; simpl; try apply not_elem_of_nil;
    (apply not_elem_of_cons; split; [discriminate | exact IHd]).
Qed.

Lemma str_of_nat_no_underscore (i : nat) : c_underscore ∉ str_of_nat i.
Proof.
  unfold str_of_nat, NilZero.string_of_uint.
  destruct (Nat.to_uint i) eqn:E;
    [exfalso; exact (to_uint_nonnil i E) | exact (digits_no_underscore _)..].
Qed.

(** Two lists that agree and end in a tail without [u] split at the same
    last [u]. *)
Lemma split_last_unique {A} (x1 x2 d1 d2 : list A) (u : A) :
  u ∉ d1 -> u ∉ d2 -> x1 ++ u :: d1 = x2 ++ u :: d2 -> x1 = x2 /\ d1 = d2.
Proof.
  intros H1 H2 H. apply app_eq_app in H as (l & [(Hx & Hd)|(Hx & Hd)]).
  - destruct l as [|y l].
    + rewrite app_nil_r in Hx. simpl in Hd. injection Hd as ->. auto.
    + injection Hd as -> ->. exfalso. apply H2.
      apply elem_of_app. right. now left.
  - destruct l as [|y l].
    + rewrite app_nil_r in Hx. simpl in Hd. injection Hd as ->. auto.
    + injection Hd as -> ->. exfalso. apply H1.
      apply elem_of_app. right. now left.
Qed.

(** An id determines the base name and the index it was made from. *)
Lemma chunk_id_inj (b1 b2 : pystr) (i j : nat) :
  chunk_id b1 i = chunk_id b2 j -> b1 = b2 /\ i = j.
Proof.
  unfold chunk_id.
  change (lit "_chunk_") with (lit "_chunk" ++ [c_underscore]).
  rewrite <- !app_assoc. simpl ([c_underscore] ++ _).
  rewrite !(app_assoc _ (lit "_chunk")).
  intros [Hb Hd]%split_last_unique; try apply str_of_nat_no_underscore.
  split; [now apply app_inv_tail in Hb | now apply str_of_nat_inj].
Qed.

(** The chunker always finishes on its default configuration. *)
Lemma add_pdf_returns reader pdf_path :
  exists chunks,
    add_pdf_to_vectordb reader pdf_path
    = Some (chunks,
            map (chunk_id (base_name_of pdf_path)) (seq 0 (length chunks))).
Proof.
  unfold add_pdf_to_vectordb.
  destruct (split_text_returns_covering
              (extract_text_from_pdf reader pdf_path) 1000 100)
    as (chunks & Hrun & _); [lia|].
  rewrite Hrun by lia. now exists chunks.
Qed.

(** C8: ids derived from distinct sources do collide, although the code
    means them not to (its comment on the line that builds them reads
    "Generate unique IDs to avoid collisions").  Two different source
    files with the same file name in different directories, each with one
    chunk of its own text, are both handed to the store under the id
    notes_chunk_0: the directory of the source is dropped before the id is
    built. *)
Lemma distinct_sources_share_ids :
  lit "2023/notes.pdf" <> lit "2024/notes.pdf" /\
  add_pdf_to_vectordb two_folders (lit "2023/notes.pdf")
  = Some ([lit "Semester one"], [lit "notes_chunk_0"]) /\
  add_pdf_to_vectordb two_folders (lit "2024/notes.pdf")
  = Some ([lit "Semester two"], [lit "notes_chunk_0"]).
Proof.
  split; [discriminate|]. split; vm_compute; reflexivity.
Qed.

(** What does hold of the ids: those handed to the store are
    [chunk_id base_name i] for the indices [i] of the chunks, where
    [base_name] is the source path without directory and extension; so
    ingesting the same source again with the same content gives the same
    documents and ids, and ids made from different base names or different
    indices are different. *)
Theorem chunk_ids_determined_by_base_name_and_index :
  (forall reader pdf_path, exists chunks,
     add_pdf_to_vectordb reader pdf_path
     = Some (chunks,
             map (chunk_id (base_name_of pdf_path)) (seq 0 (length chunks)))) /\
  (forall reader1 reader2 pdf_path,
     extract_text_from_pdf reader1 pdf_path
     = extract_text_from_pdf reader2 pdf_path ->
     add_pdf_to_vectordb reader1 pdf_path = add_pdf_to_vectordb reader2 pdf_path) /\
  (forall b1 b2 i j, chunk_id b1 i = chunk_id b2 j -> b1 = b2 /\ i = j) /\
  (forall reader1 reader2 path1 path2 chunks1 ids1 chunks2 ids2 id,
     add_pdf_to_vectordb reader1 path1 = Some (chunks1, ids1) ->
     add_pdf_to_vectordb reader2 path2 = Some (chunks2, ids2) ->
     base_name_of path1 <> base_name_of path2 ->
     id ∈ ids1 -> id ∉ ids2).
Proof.
  split; [exact add_pdf_returns|]. split; [|split; [exact chunk_id_inj|]].
  - intros reader1 reader2 pdf_path H. unfold add_pdf_to_vectordb. now rewrite H.
  - intros reader1 reader2 path1 path2 chunks1 ids1 chunks2 ids2 id H1 H2 Hb.
    destruct (add_pdf_returns reader1 path1) as (c1 & E1).
    destruct (add_pdf_returns reader2 path2) as (c2 & E2).
    rewrite E1 in H1. rewrite E2 in H2.
    injection H1 as _ <-. injection H2 as _ <-.
    intros (i & Hi & _)%list_elem_of_fmap (j & Hj & _)%list_elem_of_fmap.
    rewrite Hi in Hj. apply chunk_id_inj in Hj as [Hbb _]. now apply Hb.
Qed.

Lemma chunk_ids_witness :
  lit "notes_chunk_0" ∉ [lit "slides_chunk_0"].
Proof.
  destruct chunk_ids_determined_by_base_name_and_index as (_ & _ & _ & H).
  apply (H two_folders
           (fun _ => [Some (lit "Week one")])
           (lit "2023/notes.pdf") (lit "2024/slides.pdf")
           [lit "Semester one"] [lit "notes_chunk_0"]
           [lit "Week one"] [lit "slides_chunk_0"] (lit "notes_chunk_0"));
    [vm_compute; reflexivity | vm_compute; reflexivity
    | vm_compute; discriminate | now left].
Defined.

End VectorDbFacts.

(** * The chunker: windows, bounds and overlap *)

Module WindowFacts.
Import Py PyFacts SearchFacts Chunker ChunkerFacts.
Local Open Scope Z_scope.

(** The number of windows: the quotient counts the offsets below the
    length, one at a time. *)
Lemma count_zero (n start step : Z) :
  0 < step -> Z.to_nat ((n - start + step - 1) / step) = 0%nat -> n <= start.
Proof.
  intros Hs H.
  destruct (Z.le_gt_cases n start) as [|Hlt]; [assumption|exfalso].
  assert (1 <= (n - start + step - 1) / step); [|lia].
  apply Z.div_le_lower_bound; lia.
Qed.

Lemma count_succ (n start step : Z) (m : nat) :
  0 < step -> S m = Z.to_nat ((n - start + step - 1) / step) ->
  start < n /\ m = Z.to_nat ((n - (start + step) + step - 1) / step).
Proof.
  intros Hs H. split.
  - destruct (Z.lt_ge_cases start n) as [|Hge]; [assumption|exfalso].
    assert ((n - start + step - 1) / step <= 0); [|lia].
    assert ((n - start + step - 1) / step < 1); [|lia].
    apply Z.div_lt_upper_bound; lia.
  - replace (n - start + step - 1) with (n - (start + step) + step - 1 + 1 * step)
      in H by lia.
    rewrite Z.div_add in H by lia. lia.
Qed.

Lemma count_le_length (n step : Z) :
  0 <= n -> 0 < step -> (n + step - 1) / step <= n.
Proof.
  intros Hn Hs.
  assert ((n + step - 1) / step < n + 1); [|lia].
  apply Z.div_lt_upper_bound; nia.
Qed.

(** Below the count every offset is inside the text. *)
Lemma start_below_length (n step : Z) (k : nat) :
  0 < step -> (k < Z.to_nat ((n + step - 1) / step))%nat ->
  Z.of_nat k * step < n.
Proof.
  intros Hs Hk.
  pose proof (Z.mul_div_le (n + step - 1) step Hs).
  assert (Z.of_nat k + 1 <= (n + step - 1) / step) by lia. nia.
Qed.

(** The loop, started at any offset, appends the non-empty trimmed
    windows at that offset and at every further step. *)
Lemma split_loop_windows (text : pystr) (cs ov : Z) :
  ov < cs ->
  forall (m fuel : nat) (start : Z) (chunks : list pystr),
    m = Z.to_nat ((len text - start + (cs - ov) - 1) / (cs - ov)) ->
    (m < fuel)%nat ->
    split_loop fuel text cs ov start chunks
    = Some (chunks ++
            List.filter str_truthy
              (map (fun k => strip (window text cs (start + Z.of_nat k * (cs - ov))))
                   (seq 0 m))).
Proof.
  intros Hstep. induction m as [|m IH]; intros fuel start chunks Hm Hf.
  - destruct fuel as [|fuel]; [lia|]. cbn [split_loop].
    symmetry in Hm. apply count_zero in Hm; [|lia].
    destruct (Z.ltb_spec start (len text)); [lia|].
    simpl. now rewrite app_nil_r.
  - destruct fuel as [|fuel]; [lia|]. cbn [split_loop].
    apply count_succ in Hm as [Hlt Hm]; [|lia].
    destruct (Z.ltb_spec start (len text)); [|lia].
    cbv zeta. rewrite (IH fuel _ _ Hm) by lia. f_equal.
    cbn [seq map List.filter]. rewrite <- seq_shift, map_map.
    replace (start + Z.of_nat 0 * (cs - ov)) with start by lia.
    fold (window text cs start).
    rewrite (map_ext _ (fun k => strip (window text cs (start + Z.of_nat (S k) * (cs - ov)))))
      by (intros k; do 2 f_equal; lia).
    destruct (str_truthy (strip (window text cs start)));
      [now rewrite <- app_assoc | reflexivity].
Qed.

(** The whole run in closed form. *)
Lemma split_text_closed_form (text : pystr) (cs ov : Z) (fuel : nat) :
  ov < cs -> (length text < fuel)%nat ->
  split_text fuel text cs ov
  = Some (List.filter str_truthy
            (map (fun start => strip (window text cs start))
                 (window_starts text cs ov))).
Proof.
  intros Hstep Hf. unfold split_text, window_starts. cbv zeta.
  rewrite (split_loop_windows text cs ov Hstep
             (Z.to_nat ((len text + (cs - ov) - 1) / (cs - ov))) fuel 0 []).
  - rewrite map_map. reflexivity.
  - f_equal. f_equal. lia.
  - pose proof (count_le_length (len text) (cs - ov)). unfold len in *. lia.
Qed.

(** X1: with a positive step ([overlap < chunk_size]) the chunker returns
    exactly the trimmed windows that are not empty, in the order of their
    offsets; the offsets are the multiples [0, step, 2*step, ...] of the
    step that lie below the length of the text, one for each of them.
    Any fuel above the text length is enough. *)
Theorem split_text_is_trimmed_windows :
  forall (text : pystr) (chunk_size overlap : Z) (fuel : nat),
    overlap < chunk_size -> (length text < fuel)%nat ->
    split_text fuel text chunk_size overlap
    = Some (List.filter str_truthy
              (map (fun start => strip (window text chunk_size start))
                   (window_starts text chunk_size overlap))) /\
    (forall (k : nat) start,
       window_starts text chunk_size overlap !! k = Some start <->
       start = Z.of_nat k * (chunk_size - overlap) /\ start < len text).
Proof.
  intros text cs ov fuel Hstep Hf. split.
  - unfold split_text, window_starts. cbv zeta.
    rewrite (split_loop_windows text cs ov Hstep
               (Z.to_nat ((len text + (cs - ov) - 1) / (cs - ov))) fuel 0 []).
    + rewrite map_map. reflexivity.
    + f_equal. f_equal. lia.
    + pose proof (count_le_length (len text) (cs - ov)). unfold len in *. lia.
  - intros k start. unfold window_starts. cbv zeta.
    rewrite list_lookup_fmap. split.
    + destruct (seq 0 _ !! k) as [j|] eqn:Ej; [|discriminate].
      apply lookup_seq in Ej as [-> Hk]. simpl. intros [= <-].
      split; [reflexivity|]. apply start_below_length; lia.
    + intros [-> Hlt].
      rewrite (lookup_seq_lt 0 _ k); [reflexivity|].
      assert (Z.of_nat k + 1 <= (len text + (cs - ov) - 1) / (cs - ov)); [|lia].
      apply Z.div_le_lower_bound; nia.
Qed.

Lemma split_text_is_trimmed_windows_witness :
  split_text 6%nat (lit "ab cd") 3 1
  = Some (List.filter str_truthy
            (map (fun start => strip (window (lit "ab cd") 3 start))
                 (window_starts (lit "ab cd") 3 1))) /\
  (forall (k : nat) start,
     window_starts (lit "ab cd") 3 1 !! k = Some start <->
     start = Z.of_nat k * (3 - 1) /\ start < len (lit "ab cd")).
Proof.
  apply (split_text_is_trimmed_windows (lit "ab cd") 3 1 6%nat); [lia | simpl; lia].
Defined.

(** *** Sizes *)

Lemma strip_length (s : pystr) : (length (strip s) <= length s)%nat.
Proof.
  destruct (strip_split s) as (ws1 & ws2 & Hs & _).
  rewrite Hs at 2. rewrite !length_app. lia.
Qed.

Lemma window_length (text : pystr) (cs start : Z) :
  0 < cs -> 0 <= start -> len (window text cs start) <= cs.
Proof.
  intros Hcs Hst. unfold window, py_slice, py_index, len.
  set (n := Z.of_nat (length text)).
  destruct (Z.ltb_spec start 0); [lia|].
  destruct (Z.ltb_spec (Z.min (start + cs) n) 0); [lia|].
  rewrite length_take, length_drop. lia.
Qed.

Lemma filter_length_le {A} (f : A -> bool) (l : list A) :
  (length (List.filter f l) <= length l)%nat.
Proof. induction l as [|x l IH]; simpl; [lia|]. destruct (f x); simpl; lia. Qed.

Lemma Forall_filter_map {A C} (P : C -> Prop) (f : C -> bool) (g : A -> C) l :
  (forall x, x ∈ l -> P (g x)) -> Forall P (List.filter f (map g l)).
Proof.
  induction l as [|x l IH]; intros H; simpl; [constructor|].
  assert (Forall P (List.filter f (map g l))).
  { apply IH. intros y Hy. apply H. now right. }
  destruct (f (g x)); [constructor; [apply H; now left | assumption] | assumption].
Qed.

Lemma window_starts_nonneg (text : pystr) (cs ov start : Z) :
  ov < cs -> start ∈ window_starts text cs ov -> 0 <= start < len text.
Proof.
  intros Hstep. unfold window_starts. cbv zeta.
  intros (k & -> & Hk)%list_elem_of_fmap.
  apply list_elem_of_In, in_seq in Hk.
  pose proof (start_below_length (len text) (cs - ov) k). nia.
Qed.

(** No chunk is longer than the window it was cut from. *)
Lemma chunks_bounded (text : pystr) (cs ov : Z) (fuel : nat) chunks :
  0 < cs -> ov < cs -> (length text < fuel)%nat ->
  split_text fuel text cs ov = Some chunks ->
  Forall (fun c => len c <= cs) chunks.
Proof.
  intros Hcs Hstep Hf. rewrite split_text_closed_form by assumption.
  intros [= <-]. apply Forall_filter_map. intros start Hs.
  apply (window_starts_nonneg _ _ _ _ Hstep) in Hs.
  pose proof (window_length text cs start Hcs ltac:(lia)).
  pose proof (strip_length (window text cs start)). unfold len in *. lia.
Qed.

(** X2: with a positive chunk size and a positive step no chunk is longer
    than [chunk_size], and there are at most as many chunks as there are
    window offsets below the length of the text, that is the length
    divided by the step, rounded up. *)
Theorem split_text_chunk_bounds :
  forall (text : pystr) (chunk_size overlap : Z) (fuel : nat) chunks,
    0 < chunk_size -> overlap < chunk_size -> (length text < fuel)%nat ->
    split_text fuel text chunk_size overlap = Some chunks ->
    Forall (fun c => len c <= chunk_size) chunks /\
    len chunks
    <= (len text + (chunk_size - overlap) - 1) / (chunk_size - overlap).
Proof.
  intros text cs ov fuel chunks Hcs Hstep Hf Hrun.
  split; [exact (chunks_bounded text cs ov fuel chunks Hcs Hstep Hf Hrun)|].
  rewrite split_text_closed_form in Hrun by assumption.
  injection Hrun as <-.
  pose proof (filter_length_le str_truthy
                (map (fun start => strip (window text cs start))
                     (window_starts text cs ov))) as Hle.
  rewrite length_map in Hle. unfold window_starts in Hle |- *. cbv zeta in Hle |- *.
  rewrite length_map, length_seq in Hle.
  assert (0 <= (len text + (cs - ov) - 1) / (cs - ov)).
  { apply Z.div_pos; unfold len; lia. }
  remember ((len text + (cs - ov) - 1) / (cs - ov)) as q.
  unfold len. lia.
Qed.

Lemma split_text_chunk_bounds_witness :
  Forall (fun c => len c <= 3) [lit "ab"; lit "cd"; lit "d"] /\
  len [lit "ab"; lit "cd"; lit "d"] <= (len (lit "ab cd") + (3 - 1) - 1) / (3 - 1).
Proof.
  apply (split_text_chunk_bounds (lit "ab cd") 3 1 6%nat);
    [lia | lia | simpl; lia | reflexivity].
Defined.

(** *** Blank and short texts *)

Lemma lstrip_blank (s : pystr) : blank s -> lstrip s = [].
Proof.
  induction 1 as [|c s Hc _ IH]; [reflexivity|]. simpl. now rewrite Hc.
Qed.

Lemma strip_blank (s : pystr) : blank s -> strip s = [].
Proof. intros H. unfold strip. now rewrite (lstrip_blank s H). Qed.

Lemma py_slice_sublist {A} (l : list A) (a b : Z) x :
  x ∈ py_slice l a b -> x ∈ l.
Proof.
  unfold py_slice. intros H.
  eapply elem_of_sublist; [|apply sublist_drop].
  eapply elem_of_sublist; [exact H | apply sublist_take].
Qed.

Lemma window_blank (text : pystr) (cs start : Z) :
  blank text -> blank (window text cs start).
Proof.
  unfold blank. rewrite !Forall_forall. intros H c Hc. apply H.
  eapply py_slice_sublist, Hc.
Qed.

Lemma filter_all_false {A} (f : A -> bool) (l : list A) :
  Forall (fun x => f x = false) l -> List.filter f l = [].
Proof. induction 1 as [|x l Hx _ IH]; simpl; [reflexivity|]. now rewrite Hx. Qed.

(** X3: a text of whitespace only yields no chunk at all whenever the step
    is positive, and the empty text yields none whatever the chunk size
    and the overlap are, the configurations included on which a non-empty
    text makes the loop run for ever. *)
Theorem split_text_blank_text_no_chunks :
  (forall (text : pystr) (chunk_size overlap : Z) (fuel : nat),
     blank text -> overlap < chunk_size -> (length text < fuel)%nat ->
     split_text fuel text chunk_size overlap = Some []) /\
  (forall (chunk_size overlap : Z) (fuel : nat),
     (0 < fuel)%nat -> split_text fuel [] chunk_size overlap = Some []).
Proof.
  split.
  - intros text cs ov fuel Hb Hstep Hf.
    rewrite split_text_closed_form by assumption. f_equal.
    apply filter_all_false, Forall_forall.
    intros c (start & -> & _)%list_elem_of_fmap.
    now rewrite (strip_blank _ (window_blank text cs start Hb)).
  - intros cs ov [|fuel] Hf; [lia | reflexivity].
Qed.

Lemma split_text_blank_text_witness :
  split_text 4%nat (lit "   ") 2 1 = Some [] /\
  split_text 1%nat [] 1 5 = Some [].
Proof.
  destruct split_text_blank_text_no_chunks as [Hblank Hempty]. split.
  - apply (Hblank (lit "   ") 2 1 4%nat); [|lia | simpl; lia].
    repeat constructor.
  - apply (Hempty 1 5 1%nat). lia.
Defined.

Lemma py_slice_all {A} (l : list A) : py_slice l 0 (len l) = l.
Proof.
  rewrite py_slice_in_range by (unfold len; lia).
  simpl. rewrite Z.sub_0_r. unfold len. rewrite Nat2Z.id. apply firstn_all.
Qed.

(** X4: a text that is not longer than the step ([len(text) <= chunk_size
    - overlap], overlap not negative) is visited by one window only: the
    result is the trimmed text as the single chunk, or no chunk when the
    text is blank.  With the defaults this is every document of at most
    900 characters. *)
Theorem split_text_short_text_one_chunk :
  forall (text : pystr) (chunk_size overlap : Z) (fuel : nat),
    0 <= overlap -> 0 < len text <= chunk_size - overlap -> (1 < fuel)%nat ->
    split_text fuel text chunk_size overlap
    = Some (if str_truthy (strip text) then [strip text] else []).
Proof.
  intros text cs ov fuel Hov Hlen Hf.
  destruct fuel as [|[|fuel]]; [lia | lia |].
  unfold split_text. cbn [split_loop].
  destruct (Z.ltb_spec 0 (len text)); [|lia].
  cbv zeta.
  destruct (Z.ltb_spec (0 + (cs - ov)) (len text)); [lia|].
  rewrite Z.min_r by lia. rewrite py_slice_all.
  destruct (str_truthy (strip text)); reflexivity.
Qed.

Lemma split_text_short_text_witness :
  split_text 2%nat (lit " hello ") 1000 100
  = Some (if str_truthy (strip (lit " hello ")) then [strip (lit " hello ")] else []).
Proof.
  apply (split_text_short_text_one_chunk (lit " hello ") 1000 100 2%nat);
    [lia | vm_compute; split; [reflexivity | discriminate] | lia].
Defined.

(** *** The shared characters of neighbouring chunks *)

Lemma lstrip_no_space (s : pystr) : no_space s -> lstrip s = s.
Proof. destruct 1 as [|c s Hc _]; [reflexivity|]. simpl. now rewrite Hc. Qed.

Lemma strip_no_space (s : pystr) : no_space s -> strip s = s.
Proof.
  intros H. unfold strip, rstrip. rewrite (lstrip_no_space s H).
  rewrite lstrip_no_space; [apply rev_involutive|].
  unfold no_space in *. rewrite Forall_forall in *.
  intros c Hc. apply H. apply list_elem_of_In, in_rev, list_elem_of_In. exact Hc.
Qed.

Lemma window_no_space (text : pystr) (cs start : Z) :
  no_space text -> no_space (window text cs start).
Proof.
  unfold no_space. rewrite !Forall_forall. intros H c Hc. apply H.
  eapply py_slice_sublist, Hc.
Qed.

(** Inside the text a window is a [take] of a [drop]. *)
Lemma window_in_range (text : pystr) (cs start : Z) :
  0 < cs -> 0 <= start < len text ->
  window text cs start
  = take (Z.to_nat (Z.min (start + cs) (len text) - start))
         (drop (Z.to_nat start) text).
Proof. intros Hcs Hst. unfold window. apply py_slice_in_range; lia. Qed.

Lemma window_nonempty (text : pystr) (cs start : Z) :
  0 < cs -> 0 <= start < len text -> str_truthy (window text cs start) = true.
Proof.
  intros Hcs Hst. apply str_truthy_nonempty. intros Hnil.
  apply (f_equal (@length _)) in Hnil.
  rewrite window_in_range, length_take, length_drop in Hnil by assumption.
  unfold len in *. simpl in Hnil. lia.
Qed.

Lemma filter_all_true {A} (f : A -> bool) (l : list A) :
  Forall (fun x => f x = true) l -> List.filter f l = l.
Proof.
  induction 1 as [|x l Hx _ IH]; simpl; [reflexivity|]. now rewrite Hx, IH.
Qed.

(** On a text without whitespace the chunks are the windows themselves. *)
Lemma split_text_no_space (text : pystr) (cs ov : Z) (fuel : nat) :
  no_space text -> 0 < cs -> ov < cs -> (length text < fuel)%nat ->
  split_text fuel text cs ov
  = Some (map (window text cs) (window_starts text cs ov)).
Proof.
  intros Hns Hcs Hstep Hf. rewrite split_text_closed_form by assumption.
  f_equal.
  rewrite (map_ext_in _ (window text cs)).
  - apply filter_all_true, Forall_forall.
    intros c (start & -> & Hs%(window_starts_nonneg _ _ _ _ Hstep))%list_elem_of_fmap.
    apply window_nonempty; lia.
  - intros start _. apply strip_no_space, window_no_space, Hns.
Qed.

Lemma window_starts_lookup (text : pystr) (cs ov : Z) (k : nat) start :
  ov < cs -> window_starts text cs ov !! k = Some start ->
  start = Z.of_nat k * (cs - ov) /\ 0 <= start < len text.
Proof.
  intros Hstep Hk.
  assert (Hin : start ∈ window_starts text cs ov)
    by (eapply list_elem_of_lookup_2, Hk).
  split; [|exact (window_starts_nonneg _ _ _ _ Hstep Hin)].
  unfold window_starts in Hk. cbv zeta in Hk.
  rewrite list_lookup_fmap in Hk.
  destruct (seq 0 _ !! k) as [j|] eqn:Ej; [|discriminate Hk].
  apply lookup_seq in Ej as [-> _]. simpl in Hk. now injection Hk as <-.
Qed.

(** X5: on a text without whitespace and with [0 <= overlap <
    chunk_size], two neighbouring chunks share their border: what the
    earlier chunk holds beyond the first step characters is what the later
    chunk starts with, [overlap] characters when the earlier window was
    not cut short by the end of the text. *)
Theorem consecutive_chunks_share_overlap :
  forall (text : pystr) (chunk_size overlap : Z) (fuel : nat) chunks
         (k : nat) (c1 c2 : pystr),
    no_space text -> 0 <= overlap < chunk_size -> (length text < fuel)%nat ->
    split_text fuel text chunk_size overlap = Some chunks ->
    chunks !! k = Some c1 -> chunks !! S k = Some c2 ->
    drop (Z.to_nat (chunk_size - overlap)) c1 = take (Z.to_nat overlap) c2.
Proof.
  intros text cs ov fuel chunks k c1 c2 Hns Hov Hf Hrun H1 H2.
  rewrite split_text_no_space in Hrun by (assumption || lia).
  injection Hrun as <-.
  rewrite list_lookup_fmap in H1, H2.
  destruct (window_starts text cs ov !! k) as [a|] eqn:Ea; [|discriminate H1].
  destruct (window_starts text cs ov !! S k) as [b|] eqn:Eb; [|discriminate H2].
  apply window_starts_lookup in Ea as [-> Ha]; [|lia].
  apply window_starts_lookup in Eb as [-> Hb]; [|lia].
  simpl in H1, H2. injection H1 as <-. injection H2 as <-.
  rewrite !window_in_range by lia.
  set (a := Z.of_nat k * (cs - ov)) in *.
  replace (Z.of_nat (S k) * (cs - ov)) with (a + (cs - ov)) in * by lia.
  rewrite skipn_firstn_comm, drop_drop, take_take. f_equal; [lia|].
  f_equal. lia.
Qed.

Lemma consecutive_chunks_witness :
  drop (Z.to_nat (4 - 1)) (lit "abcd") = take (Z.to_nat 1) (lit "defg").
Proof.
  apply (consecutive_chunks_share_overlap (lit "abcdefgh") 4 1 9%nat
           [lit "abcd"; lit "defg"; lit "gh"] 0%nat (lit "abcd") (lit "defg"));
    [repeat constructor | lia | simpl; lia | reflexivity | reflexivity
    | reflexivity].
Defined.

(** *** Without overlap *)

Lemma visible_app (s t : pystr) : visible (s ++ t) = visible s ++ visible t.
Proof. unfold visible. apply List.filter_app. Qed.

Lemma visible_blank (ws : pystr) : forallb isspace ws = true -> visible ws = [].
Proof.
  induction ws as [|c ws IH]; [reflexivity|]. simpl.
  intros [Hc Hws]%andb_true_iff. rewrite Hc. simpl. now apply IH.
Qed.

(** Trimming removes whitespace only. *)
Lemma visible_strip (s : pystr) : visible (strip s) = visible s.
Proof.
  destruct (strip_split s) as (ws1 & ws2 & Hs & H1 & H2).
  rewrite Hs at 2. rewrite !visible_app.
  now rewrite (visible_blank _ H1), (visible_blank _ H2), app_nil_r.
Qed.

(** A window and what lies behind the next offset make up what lies
    behind this offset, when the step is the chunk size. *)
Lemma window_then_rest (text : pystr) (cs start : Z) :
  0 < cs -> 0 <= start < len text ->
  window text cs start ++ drop (Z.to_nat (start + cs)) text
  = drop (Z.to_nat start) text.
Proof.
  intros Hcs Hst. rewrite window_in_range by assumption.
  rewrite <- (take_drop (Z.to_nat cs) (drop (Z.to_nat start) text)) at 2.
  rewrite drop_drop.
  replace (Z.to_nat start + Z.to_nat cs)%nat with (Z.to_nat (start + cs)) by lia.
  f_equal.
  destruct (Z.le_gt_cases (start + cs) (len text)) as [Hle|Hgt].
  - f_equal. lia.
  - rewrite Z.min_r by lia.
    rewrite !take_ge; [reflexivity | |]; rewrite length_drop; unfold len in *; lia.
Qed.

Lemma split_loop_visible fuel :
  forall (text : pystr) (cs start : Z) (chunks res : list pystr),
    0 < cs -> 0 <= start ->
    split_loop fuel text cs 0 start chunks = Some res ->
    visible (concat res)
    = visible (concat chunks) ++ visible (drop (Z.to_nat start) text).
Proof.
  induction fuel as [|fuel IH]; intros text cs start chunks res Hcs Hst;
    [discriminate|]. cbn [split_loop].
  destruct (Z.ltb_spec start (len text)) as [Hlt|Hge].
  - cbv zeta. fold (window text cs start). intros Hrun.
    apply IH in Hrun; [|assumption|lia]. rewrite Hrun.
    replace (start + (cs - 0)) with (start + cs) by lia.
    rewrite <- (window_then_rest text cs start Hcs ltac:(lia)).
    rewrite visible_app, app_assoc. f_equal.
    rewrite <- (visible_strip (window text cs start)).
    destruct (strip (window text cs start)) as [|c r] eqn:E.
    + simpl. now rewrite app_nil_r.
    + cbn [str_truthy]. rewrite concat_app, visible_app. simpl.
      now rewrite app_nil_r.
  - intros [= <-]. rewrite drop_ge by (unfold len in Hge; lia).
    now rewrite app_nil_r.
Qed.

(** X6: without overlap nothing but whitespace is lost and nothing is
    repeated: the characters of the chunks that are not whitespace, read
    chunk after chunk, are the characters of the text that are not
    whitespace, each once and in the same order. *)
Theorem zero_overlap_keeps_every_character_once :
  forall (text : pystr) (chunk_size : Z) (fuel : nat) (chunks : list pystr),
    0 < chunk_size ->
    split_text fuel text chunk_size 0 = Some chunks ->
    visible (concat chunks) = visible text.
Proof.
  intros text cs fuel chunks Hcs Hrun. unfold split_text in Hrun.
  apply split_loop_visible in Hrun; [|assumption|lia].
  rewrite Hrun. reflexivity.
Qed.

Lemma zero_overlap_witness :
  visible (concat [lit "ab"; lit "cd"; lit "e"]) = visible (lit "ab cd e").
Proof.
  apply (zero_overlap_keeps_every_character_once (lit "ab cd e") 3 8%nat
           [lit "ab"; lit "cd"; lit "e"]); [lia | reflexivity].
Defined.

End WindowFacts.

(** * Ingestion: texts, chunks and ids *)

Module IngestFacts.
Import Py PyFacts SearchFacts Json Chunker ChunkerFacts WindowFacts.
Import VectorDb VectorDbFacts.
Local Open Scope Z_scope.

Lemma fold_left_app_concat (pages : list (option pystr)) (acc : pystr) :
  fold_left (fun text page => text ++ match page with
                                      | Some t => t
                                      | None => []
                                      end) pages acc
  = acc ++ concat (map (default []) pages).
Proof.
  revert acc. induction pages as [|page pages IH]; intros acc; simpl.
  - now rewrite app_nil_r.
  - rewrite IH, <- app_assoc. now destruct page.
Qed.

Lemma concat_blank (texts : list pystr) :
  Forall blank texts -> blank (concat texts).
Proof.
  induction 1 as [|t texts Ht _ IH]; simpl; [constructor|].
  apply Forall_app. split; assumption.
Qed.

(** X7: the text taken from a PDF is the texts of its pages one after
    the other, in page order, with nothing put between two pages and
    nothing at all for a page without text; when no page has any text
    other than whitespace, ingestion hands the store an empty list of
    documents and an empty list of ids. *)
Theorem extract_text_concatenates_pages :
  (forall reader pdf_path,
     extract_text_from_pdf reader pdf_path
     = concat (map (default []) (reader pdf_path))) /\
  (forall reader pdf_path,
     Forall (fun page => blank (default [] page)) (reader pdf_path) ->
     add_pdf_to_vectordb reader pdf_path = Some ([], [])).
Proof.
  assert (Hcat : forall reader pdf_path,
            extract_text_from_pdf reader pdf_path
            = concat (map (default []) (reader pdf_path))).
  { intros reader pdf_path. unfold extract_text_from_pdf.
    now rewrite fold_left_app_concat. }
  split; [exact Hcat|].
  intros reader pdf_path Hpages. unfold add_pdf_to_vectordb. cbv zeta.
  assert (Hb : blank (extract_text_from_pdf reader pdf_path)).
  { rewrite Hcat. apply concat_blank, Forall_fmap.
    eapply Forall_impl; [exact Hpages|]. intros page Hp. exact Hp. }
  rewrite split_text_closed_form by lia.
  rewrite filter_all_false; [reflexivity|].
  apply Forall_forall. intros c (start & -> & _)%list_elem_of_fmap.
  now rewrite (strip_blank _ (window_blank _ 1000 start Hb)).
Qed.

Lemma extract_text_witness :
  add_pdf_to_vectordb (fun _ => [None; Some (lit " "); None]) (lit "scan.pdf")
  = Some ([], []).
Proof.
  destruct extract_text_concatenates_pages as [_ H].
  apply (H (fun _ => [None; Some (lit " "); None]) (lit "scan.pdf")).
  repeat constructor.
Defined.

Lemma chunk_id_Inj (base_name : pystr) : Inj (=) (=) (chunk_id base_name).
Proof. intros i j H. now apply chunk_id_inj in H. Qed.

(** X8: whatever the file holds, ingestion hands the store one id per
    document, no id twice, and no document that is empty, untrimmed or
    longer than the default chunk size of 1000 characters. *)
Theorem add_pdf_ids_distinct_and_aligned :
  forall reader pdf_path, exists chunks ids,
    add_pdf_to_vectordb reader pdf_path = Some (chunks, ids) /\
    length ids = length chunks /\
    NoDup ids /\
    Forall (fun c => c <> [] /\ strip c = c /\ len c <= 1000) chunks.
Proof.
  intros reader pdf_path. unfold add_pdf_to_vectordb. cbv zeta.
  set (text := extract_text_from_pdf reader pdf_path).
  destruct (split_text_returns_covering text 1000 100 ltac:(lia))
    as (chunks & Hrun & _ & Hgood).
  pose proof (Hrun (S (length text)) ltac:(lia)) as Hrun'.
  rewrite Hrun'. eexists _, _. split; [reflexivity|].
  split; [now rewrite length_map, length_seq|].
  split.
  - apply (NoDup_fmap_2 (chunk_id (base_name_of pdf_path))
                         (Inj0 := chunk_id_Inj _)), NoDup_seq.
  - pose proof (chunks_bounded text 1000 100 (S (length text)) chunks
                  ltac:(lia) ltac:(lia) ltac:(lia) Hrun') as Hlen.
    rewrite Forall_forall in *. intros c Hc.
    destruct (Hgood c Hc) as (Hne & Hs & _). auto.
Qed.

(** *** Base names *)

Lemma rfind_last (r b : pystr) (c : char) :
  c ∉ b -> rfind (r ++ c :: b) [c] = len r.
Proof. intros H. unfold rfind. now rewrite rfind_at_last. Qed.

Lemma rfind_absent (s : pystr) (c : char) : c ∉ s -> rfind s [c] = -1.
Proof. intros H. unfold rfind. now apply rfind_at_absent. Qed.

Lemma py_slice_suffix {A} (a b : list A) :
  py_slice (a ++ b) (len a) (len (a ++ b)) = b.
Proof.
  rewrite py_slice_in_range by (rewrite len_app; pose proof (len_nonneg b); pose proof (len_nonneg a); lia).
  rewrite len_app. unfold len. rewrite Nat2Z.id, drop_app_length.
  replace (Z.to_nat _) with (length b) by lia. apply firstn_all.
Qed.

Lemma py_slice_prefix {A} (a b : list A) :
  py_slice (a ++ b) 0 (len a) = a.
Proof.
  rewrite py_slice_in_range
    by (rewrite ?len_app; pose proof (len_nonneg b); pose proof (len_nonneg a); lia).
  rewrite Z.sub_0_r. unfold len. rewrite Nat2Z.id.
  change (Z.to_nat 0) with 0%nat. rewrite drop_0.
  now rewrite take_app_length.
Qed.

Lemma basename_after_slash (dir name : pystr) :
  c_slash ∉ name -> basename (dir ++ c_slash :: name) = name.
Proof.
  intros H. unfold basename. rewrite (rfind_last _ _ _ H).
  change (dir ++ c_slash :: name) with (dir ++ [c_slash] ++ name).
  rewrite app_assoc.
  replace (len dir + 1) with (len (dir ++ [c_slash]))
    by (rewrite len_app; reflexivity).
  apply py_slice_suffix.
Qed.

Lemma basename_no_slash (name : pystr) :
  c_slash ∉ name -> basename name = name.
Proof.
  intros H. unfold basename. rewrite (rfind_absent _ _ H).
  change (-1 + 1) with 0. apply py_slice_all.
Qed.

Lemma splitext_stem (stem ext : pystr) :
  c_slash ∉ stem -> c_slash ∉ ext -> c_dot ∉ ext -> has_non_dot stem = true ->
  splitext (stem ++ c_dot :: ext) = (stem, c_dot :: ext).
Proof.
  intros Hs He Hd Hn. unfold splitext.
  rewrite (rfind_last _ _ _ Hd).
  rewrite rfind_absent.
  2:{ rewrite elem_of_app, elem_of_cons. intros [?|[?|?]]; [auto | discriminate | auto]. }
  cbv zeta. change (-1 + 1) with 0.
  rewrite py_slice_prefix, Hn.
  destruct (Z.gtb_spec (len stem) (-1)) as [_|Hle];
    [|pose proof (len_nonneg stem); lia].
  cbn [andb]. f_equal. apply py_slice_suffix.
Qed.

(** X9: the directory and the extension of the path play no part in the
    ids: for a file name made of a stem (no slash, not only dots), a dot
    and an extension (no slash, no dot), in any directory or in none, the
    base name is the stem, and the ids handed to the store are the stem
    followed by [_chunk_] and the index. *)
Theorem ids_ignore_directory_and_extension :
  forall (dir stem ext : pystr),
    c_slash ∉ stem -> c_slash ∉ ext -> c_dot ∉ ext -> has_non_dot stem = true ->
    base_name_of (dir ++ c_slash :: stem ++ c_dot :: ext) = stem /\
    base_name_of (stem ++ c_dot :: ext) = stem /\
    (forall reader, exists chunks,
       add_pdf_to_vectordb reader (dir ++ c_slash :: stem ++ c_dot :: ext)
       = Some (chunks, map (fun i => stem ++ lit "_chunk_" ++ str_of_nat i)
                           (seq 0 (length chunks)))).
Proof.
  intros dir stem ext Hs He Hd Hn.
  assert (Hname : c_slash ∉ stem ++ c_dot :: ext).
  { rewrite elem_of_app, elem_of_cons. intros [?|[?|?]]; [auto | discriminate | auto]. }
  assert (Hbase : base_name_of (dir ++ c_slash :: stem ++ c_dot :: ext) = stem).
  { unfold base_name_of.
    now rewrite (basename_after_slash _ _ Hname), splitext_stem. }
  split; [exact Hbase|]. split.
  - unfold base_name_of.
    now rewrite (basename_no_slash _ Hname), splitext_stem.
  - intros reader.
    destruct (add_pdf_returns reader (dir ++ c_slash :: stem ++ c_dot :: ext))
      as (chunks & Hrun).
    exists chunks. rewrite Hrun, Hbase. reflexivity.
Qed.

Lemma ids_ignore_directory_witness :
  base_name_of (lit "2023/term1" ++ c_slash :: lit "notes" ++ c_dot :: lit "pdf")
  = lit "notes" /\
  base_name_of (lit "notes" ++ c_dot :: lit "pdf") = lit "notes".
Proof.
  destruct (ids_ignore_directory_and_extension
              (lit "2023/term1") (lit "notes") (lit "pdf")) as (H1 & H2 & _);
    [apply (bool_decide_unpack (_ ∉ _)); vm_compute; exact I
    |apply (bool_decide_unpack (_ ∉ _)); vm_compute; exact I
    |apply (bool_decide_unpack (_ ∉ _)); vm_compute; exact I
    |reflexivity|].
  split; [exact H1 | exact H2].
Defined.

(** X10: two ingestions whose paths have the same base name draw their ids
    from the same sequence, whatever the files hold: the ids of the one
    with fewer chunks are the first ids of the other. *)
Theorem same_base_name_reuses_ids :
  forall reader1 reader2 path1 path2 chunks1 ids1 chunks2 ids2,
    base_name_of path1 = base_name_of path2 ->
    add_pdf_to_vectordb reader1 path1 = Some (chunks1, ids1) ->
    add_pdf_to_vectordb reader2 path2 = Some (chunks2, ids2) ->
    (length chunks1 <= length chunks2)%nat ->
    ids1 = take (length chunks1) ids2.
Proof.
  intros reader1 reader2 path1 path2 chunks1 ids1 chunks2 ids2 Hb H1 H2 Hle.
  destruct (add_pdf_returns reader1 path1) as (c1 & E1).
  destruct (add_pdf_returns reader2 path2) as (c2 & E2).
  rewrite E1 in H1. rewrite E2 in H2.
  injection H1 as <- <-. injection H2 as <- <-.
  rewrite Hb, firstn_map. f_equal.
  replace (length c2) with (length c1 + (length c2 - length c1))%nat by lia.
  rewrite seq_app, take_app_length'; [reflexivity | now rewrite length_seq].
Qed.

Lemma same_base_name_witness :
  [lit "notes_chunk_0"] = take (length [lit "Semester one"]) [lit "notes_chunk_0"].
Proof.
  apply (same_base_name_reuses_ids two_folders two_folders
           (lit "2023/notes.pdf") (lit "2024/notes.pdf")
           [lit "Semester one"] [lit "notes_chunk_0"]
           [lit "Semester two"] [lit "notes_chunk_0"]);
    [vm_compute; reflexivity | vm_compute; reflexivity | vm_compute; reflexivity
    | simpl; lia].
Defined.

End IngestFacts.

(** * Encoding and decoding of strings *)

Module StringCodecFacts.
Import Py Json JsonFacts.
Local Open Scope N_scope.

Ltac n_arith := zify; Z.to_euclidean_division_equations; lia.

Lemma hex_value_hex_digit (d : N) : d < 16 -> hex_value (hex_digit d) = Some d.
Proof.
  intros Hd. unfold hex_digit, hex_value.
  destruct (N.ltb_spec d 10).
  - destruct (N.leb_spec 48 (48 + d)); [|lia].
    destruct (N.leb_spec (48 + d) 57); [|lia].
    cbn [andb]. f_equal. lia.
  - destruct (N.leb_spec 48 (87 + d)); [|lia].
    destruct (N.leb_spec (87 + d) 57); [lia|].
    cbn [andb].
    destruct (N.leb_spec 97 (87 + d)); [|lia].
    destruct (N.leb_spec (87 + d) 102); [|lia].
    cbn [andb]. f_equal. lia.
Qed.

(** The four hexadecimal digits [format(n, '04x')] writes read back as [n]. *)
Lemma hex4_digits (n : N) :
  n < 65536 ->
  hex4 (hex_digit (n / 4096 mod 16)) (hex_digit (n / 256 mod 16))
       (hex_digit (n / 16 mod 16)) (hex_digit (n mod 16)) = Some n.
Proof.
  intros Hn. unfold hex4.
  rewrite !hex_value_hex_digit by (apply N.mod_lt; discriminate).
  f_equal. n_arith.
Qed.

(** The decoder on a character that stands for itself, and on an escape
    of four hexadecimal digits. *)
Lemma scanstring_plain (c : char) (t acc : pystr) :
  (c =? c_quote) = false -> (c =? c_backslash) = false -> (c <? 32) = false ->
  scanstring (c :: t) acc = scanstring t (c :: acc).
Proof. intros H1 H2 H3. cbn [scanstring]. now rewrite H1, H2, H3. Qed.

Lemma scanstring_u_unfold (h1 h2 h3 h4 : char) (s3 acc : pystr) :
  scanstring (c_backslash :: 117 :: h1 :: h2 :: h3 :: h4 :: s3) acc
  = match hex4 h1 h2 h3 h4 with
    | None => Error InvalidUnicodeEscape
    | Some uni =>
        match s3 with
        | b :: u :: s4 =>
            if is_high_surrogate uni && (b =? c_backslash) && (u =? 117)
            then
              match s4 with
              | k1 :: k2 :: k3 :: k4 :: s5 =>
                  match hex4 k1 k2 k3 k4 with
                  | None => Error InvalidUnicodeEscape
                  | Some uni2 =>
                      if is_low_surrogate uni2
                      then scanstring s5 (join_surrogates uni uni2 :: acc)
                      else scanstring s3 (uni :: acc)
                  end
              | _ => Error InvalidUnicodeEscape
              end
            else scanstring s3 (uni :: acc)
        | _ => scanstring s3 (uni :: acc)
        end
    end.
Proof. reflexivity. Qed.

Lemma scanstring_u_escape (uni : N) (t acc : pystr) :
  uni < 65536 -> is_high_surrogate uni = false ->
  scanstring (u_escape uni ++ t) acc = scanstring t (uni :: acc).
Proof.
  intros Hn Hs. unfold u_escape. cbn [app].
  rewrite scanstring_u_unfold, hex4_digits by exact Hn.
  rewrite Hs. destruct t as [|b [|u s4]]; reflexivity.
Qed.

Lemma scanstring_u_pair (hi lo : N) (t acc : pystr) :
  hi < 65536 -> lo < 65536 ->
  is_high_surrogate hi = true -> is_low_surrogate lo = true ->
  scanstring (u_escape hi ++ u_escape lo ++ t) acc
  = scanstring t (join_surrogates hi lo :: acc).
Proof.
  intros Hh Hl Hhs Hls. unfold u_escape at 1. cbn [app].
  rewrite scanstring_u_unfold, hex4_digits by exact Hh.
  unfold u_escape. cbn [app].
  rewrite Hhs. change (c_backslash =? c_backslash) with true.
  change (117 =? 117) with true. cbn [andb].
  rewrite hex4_digits by exact Hl. now rewrite Hls.
Qed.

(** One escaped character reads back as the character. *)
Lemma scanstring_escape_char (c : char) (t acc : pystr) :
  is_scalar c = true ->
  scanstring (escape_char c ++ t) acc = scanstring t (c :: acc).
Proof.
  intros Hc. unfold escape_char.
  destruct (N.eqb_spec c 34) as [->|H34]; [reflexivity|].
  destruct (N.eqb_spec c 92) as [->|H92]; [reflexivity|].
  destruct (N.eqb_spec c 10) as [->|H10]; [reflexivity|].
  destruct (N.eqb_spec c 13) as [->|H13]; [reflexivity|].
  destruct (N.eqb_spec c 9) as [->|H9]; [reflexivity|].
  destruct (N.eqb_spec c 12) as [->|H12]; [reflexivity|].
  destruct (N.eqb_spec c 8) as [->|H8]; [reflexivity|].
  unfold is_scalar in Hc.
  destruct (N.leb_spec 32 c) as [Hlo|Hlo];
    [destruct (N.leb_spec c 126) as [Hhi|Hhi]|]; cbn [andb].
  - cbn [app]. apply scanstring_plain.
    + apply N.eqb_neq. exact H34.
    + apply N.eqb_neq. exact H92.
    + apply N.ltb_ge. exact Hlo.
  - destruct (N.ltb_spec c 65536) as [Hs|Hs].
    + apply scanstring_u_escape; [exact Hs|].
      unfold is_high_surrogate.
      destruct (N.ltb_spec c 55296); destruct (N.ltb_spec 57343 c);
        destruct (N.leb_spec 55296 c); destruct (N.leb_spec c 56319);
        try reflexivity; try lia; discriminate Hc.
    + destruct (N.ltb_spec c 55296); [lia|].
      destruct (N.ltb_spec 57343 c); [|discriminate Hc].
      destruct (N.ltb_spec c 1114112); [|discriminate Hc].
      rewrite <- app_assoc, scanstring_u_pair.
      * do 2 f_equal. unfold join_surrogates. n_arith.
      * n_arith.
      * n_arith.
      * unfold is_high_surrogate. apply andb_true_intro.
        split; apply N.leb_le; n_arith.
      * unfold is_low_surrogate. apply andb_true_intro.
        split; apply N.leb_le; n_arith.
  - destruct (N.ltb_spec c 65536) as [Hs|Hs]; [|lia].
    apply scanstring_u_escape; [exact Hs|].
    unfold is_high_surrogate. destruct (N.leb_spec 55296 c); [lia|reflexivity].
Qed.

(** The body of an encoded string and its closing quote read back as the
    string. *)
Lemma scanstring_encoded (s : pystr) : forall (rest acc : pystr),
  scalar_text s ->
  scanstring (flat_map escape_char s ++ c_quote :: rest) acc
  = Ok (rev acc ++ s, rest).
Proof.
  induction s as [|c s IH]; intros rest acc Hs.
  - cbn. now rewrite app_nil_r.
  - apply Forall_cons_1 in Hs as [Hc Hs]. cbn [flat_map].
    rewrite <- app_assoc, (scanstring_escape_char c _ _ Hc), (IH _ _ Hs).
    cbn [rev]. now rewrite <- app_assoc.
Qed.

(** [scan_once] on an encoded string. *)
Lemma scan_once_encoded (depth : nat) (s rest : pystr) :
  scalar_text s ->
  scan_once (S depth) (encode_basestring_ascii s ++ rest)
  = Ok (JString s, rest).
Proof.
  intros Hs. unfold encode_basestring_ascii. cbn [app scan_once].
  change (c_quote =? c_quote) with true. cbv iota.
  rewrite <- app_assoc. cbn [app].
  now rewrite (scanstring_encoded s rest [] Hs).
Qed.

(** *** What the encoder writes *)

Lemma hex_digit_ascii (d : N) : d < 16 -> (hex_digit d <? 128) = true.
Proof.
  intros Hd. unfold hex_digit. apply N.ltb_lt.
  destruct (N.ltb_spec d 10); lia.
Qed.

Lemma u_escape_ascii (n : N) : ascii_text (u_escape n).
Proof.
  unfold u_escape, ascii_text.
  repeat constructor; apply hex_digit_ascii, N.mod_lt; discriminate.
Qed.

Lemma escape_char_ascii (c : char) : ascii_text (escape_char c).
Proof.
  unfold escape_char.
  do 7 (match goal with
        | |- ascii_text (if ?b then _ else _) =>
            destruct b; [repeat constructor|]
        end).
  destruct ((32 <=? c) && (c <=? 126)) eqn:E.
  - apply andb_true_iff in E as [_ E%N.leb_le].
    repeat constructor. apply N.ltb_lt. lia.
  - destruct (c <? 65536); [apply u_escape_ascii|].
    apply Forall_app. split; apply u_escape_ascii.
Qed.

Lemma encode_ascii (s : pystr) : ascii_text (encode_basestring_ascii s).
Proof.
  unfold encode_basestring_ascii. constructor; [reflexivity|].
  apply Forall_app. split; [|repeat constructor].
  induction s as [|c s IH]; [constructor|]. cbn [flat_map].
  apply Forall_app. split; [apply escape_char_ascii | exact IH].
Qed.

End StringCodecFacts.

(** * The payloads of the query tool *)

Module PayloadFacts.
Import Py PyFacts Json JsonFacts StringCodecFacts Exn Server ServerFacts.
Local Open Scope N_scope.

Lemma encode_head (s : pystr) :
  encode_basestring_ascii s
  = c_quote :: (flat_map escape_char s ++ [c_quote]).
Proof. reflexivity. Qed.

(** The lines of an indented array start with a quote. *)
Lemma join_encoded_head sep (d : pystr) (ds : list pystr) :
  exists t, join sep (map encode_basestring_ascii (d :: ds)) = c_quote :: t.
Proof.
  destruct ds as [|d2 ds]; cbn [map join]; rewrite encode_head; eauto.
Qed.

Lemma join_length sep (parts : list pystr) :
  Forall (fun p => p <> []) parts ->
  (length parts <= length (join sep parts))%nat.
Proof.
  induction 1 as [|p parts Hp _ IH]; [simpl; lia|].
  destruct parts as [|q parts].
  - destruct p; [congruence | simpl; lia].
  - change (join sep (p :: q :: parts)) with (p ++ sep ++ join sep (q :: parts)).
    rewrite !length_app. destruct p; [congruence|]. simpl in *. lia.
Qed.

(** The element loop on the lines [json.dumps(docs, indent=2)] writes. *)
Lemma array_items_encoded (depth : nat) :
  forall (docs : list pystr) (fuel : nat) (acc : list json) (rest : pystr),
    Forall scalar_text docs -> docs <> [] -> (length docs <= fuel)%nat ->
    array_items (scan_once (S depth)) fuel
      (join (item_separator (Some 2%nat) 1) (map encode_basestring_ascii docs)
       ++ c_newline :: c_rbracket :: rest) acc
    = Ok (JArray (rev acc ++ map JString docs), rest).
Proof.
  induction docs as [|d docs IH]; intros fuel acc rest Hs Hne Hf;
    [congruence|].
  apply Forall_cons_1 in Hs as [Hd Hs].
  destruct fuel as [|fuel]; [simpl in Hf; lia|].
  destruct docs as [|d2 docs].
  - cbn [map join array_items].
    rewrite (scan_once_encoded depth d _ Hd). reflexivity.
  - change (join ?sep (map ?f (d :: d2 :: docs)))
      with (f d ++ sep ++ join sep (map f (d2 :: docs))).
    rewrite <- app_assoc. cbn [array_items].
    rewrite (scan_once_encoded depth d _ Hd).
    change (item_separator (Some 2%nat) 1)
      with [c_comma; c_newline; c_space; c_space].
    destruct (join_encoded_head [c_comma; c_newline; c_space; c_space] d2 docs)
      as (t & Ht).
    rewrite Ht.
    change (([c_comma; c_newline; c_space; c_space] ++ c_quote :: t) ++ ?x)
      with (c_comma :: c_newline :: c_space :: c_space :: c_quote :: (t ++ x)).
    change (skip_ws (c_comma :: ?x)) with (c_comma :: x). cbv iota.
    change (c_comma =? c_rbracket) with false.
    change (c_comma =? c_comma) with true. cbv iota.
    change (skip_ws (c_newline :: c_space :: c_space :: c_quote :: ?y))
      with (c_quote :: y).
    change (c_quote :: (t ++ ?x)) with ((c_quote :: t) ++ x).
    rewrite <- Ht.
    change [c_comma; c_newline; c_space; c_space]
      with (item_separator (Some 2%nat) 1).
    rewrite (IH fuel (JString d :: acc) rest Hs ltac:(discriminate)
               ltac:(simpl in *; lia)).
    cbn [rev map]. now rewrite <- app_assoc.
Qed.

(** A list of strings written with [indent=2] reads back as the list. *)
Lemma loads_dumps_strings (docs : list pystr) :
  Forall scalar_text docs ->
  loads (dumps (JArray (map JString docs)) (Some 2%nat))
  = Ok (JArray (map JString docs)).
Proof.
  intros Hs. destruct docs as [|d docs]; [reflexivity|].
  unfold dumps.
  assert (Hd : dumps_at (Some 2%nat) 0 (JArray (map JString (d :: docs)))
               = c_lbracket :: [c_newline; c_space; c_space]
                 ++ (join (item_separator (Some 2%nat) 1)
                          (map encode_basestring_ascii (d :: docs))
                     ++ c_newline :: c_rbracket :: [])).
  { cbn [dumps_at map]. rewrite map_map. reflexivity. }
  rewrite Hd. clear Hd.
  set (body := join _ _ ++ _).
  unfold loads.
  change (starts_with [65279] (c_lbracket :: [c_newline; c_space; c_space] ++ body))
    with false.
  cbv iota.
  change (skip_ws (c_lbracket :: [c_newline; c_space; c_space] ++ body))
    with (c_lbracket :: [c_newline; c_space; c_space] ++ body).
  cbn [scan_once].
  change (c_lbracket =? c_quote) with false.
  change (c_lbracket =? c_lbrace) with false.
  change (c_lbracket =? c_lbracket) with true.
  cbv iota. unfold JSONArray.
  destruct (join_encoded_head (item_separator (Some 2%nat) 1) d docs) as (t & Ht).
  assert (Hskip : skip_ws ([c_newline; c_space; c_space] ++ body) = body).
  { unfold body. rewrite Ht. reflexivity. }
  rewrite Hskip.
  assert (Hb : body = c_quote :: (t ++ [c_newline; c_rbracket])).
  { unfold body. rewrite Ht. reflexivity. }
  rewrite Hb at 1. change (c_quote =? c_rbracket) with false. cbv iota.
  unfold body.
  change (length (c_lbracket :: ?x)) with (S (length x)).
  rewrite (array_items_encoded _ (d :: docs) _ [] [] Hs ltac:(discriminate)).
  - reflexivity.
  - fold body. rewrite length_app.
    assert (length (d :: docs) <= length body)%nat; [|simpl in *; lia].
    unfold body. rewrite length_app.
    pose proof (join_length (item_separator (Some 2%nat) 1)
                  (map encode_basestring_ascii (d :: docs))) as Hj.
    rewrite length_map in Hj.
    assert (Forall (fun p : pystr => p <> []) (map encode_basestring_ascii (d :: docs))).
    { apply Forall_fmap, Forall_forall. intros x _. discriminate. }
    specialize (Hj H). simpl in *. lia.
Qed.

(** The error object reads back as the message. *)
Lemma loads_error_payload (message : pystr) :
  scalar_text message ->
  loads (error_payload message)
  = Ok (JObject [(lit "error", JString message)]).
Proof.
  intros Hm. unfold error_payload, dumps.
  set (tail := c_colon :: c_space :: encode_basestring_ascii message ++ [c_rbrace]).
  set (key := flat_map escape_char (lit "error")).
  assert (Hd : dumps_at None 0 (JObject [(lit "error", JString message)])
               = c_lbrace :: c_quote :: (key ++ c_quote :: tail)).
  { cbn [dumps_at map join newline_indent fst snd app].
    unfold encode_basestring_ascii at 1. fold key.
    cbn [app]. now rewrite <- !app_assoc. }
  rewrite Hd. clear Hd. unfold loads.
  change (starts_with [65279] (c_lbrace :: ?x)) with false. cbv iota.
  change (skip_ws (c_lbrace :: ?x)) with (c_lbrace :: x).
  change (length (c_lbrace :: ?x)) with (S (length x)).
  rewrite scan_once_lbrace. unfold JSONObject.
  change (skip_ws (c_quote :: ?x)) with (c_quote :: x). cbv iota.
  change (c_quote =? c_rbrace) with false.
  change (c_quote =? c_quote) with true. cbv iota.
  change (length (c_quote :: ?x)) with (S (length x)).
  cbn [object_members]. unfold key.
  rewrite (scanstring_encoded (lit "error") tail []) by (repeat constructor).
  unfold tail at 1.
  change (skip_ws (c_colon :: ?x)) with (c_colon :: x). cbv iota.
  change (c_colon =? c_colon) with true. cbv iota.
  rewrite encode_head.
  change (skip_ws (c_space :: (c_quote :: ?x) ++ ?y)) with ((c_quote :: x) ++ y).
  rewrite <- encode_head.
  rewrite (scan_once_encoded _ message [c_rbrace] Hm).
  reflexivity.
Qed.

(** X11: when the store answers the query, the payload of the tool is a
    JSON text that decodes, with [json.loads], to the list of the texts
    the store returned for the one query text, in their order; texts
    returned for further query texts are not part of it.  The texts may
    hold any characters except surrogate code points. *)
Theorem query_payload_decodes_to_documents :
  forall (c : Collection) (query_text : pystr) (n_results : Z)
         (docs : list pystr) (others : list (list pystr)),
    query c [query_text] n_results
    = QueryReturns {| documents := Some (docs :: others) |} ->
    Forall scalar_text docs ->
    exists payload,
      query_knowledge_base (Some c) query_text n_results = Return payload /\
      loads payload = Ok (JArray (map JString docs)).
Proof.
  intros c query_text n_results docs others Hq Hs.
  exists (dumps (JArray (map JString docs)) (Some 2%nat)). split.
  - unfold query_knowledge_base, query_body. rewrite Hq. reflexivity.
  - destruct docs as [|d docs]; [reflexivity|].
    exact (loads_dumps_strings (d :: docs) Hs).
Qed.

Lemma query_payload_decodes_witness :
  exists payload,
    query_knowledge_base (Some two_documents) (lit "syllabus") 3 = Return payload /\
    loads payload
    = Ok (JArray (map JString [lit "Syllabus of CS101"; lit "Exam dates"])).
Proof.
  apply (query_payload_decodes_to_documents two_documents (lit "syllabus") 3
           [lit "Syllabus of CS101"; lit "Exam dates"] []);
    [reflexivity | repeat constructor].
Defined.

Lemma scalar_text_app (s t : pystr) :
  scalar_text s -> scalar_text t -> scalar_text (s ++ t).
Proof. intros Hs Ht. apply Forall_app. now split. Qed.

Lemma failure_decodes (c : Collection) (query_text : pystr) (n_results : Z) e :
  query_body c query_text n_results = Raise (Exception e) ->
  scalar_text (str_of_exception e) ->
  exists payload,
    query_knowledge_base (Some c) query_text n_results = Return payload /\
    loads payload = Ok (JObject [(lit "error", JString (msg_query_failed e))]).
Proof.
  intros Hb Hs. exists (error_payload (msg_query_failed e)). split.
  - unfold query_knowledge_base. now rewrite Hb.
  - apply loads_error_payload, scalar_text_app; [repeat constructor | exact Hs].
Qed.

(** X12: the failures of the query tool are reported as a JSON text that
    decodes, with [json.loads], to an object with the single member error.
    Without a collection the message is the fixed text about the missing
    collection.  A result whose documents are [None], or an empty list, is
    reported as the failed subscript: the fixed prefix followed by the text
    of Python's [TypeError], or of its [IndexError].  And when the store
    raises an error whose text is [message], the message reported is the
    fixed prefix followed by [message]; this last case is stated for a
    [message] free of surrogate code points. *)
Theorem query_failure_decodes_to_message :
  (forall (query_text : pystr) (n_results : Z),
     exists payload,
       query_knowledge_base None query_text n_results = Return payload /\
       loads payload
       = Ok (JObject [(lit "error",
                       JString (lit "Cannot query. ChromaDB collection is not available."))])) /\
  (forall (c : Collection) (query_text : pystr) (n_results : Z),
     query c [query_text] n_results = QueryReturns {| documents := None |} ->
     exists payload,
       query_knowledge_base (Some c) query_text n_results = Return payload /\
       loads payload
       = Ok (JObject [(lit "error",
                       JString (lit "An error occurred during the query: 'NoneType' object is not subscriptable"))])) /\
  (forall (c : Collection) (query_text : pystr) (n_results : Z),
     query c [query_text] n_results = QueryReturns {| documents := Some [] |} ->
     exists payload,
       query_knowledge_base (Some c) query_text n_results = Return payload /\
       loads payload
       = Ok (JObject [(lit "error",
                       JString (lit "An error occurred during the query: list index out of range"))])) /\
  (forall (c : Collection) (query_text : pystr) (n_results : Z) (message : pystr),
     query c [query_text] n_results = QueryRaises (CollaboratorError message) ->
     scalar_text message ->
     exists payload,
       query_knowledge_base (Some c) query_text n_results = Return payload /\
       loads payload
       = Ok (JObject [(lit "error",
                       JString (lit "An error occurred during the query: "
                                ++ message))])).
Proof.
  split; [|split; [|split]].
  - intros query_text n_results. eexists. split; [reflexivity|].
    apply loads_error_payload. repeat constructor.
  - intros c query_text n_results Hq.
    apply (failure_decodes c query_text n_results
             (TypeError (lit "'NoneType' object is not subscriptable")));
      [|repeat constructor].
    unfold query_body. now rewrite Hq.
  - intros c query_text n_results Hq.
    apply (failure_decodes c query_text n_results IndexError);
      [|repeat constructor].
    unfold query_body. now rewrite Hq.
  - intros c query_text n_results message Hq Hs.
    apply (failure_decodes c query_text n_results (CollaboratorError message));
      [|exact Hs].
    unfold query_body. now rewrite Hq.
Qed.

Lemma query_failure_decodes_witness :
  (exists payload,
     query_knowledge_base (Some empty_result) (lit "syllabus") 3 = Return payload /\
     loads payload
     = Ok (JObject [(lit "error",
                     JString (lit "An error occurred during the query: list index out of range"))])) /\
  (exists payload,
     query_knowledge_base (Some broken_store) (lit "syllabus") 3 = Return payload /\
     loads payload
     = Ok (JObject [(lit "error",
                     JString (lit "An error occurred during the query: "
                              ++ lit "connection refused"))])).
Proof.
  destruct query_failure_decodes_to_message as (_ & _ & Hempty & Hraise).
  split.
  - apply (Hempty empty_result (lit "syllabus") 3%Z); reflexivity.
  - apply (Hraise broken_store (lit "syllabus") 3%Z (lit "connection refused"));
      [reflexivity | repeat constructor].
Defined.

(** *** The characters of a payload *)

Lemma join_ascii (sep : pystr) (parts : list pystr) :
  ascii_text sep -> Forall ascii_text parts -> ascii_text (join sep parts).
Proof.
  intros Hsep. induction 1 as [|p parts Hp Hps IH]; [constructor|].
  destruct parts as [|q parts]; [exact Hp|].
  change (join sep (p :: q :: parts)) with (p ++ sep ++ join sep (q :: parts)).
  apply Forall_app. split; [exact Hp|].
  apply Forall_app. split; [exact Hsep | exact IH].
Qed.

Lemma error_payload_ascii (message : pystr) : ascii_text (error_payload message).
Proof.
  unfold error_payload, dumps.
  cbn [dumps_at map join newline_indent fst snd app].
  constructor; [reflexivity|].
  apply Forall_app. split; [|repeat constructor].
  apply Forall_app. split; [apply encode_ascii|].
  constructor; [reflexivity|]. constructor; [reflexivity|]. apply encode_ascii.
Qed.

Lemma strings_payload_ascii (docs : list pystr) :
  ascii_text (dumps (JArray (map JString docs)) (Some 2%nat)).
Proof.
  destruct docs as [|d docs]; [repeat constructor|].
  unfold dumps. cbn [dumps_at map]. rewrite map_map.
  constructor; [reflexivity|].
  apply Forall_app. split; [repeat constructor|].
  apply Forall_app. split; [|repeat constructor].
  apply (join_ascii _ (encode_basestring_ascii d :: map _ docs));
    [repeat constructor|].
  constructor; [apply encode_ascii|].
  apply Forall_fmap, Forall_forall. intros x _. apply encode_ascii.
Qed.

(** X13: whatever the store returns or raises, and whatever characters
    the documents and messages hold, the payload the query tool returns
    consists of ASCII characters only: everything else is written as an
    escape. *)
Theorem query_payload_is_ascii :
  forall (collection : option Collection) (query_text : pystr)
         (n_results : Z) (payload : pystr),
    query_knowledge_base collection query_text n_results = Return payload ->
    ascii_text payload.
Proof.
  intros [c|] query_text n_results payload;
    unfold query_knowledge_base, query_body.
  - destruct (query c [query_text] n_results) as [[[[|docs rest]|]]|e];
      intros [= <-]; first [apply error_payload_ascii | apply strings_payload_ascii].
  - intros [= <-]. apply error_payload_ascii.
Qed.

Lemma query_payload_is_ascii_witness :
  ascii_text (dumps (JArray (map JString [[233; 8364; 128512]%N])) (Some 2%nat)).
Proof.
  apply (query_payload_is_ascii
           (Some {| query _ _ :=
                      QueryReturns {| documents := Some [[[233; 8364; 128512]%N]] |} |})
           (lit "menu") 3).
  reflexivity.
Defined.

End PayloadFacts.

(** * The extractor and code fences *)

Module FenceFacts.
Import Py PyFacts SearchFacts Json JsonFacts Exn Client ExtractFacts WindowFacts.

Lemma lstrip_pad (p s : pystr) : blank p -> lstrip (p ++ s) = lstrip s.
Proof. induction 1 as [|c p Hc _ IH]; [reflexivity|]. simpl. now rewrite Hc. Qed.

Lemma blank_rev (p : pystr) : blank p -> blank (rev p).
Proof.
  unfold blank. rewrite !Forall_forall. intros H c Hc. apply H.
  apply list_elem_of_In, in_rev, list_elem_of_In. exact Hc.
Qed.

Lemma rstrip_pad (s p : pystr) : blank p -> rstrip (s ++ p) = rstrip s.
Proof.
  intros Hp. unfold rstrip. rewrite rev_app_distr.
  now rewrite (lstrip_pad _ _ (blank_rev p Hp)).
Qed.

Lemma blank_app (p q : pystr) : blank p -> blank q -> blank (p ++ q).
Proof. intros Hp Hq. apply Forall_app. now split. Qed.

Lemma forallb_blank (ws : pystr) : forallb isspace ws = true -> blank ws.
Proof.
  intros H. apply Forall_forall. intros c Hc.
  rewrite forallb_forall in H. apply H, list_elem_of_In, Hc.
Qed.

(** Whitespace around a text does not change what [strip] leaves. *)
Lemma strip_pad (p1 s p2 : pystr) :
  blank p1 -> blank p2 -> strip (p1 ++ s ++ p2) = strip s.
Proof.
  intros H1 H2. unfold strip. rewrite (lstrip_pad _ _ H1).
  destruct (lstrip_split s) as (ws & Hs & Hws%forallb_blank).
  destruct (lstrip s) as [|c r] eqn:E.
  - rewrite app_nil_r in Hs. subst ws.
    now rewrite (lstrip_blank _ (blank_app _ _ Hws H2)).
  - rewrite Hs, <- app_assoc, (lstrip_pad _ _ Hws).
    change ((c :: r) ++ p2) with (c :: r ++ p2).
    rewrite (lstrip_fixed c (r ++ p2)) by (apply (lstrip_head _ _ _ E)).
    change (c :: r ++ p2) with ((c :: r) ++ p2).
    apply rstrip_pad, H2.
Qed.

Lemma blank_not (c : char) (w : pystr) : isspace c = false -> blank w -> c ∉ w.
Proof.
  intros Hc Hw Hin. unfold blank in Hw. rewrite Forall_forall in Hw.
  apply Hw in Hin. congruence.
Qed.

Lemma body_no_backtick (w1 t w2 : pystr) :
  c_backtick ∉ t -> blank w1 -> blank w2 -> c_backtick ∉ w1 ++ t ++ w2.
Proof.
  intros Ht H1 H2. rewrite !elem_of_app. intros [H|[H|H]].
  - now apply (blank_not c_backtick w1).
  - now apply Ht.
  - now apply (blank_not c_backtick w2).
Qed.

(** Without a backtick there is nothing to remove. *)
Lemma strip_fences_bare (t : pystr) :
  c_backtick ∉ t -> strip_fences t = strip t.
Proof.
  intros Ht. unfold strip_fences.
  rewrite (replace_absent _ _ _ _ _ fence_json_head Ht).
  now rewrite (replace_absent _ _ _ _ _ fence_head Ht).
Qed.

(** A body without backticks in front of the closing fence. *)
Lemma replace_body_fence (x : pystr) :
  c_backtick ∉ x ->
  replace (x ++ fence) fence_json [] = x ++ fence /\
  replace (x ++ fence) fence [] = x.
Proof.
  intros Hx. split.
  - now rewrite (replace_free _ _ _ _ _ _ fence_json_head Hx).
  - rewrite (replace_free _ _ _ _ _ _ fence_head Hx).
    change (replace fence fence []) with (@nil N). apply app_nil_r.
Qed.

Lemma replace_go_nomatch (old new : pystr) (c : char) (s : pystr) :
  starts_with old (c :: s) = false ->
  replace_go old new (c :: s) 0 = c :: replace_go old new s 0.
Proof. intros H. cbn [replace_go]. now rewrite H. Qed.

(** The extractor reads its argument through [strip_fences] only. *)
Lemma extract_same_cleaned (text1 text2 : pystr) :
  strip_fences text1 = strip_fences text2 ->
  _extract_tool_call text1 = _extract_tool_call text2.
Proof. intros H. unfold _extract_tool_call, extract_body. now rewrite H. Qed.

(** X14: an answer wrapped in a code fence is read as the bare answer:
    for a text without backticks, put between an opening json fence and
    a closing fence with any whitespace around it, the extractor returns
    what it returns for the text alone; the same holds for a plain opening
    fence that is followed by whitespace (a line break, say). *)
Theorem fenced_answer_reads_as_bare :
  forall (t w1 w2 : pystr),
    c_backtick ∉ t -> blank w1 -> blank w2 ->
    _extract_tool_call (fence_json ++ w1 ++ t ++ w2 ++ fence)
    = _extract_tool_call t /\
    (w1 <> [] ->
     _extract_tool_call (fence ++ w1 ++ t ++ w2 ++ fence)
     = _extract_tool_call t).
Proof.
  intros t w1 w2 Ht H1 H2.
  pose proof (body_no_backtick w1 t w2 Ht H1 H2) as Hx.
  destruct (replace_body_fence _ Hx) as [Hj Hf].
  assert (Hbody : forall front, front ++ w1 ++ t ++ w2 ++ fence
                                = front ++ (w1 ++ t ++ w2) ++ fence).
  { intros front. now rewrite <- !app_assoc. }
  split.
  - apply extract_same_cleaned. rewrite (strip_fences_bare t Ht).
    unfold strip_fences. rewrite Hbody.
    rewrite (replace_match fence_json [] _ _ _ fence_json_head).
    rewrite app_nil_l, Hj, Hf. now apply strip_pad.
  - intros Hne. destruct w1 as [|c w1]; [congruence|].
    apply Forall_cons_1 in H1 as [Hc H1].
    assert (Hcb : (c_backtick =? c)%N = false).
    { apply N.eqb_neq. intros <-. discriminate Hc. }
    assert (Hcj : (106 =? c)%N = false).
    { apply N.eqb_neq. intros <-. discriminate Hc. }
    apply extract_same_cleaned. rewrite (strip_fences_bare t Ht).
    unfold strip_fences. rewrite Hbody.
    assert (Hfirst : replace (fence ++ ((c :: w1) ++ t ++ w2) ++ fence) fence_json []
                     = fence ++ ((c :: w1) ++ t ++ w2) ++ fence).
    { rewrite fence_head at 1 2.
      change (lit "``") with [c_backtick; c_backtick].
      cbn [app]. unfold replace. rewrite fence_json_head.
      change (lit "``json") with [c_backtick; c_backtick; 106; 115; 111; 110]%N.
      do 3 (rewrite replace_go_nomatch
              by (cbn [starts_with]; rewrite ?Hcb, ?Hcj; reflexivity)).
      change (fence ++ ?x) with (c_backtick :: c_backtick :: c_backtick :: x).
      do 3 f_equal. exact Hj. }
    rewrite Hfirst.
    rewrite (replace_match fence [] _ _ _ fence_head).
    rewrite app_nil_l, Hf.
    apply (strip_pad (c :: w1) t w2); [constructor; assumption | exact H2].
Qed.

Lemma fenced_answer_witness :
  _extract_tool_call (fence_json ++ lit " " ++ text_news_call ++ [c_newline] ++ fence)
  = _extract_tool_call text_news_call /\
  _extract_tool_call (fence ++ [c_newline] ++ text_news_call ++ [c_newline] ++ fence)
  = _extract_tool_call text_news_call.
Proof.
  assert (Hb : c_backtick ∉ text_news_call).
  { apply (bool_decide_unpack (_ ∉ _)). vm_compute. exact I. }
  split.
  - refine (proj1 (fenced_answer_reads_as_bare text_news_call (lit " ")
                     [c_newline] Hb _ _)); repeat constructor.
  - refine (proj2 (fenced_answer_reads_as_bare text_news_call [c_newline]
                     [c_newline] Hb _ _) _);
      [repeat constructor | repeat constructor | discriminate].
Defined.

End FenceFacts.

(** * One turn of the conversation *)

Module TurnFacts.
Import Py PyFacts Json JsonFacts Exn Client ExtractFacts SessionFacts.

Section Paths.
Context (B : Backend).

(** The tool invocation run from the state in which the decision has
    arrived, for a connected client. *)
Lemma process_tool_call_connected tool_name tool_args (s : state B) :
  session (self s) = true ->
  process_tool_call B tool_name tool_args s
  = match session_call_tool B tool_name tool_args (env s) with
    | (Return [], w) =>
        (Raise (Exception IndexError), after [ToolCalled tool_name tool_args] s w)
    | (Return (TextContent text :: _), w) =>
        (Return text, after [ToolCalled tool_name tool_args] s w)
    | (Return (OtherContent :: _), w) =>
        (Raise (Exception (AttributeError (lit "object has no attribute 'text'"))),
         after [ToolCalled tool_name tool_args] s w)
    | (Raise e, w) => (Raise e, after [ToolCalled tool_name tool_args] s w)
    | (Hang, w) => (Hang, after [ToolCalled tool_name tool_args] s w)
    end.
Proof.
  intros Hs. unfold process_tool_call, bind, get_self, call. rewrite Hs.
  cbn [negb].
  destruct (session_call_tool B tool_name tool_args (env s)) as [[res|e|] w];
    [|reflexivity..].
  destruct res as [|[text|] rest]; reflexivity.
Qed.

Lemma process_tool_call_unconnected tool_name tool_args (s : state B) :
  session (self s) = false ->
  process_tool_call B tool_name tool_args s
  = (Raise (Exception (RuntimeError (lit "Not connected to server"))), s).
Proof.
  intros Hs. unfold process_tool_call, bind, get_self. now rewrite Hs.
Qed.

(** The turn, once the decision names a tool. *)
Lemma chat_takes_tool_branch user_message (s : state B) text w1 d tool_name :
  ollama_generate B (DecisionPrompt user_message) decision_options (env s)
  = (Return text, w1) ->
  _extract_tool_call text = Return (JObject d) ->
  dict_lookup d (lit "tool") = Some tool_name ->
  eq_str tool_name (lit "none") = false ->
  chat_with_mistral B user_message s
  = tool_branch B user_message (JObject d) (decided user_message s w1).
Proof.
  intros Hg Hx Hn Hne.
  rewrite (chat_decided _ _ _ _ _ _ Hg Hx), (wants_tool_object _ _ Hn), Hne.
  reflexivity.
Qed.

(** The tool branch, once the tool has returned a text. *)
Lemma tool_branch_after_text user_message d tool_name tool_args
    (s : state B) raw others w2 :
  dict_lookup d (lit "tool") = Some tool_name ->
  py_get (JObject d) (lit "arguments") (JObject []) = Return tool_args ->
  session (self s) = true ->
  session_call_tool B tool_name tool_args (env s)
  = (Return (TextContent raw :: others), w2) ->
  tool_branch B user_message (JObject d) s
  = match ollama_generate B (NaturalPrompt user_message raw) natural_options w2 with
    | (Return response, w3) =>
        (Return tt,
         after [Printed (strip response ++ nl);
                Generated (NaturalPrompt user_message raw) natural_options;
                ToolCalled tool_name tool_args] s w3)
    | (Raise (Exception e), w3) =>
        (Return tt,
         after [Printed msg_apology; Printed (msg_debug e);
                Generated (NaturalPrompt user_message raw) natural_options;
                ToolCalled tool_name tool_args] s w3)
    | (Raise e, w3) =>
        (Raise e,
         after [Generated (NaturalPrompt user_message raw) natural_options;
                ToolCalled tool_name tool_args] s w3)
    | (Hang, w3) =>
        (Hang,
         after [Generated (NaturalPrompt user_message raw) natural_options;
                ToolCalled tool_name tool_args] s w3)
    end.
Proof.
  intros Hn Ha Hs Hc. unfold tool_branch, py_getitem. rewrite Hn, Ha.
  unfold bind at 1 2, lift, try_except. unfold bind at 1.
  rewrite (process_tool_call_connected _ _ _ Hs), Hc.
  unfold make_natural_response, bind, call, ret, print, record.
  cbn [env after self trace].
  destruct (ollama_generate B _ _ w2) as [[response|e|] w3];
    [reflexivity | | reflexivity].
  destruct e as [e| | |]; reflexivity.
Qed.

(** X15: a turn on its good path: when the decision names a tool, the
    connected server answers with content whose first item is a text, and
    the model phrases an answer, then the turn has sent the user message
    and that text, unchanged, in the phrasing prompt, and has printed the
    model's answer with surrounding whitespace removed and a line break
    added; further content items play no part. *)
Theorem tool_turn_prints_phrased_result :
  forall user_message (s : state B) text w1 d tool_name tool_args
         raw others w2 response w3,
    ollama_generate B (DecisionPrompt user_message) decision_options (env s)
    = (Return text, w1) ->
    _extract_tool_call text = Return (JObject d) ->
    dict_lookup d (lit "tool") = Some tool_name ->
    eq_str tool_name (lit "none") = false ->
    py_get (JObject d) (lit "arguments") (JObject []) = Return tool_args ->
    session (self s) = true ->
    session_call_tool B tool_name tool_args w1
    = (Return (TextContent raw :: others), w2) ->
    ollama_generate B (NaturalPrompt user_message raw) natural_options w2
    = (Return response, w3) ->
    chat_with_mistral B user_message s
    = (Return tt,
       after [Printed (strip response ++ nl);
              Generated (NaturalPrompt user_message raw) natural_options;
              ToolCalled tool_name tool_args;
              Generated (DecisionPrompt user_message) decision_options] s w3) /\
    strip (strip response) = strip response.
Proof.
  intros msg s text w1 d n a raw others w2 response w3
         Hg Hx Hn Hne Ha Hs Hc Hr.
  split; [|apply strip_idem].
  rewrite (chat_takes_tool_branch _ _ _ _ _ _ Hg Hx Hn Hne).
  rewrite (tool_branch_after_text msg d n a (decided msg s w1) raw others w2
             Hn Ha Hs Hc), Hr.
  reflexivity.
Qed.

(** X16: when the tool has answered but the model call that phrases the
    answer raises an [Exception], the turn still ends normally: the
    exception is caught by the handler of the tool branch, the diagnostic
    line and the apology are printed, and the text the tool returned is
    not shown. *)
Theorem phrasing_failure_is_caught :
  forall user_message (s : state B) text w1 d tool_name tool_args
         raw others w2 e w3,
    ollama_generate B (DecisionPrompt user_message) decision_options (env s)
    = (Return text, w1) ->
    _extract_tool_call text = Return (JObject d) ->
    dict_lookup d (lit "tool") = Some tool_name ->
    eq_str tool_name (lit "none") = false ->
    py_get (JObject d) (lit "arguments") (JObject []) = Return tool_args ->
    session (self s) = true ->
    session_call_tool B tool_name tool_args w1
    = (Return (TextContent raw :: others), w2) ->
    ollama_generate B (NaturalPrompt user_message raw) natural_options w2
    = (Raise (Exception e), w3) ->
    chat_with_mistral B user_message s
    = (Return tt,
       after [Printed msg_apology; Printed (msg_debug e);
              Generated (NaturalPrompt user_message raw) natural_options;
              ToolCalled tool_name tool_args;
              Generated (DecisionPrompt user_message) decision_options] s w3).
Proof.
  intros msg s text w1 d n a raw others w2 e w3 Hg Hx Hn Hne Ha Hs Hc Hr.
  rewrite (chat_takes_tool_branch _ _ _ _ _ _ Hg Hx Hn Hne).
  rewrite (tool_branch_after_text msg d n a (decided msg s w1) raw others w2
             Hn Ha Hs Hc), Hr.
  reflexivity.
Qed.

(** X17: the failures [process_tool_call] raises itself end in the
    apology as well.  On a client without a session the turn calls no
    tool at all and reports that it is not connected; on a result whose
    content has no item it reports the failed subscript. *)
Theorem own_failures_of_tool_call_are_caught :
  forall user_message (s : state B) text w1 d tool_name tool_args,
    ollama_generate B (DecisionPrompt user_message) decision_options (env s)
    = (Return text, w1) ->
    _extract_tool_call text = Return (JObject d) ->
    dict_lookup d (lit "tool") = Some tool_name ->
    eq_str tool_name (lit "none") = false ->
    py_get (JObject d) (lit "arguments") (JObject []) = Return tool_args ->
    (session (self s) = false ->
     chat_with_mistral B user_message s
     = (Return tt,
        after [Printed msg_apology;
               Printed (msg_debug (RuntimeError (lit "Not connected to server")));
               Generated (DecisionPrompt user_message) decision_options] s w1)) /\
    (forall w2,
       session (self s) = true ->
       session_call_tool B tool_name tool_args w1 = (Return [], w2) ->
       chat_with_mistral B user_message s
       = (Return tt,
          after [Printed msg_apology; Printed (msg_debug IndexError);
                 ToolCalled tool_name tool_args;
                 Generated (DecisionPrompt user_message) decision_options] s w2)).
Proof.
  intros msg s text w1 d n a Hg Hx Hn Hne Ha.
  rewrite (chat_takes_tool_branch _ _ _ _ _ _ Hg Hx Hn Hne).
  split.
  - intros Hs.
    rewrite (tool_branch_catches B msg d n a _ (decided msg s w1)
               (decided msg s w1) Hn Ha
               (process_tool_call_unconnected n a (decided msg s w1) Hs)).
    reflexivity.
  - intros w2 Hs Hc.
    assert (Hp : process_tool_call B n a (decided msg s w1)
                 = (Raise (Exception IndexError),
                    after [ToolCalled n a] (decided msg s w1) w2)).
    { rewrite (process_tool_call_connected n a (decided msg s w1) Hs).
      cbn [env decided]. now rewrite Hc. }
    rewrite (tool_branch_catches B msg d n a _ _ _ Hn Ha Hp). reflexivity.
Qed.

(** X18: a failure of the model outside the tool branch is not handled
    by the turn.  Whatever [ollama.generate] raises for the decision
    prompt leaves [chat_with_mistral] with nothing printed; so does
    whatever it raises for the conversational prompt. *)
Theorem model_failure_outside_try_escapes :
  forall user_message (s : state B),
    (forall e w1,
       ollama_generate B (DecisionPrompt user_message) decision_options (env s)
       = (Raise e, w1) ->
       chat_with_mistral B user_message s
       = (Raise e, decided user_message s w1)) /\
    (forall text w1 v e w2,
       ollama_generate B (DecisionPrompt user_message) decision_options (env s)
       = (Return text, w1) ->
       _extract_tool_call text = Return v ->
       declines_tool v ->
       ollama_generate B (ChatPrompt user_message) chat_options w1
       = (Raise e, w2) ->
       chat_with_mistral B user_message s
       = (Raise e,
          after [Generated (ChatPrompt user_message) chat_options;
                 Generated (DecisionPrompt user_message) decision_options]
                s w2)).
Proof.
  intros msg s. split.
  - intros e w1 Hg. unfold chat_with_mistral, bind, call. now rewrite Hg.
  - intros text w1 v e w2 Hg Hx Hdec Hc.
    rewrite (chat_decided _ _ _ _ _ _ Hg Hx).
    assert (Hshape : v = JNull \/ exists d, v = JObject d).
    { destruct (extract_returns text) as (v' & Hv' & Hs).
      rewrite Hx in Hv'. injection Hv' as <-. exact Hs. }
    apply (wants_tool_false v Hshape) in Hdec. rewrite Hdec.
    unfold conversation_branch, bind, call. cbn [env decided].
    now rewrite Hc.
Qed.

End Paths.

(** ** What a turn does to the outside *)

Section Budget.
Context (B : Backend).

Lemma count_events_app kind (a b : list event) :
  count_events kind (a ++ b)
  = (count_events kind a + count_events kind b)%nat.
Proof. unfold count_events. now rewrite List.filter_app, length_app. Qed.

Ltac close_path :=
  simpl; intros [= <- <-];
  first
    [ exists []; split; [reflexivity|]
    | eexists [_]; split; [reflexivity|]
    | eexists [_; _]; split; [reflexivity|]
    | eexists [_; _; _]; split; [reflexivity|]
    | eexists [_; _; _; _]; split; [reflexivity|] ];
  repeat split; try reflexivity; try (cbn; lia); repeat constructor.

Lemma tool_branch_budget user_message v (s : state B) r s' :
  tool_branch B user_message v s = (r, s') ->
  exists new,
    trace s' = new ++ trace s /\
    (count_events is_generated new <= 1)%nat /\
    (count_events is_tool_called new <= 1)%nat /\
    Forall turn_event new /\
    self s' = self s.
Proof.
  unfold tool_branch, bind, lift, try_except.
  destruct (py_getitem v (lit "tool")) as [n|e|]; [|close_path..].
  destruct (py_get v (lit "arguments") (JObject [])) as [a|e|]; [|close_path..].
  unfold process_tool_call, bind, get_self, call, raise, ret.
  destruct (session (self s)); cbn [negb].
  - destruct (session_call_tool B n a (env s)) as [[res|e|] w2].
    + destruct res as [|[text|] rest].
      * close_path.
      * unfold make_natural_response, bind, call, ret, print, record.
        cbn [env self trace].
        destruct (ollama_generate B _ _ w2) as [[resp|e|] w3];
          [close_path | | close_path].
        destruct e as [e| | |]; close_path.
      * close_path.
    + destruct e as [e| | |]; close_path.
    + close_path.
  - close_path.
Qed.

Lemma conversation_branch_budget user_message (s : state B) r s' :
  conversation_branch B user_message s = (r, s') ->
  exists new,
    trace s' = new ++ trace s /\
    (count_events is_generated new <= 1)%nat /\
    (count_events is_tool_called new <= 1)%nat /\
    Forall turn_event new /\
    self s' = self s.
Proof.
  unfold conversation_branch, bind, call, print, record.
  destruct (ollama_generate B _ _ (env s)) as [[resp|e|] w2]; close_path.
Qed.

Lemma chat_budget user_message (s : state B) r s' :
  chat_with_mistral B user_message s = (r, s') ->
  exists later,
    trace s'
    = later ++ Generated (DecisionPrompt user_message) decision_options
      :: trace s /\
    (count_events is_generated later <= 1)%nat /\
    (count_events is_tool_called later <= 1)%nat /\
    Forall turn_event later /\
    self s' = self s.
Proof.
  unfold chat_with_mistral, bind at 1, call at 1.
  destruct (ollama_generate B _ _ (env s)) as [[text|e|] w1].
  - unfold bind at 1, lift at 1.
    destruct (extract_returns text) as (v & -> & _).
    unfold bind at 1, lift at 1.
    change {| self := self s; env := w1;
              trace := Generated (DecisionPrompt user_message) decision_options
                       :: trace s |}
      with (decided user_message s w1).
    destruct (wants_tool v) as [[|]|e|].
    + intros H. apply tool_branch_budget in H. exact H.
    + intros H. apply conversation_branch_budget in H. exact H.
    + intros [= <- <-]. exists [].
      repeat split; try reflexivity; try (cbn; lia); constructor.
    + intros [= <- <-]. exists [].
      repeat split; try reflexivity; try (cbn; lia); constructor.
  - intros [= <- <-]. exists [].
    repeat split; try reflexivity; try (cbn; lia); constructor.
  - intros [= <- <-]. exists [].
    repeat split; try reflexivity; try (cbn; lia); constructor.
Qed.

(** X19: what one turn does to the outside, however it ends: it asks the
    model for the decision first; after that it asks the model at most
    once more and calls at most one tool; everything it does is printing,
    asking the model or calling the tool (it reads no input and does not
    touch the connection); and it leaves the client object as it was. *)
Theorem turn_budget :
  forall user_message (s : state B) r s',
    chat_with_mistral B user_message s = (r, s') ->
    exists later,
      trace s'
      = later ++ Generated (DecisionPrompt user_message) decision_options
        :: trace s /\
      (count_events is_generated later <= 1)%nat /\
      (count_events is_tool_called later <= 1)%nat /\
      Forall turn_event later /\
      self s' = self s.
Proof.
  intros msg s r s' Hrun.
  destruct (chat_budget msg s r s' Hrun) as (later & Ht & Hg & Hc & Hev & Hself).
  exists later. repeat split; assumption.
Qed.

(** X20: over a whole session the model is asked at most twice and a
    tool is called at most once for each line read from the console:
    nothing is sent to the model or to the server that a line of input
    did not ask for. *)
Theorem session_budget :
  forall fuel (s : state B) r s',
    session_loop B fuel s = (r, s') ->
    exists new,
      trace s' = new ++ trace s /\
      (count_events is_generated new <= 2 * count_events is_asked new)%nat /\
      (count_events is_tool_called new <= count_events is_asked new)%nat.
Proof.
  induction fuel as [|fuel IH]; intros s r s'.
  { intros [= <- <-]. exists []. repeat split; cbn; lia. }
  cbn [session_loop]. unfold bind at 1, call at 1.
  destruct (input B (env s)) as [[line|e|] w1].
  2,3: intros [= <- <-]; exists [Asked]; repeat split; cbn; lia.
  destruct (is_exit_command (strip line)).
  { intros [= <- <-]. exists [Printed msg_see_you; Asked].
    repeat split; cbn; lia. }
  destruct (str_truthy (strip line)); cbn [negb].
  - unfold bind at 1, print at 1, record at 1. cbn [self env trace].
    unfold bind at 1.
    destruct (chat_with_mistral B (strip line) _) as [r1 s2] eqn:E.
    apply chat_budget in E as (later & Ht & Hg & Hc & _ & _).
    cbn [trace] in Ht.
    destruct r1 as [[]|e|].
    + unfold bind at 1, print at 1, record at 1.
      intros Hrest. apply IH in Hrest as (new & Hn & Hng & Hnc).
      cbn [trace] in Hn.
      exists (new ++ Printed msg_separator
              :: later ++ [Generated (DecisionPrompt (strip line)) decision_options;
                           Printed []; Asked]).
      split; [rewrite Hn, Ht; repeat (rewrite <- ?app_assoc; cbn [app]); reflexivity|].
      rewrite !count_events_app.
      change (Printed msg_separator :: ?l) with ([Printed msg_separator] ++ l).
      rewrite !count_events_app. cbn. lia.
    + intros [= <- <-].
      exists (later ++ [Generated (DecisionPrompt (strip line)) decision_options;
                        Printed []; Asked]).
      split; [rewrite Ht; repeat (rewrite <- ?app_assoc; cbn [app]); reflexivity|].
      rewrite !count_events_app. cbn. lia.
    + intros [= <- <-].
      exists (later ++ [Generated (DecisionPrompt (strip line)) decision_options;
                        Printed []; Asked]).
      split; [rewrite Ht; repeat (rewrite <- ?app_assoc; cbn [app]); reflexivity|].
      rewrite !count_events_app. cbn. lia.
  - intros Hrest. apply IH in Hrest as (new & Hn & Hng & Hnc).
    cbn [trace] in Hn. exists (new ++ [Asked]).
    split; [rewrite Hn; repeat (rewrite <- ?app_assoc; cbn [app]); reflexivity|].
    rewrite !count_events_app. cbn. lia.
Qed.

(** ** The catalog *)

Ltac projections :=
  cbn [with_tools env self session trace client_context session_context
       available_tools negb fst snd].

Ltac same_path := intros [= <- <-]; reflexivity.

Lemma tool_branch_without_catalog user_message v (s : state B) tools r s' :
  tool_branch B user_message v s = (r, s') ->
  tool_branch B user_message v (with_tools tools s)
  = (r, with_tools tools s').
Proof.
  destruct s as [[sess tl cc sc] w t].
  unfold tool_branch, bind, lift, try_except.
  destruct (py_getitem v (lit "tool")) as [n|e|]; [|same_path..].
  destruct (py_get v (lit "arguments") (JObject [])) as [a|e|]; [|same_path..].
  unfold process_tool_call, bind, get_self, call, raise, ret. projections.
  destruct sess; projections; [|same_path].
  destruct (session_call_tool B n a w) as [[res|e|] w2].
  - destruct res as [|[text|] rest]; [same_path | | same_path].
    unfold make_natural_response, bind, call, ret, print, record. projections.
    destruct (ollama_generate B _ _ w2) as [[resp|e|] w3];
      [same_path | | same_path].
    destruct e as [e| | |]; same_path.
  - destruct e as [e| | |]; same_path.
  - same_path.
Qed.

Lemma chat_without_catalog user_message (s : state B) tools r s' :
  chat_with_mistral B user_message s = (r, s') ->
  chat_with_mistral B user_message (with_tools tools s)
  = (r, with_tools tools s').
Proof.
  destruct s as [c w t].
  unfold chat_with_mistral, bind, call, lift. projections.
  destruct (ollama_generate B _ _ w) as [[text|e|] w1]; [|same_path..].
  destruct (_extract_tool_call text) as [v|e|]; [|same_path..].
  destruct (wants_tool v) as [[|]|e|]; [| |same_path..].
  - apply (tool_branch_without_catalog user_message v
             {| self := c; env := w1;
                trace := Generated (DecisionPrompt user_message) decision_options
                         :: t |} tools).
  - unfold conversation_branch, bind, call, print, record. projections.
    destruct (ollama_generate B _ _ w1) as [[resp|e|] w2]; same_path.
Qed.

Lemma session_loop_without_catalog fuel : forall (s : state B) tools r s',
  session_loop B fuel s = (r, s') ->
  session_loop B fuel (with_tools tools s) = (r, with_tools tools s').
Proof.
  induction fuel as [|fuel IH]; intros s tools r s'; [same_path|].
  destruct s as [c w t].
  cbn [session_loop]. unfold bind, call, print, record. projections.
  destruct (input B w) as [[line|e|] w1]; [|same_path..].
  destruct (is_exit_command (strip line)); [same_path|].
  destruct (str_truthy (strip line)); projections.
  - set (s1 := {| self := c; env := w1; trace := Printed [] :: Asked :: t |}).
    change {| self := _; env := w1; trace := Printed [] :: Asked :: t |}
      with (with_tools tools s1).
    destruct (chat_with_mistral B (strip line) s1) as [r1 s2] eqn:E.
    rewrite (chat_without_catalog (strip line) s1 tools r1 s2 E).
    destruct r1 as [[]|e|]; [|same_path..].
    projections.
    apply (IH {| self := self s2; env := env s2;
                 trace := Printed msg_separator :: trace s2 |} tools).
  - apply (IH {| self := c; env := w1; trace := Asked :: t |} tools).
Qed.

(** X21: the tool catalog the client fetched when it connected is never
    consulted afterwards: a turn, and the whole session loop, run on a
    client holding any other catalog, do exactly the same (same outcome,
    same calls and printed lines, same world) and leave that catalog in
    place. *)
Theorem session_never_reads_catalog :
  (forall user_message (s : state B) (tools : list tool),
     chat_with_mistral B user_message (with_tools tools s)
     = (fst (chat_with_mistral B user_message s),
        with_tools tools (snd (chat_with_mistral B user_message s)))) /\
  (forall fuel (s : state B) (tools : list tool),
     session_loop B fuel (with_tools tools s)
     = (fst (session_loop B fuel s),
        with_tools tools (snd (session_loop B fuel s)))).
Proof.
  split.
  - intros msg s tools.
    destruct (chat_with_mistral B msg s) as [r s'] eqn:E.
    exact (chat_without_catalog msg s tools r s' E).
  - intros fuel s tools.
    destruct (session_loop B fuel s) as [r s'] eqn:E.
    exact (session_loop_without_catalog fuel s tools r s' E).
Qed.

End Budget.

End TurnFacts.

(** * The session: input, exits and failures *)

Module MainFacts.
Import Py PyFacts Json Exn Client SessionFacts WindowFacts FenceFacts TurnFacts.

Lemma letter_not_space (c : char) :
  (97 <= lower_char c <= 122)%N -> isspace c = false.
Proof.
  unfold lower_char. intros H.
  apply not_true_is_false. intros Hs. unfold isspace in Hs.
  rewrite !orb_true_iff, !andb_true_iff, !N.leb_le, !N.eqb_eq in Hs.
  destruct ((65 <=? c) && (c <=? 90))%N eqn:E.
  - apply andb_true_iff in E as [E1%N.leb_le E2%N.leb_le]. lia.
  - lia.
Qed.

(** A text that lower-cases to an exit word is made of letters. *)
Lemma exit_word_no_space (word : pystr) :
  lower word ∈ exit_words -> no_space word.
Proof.
  intros Hin. apply Forall_forall. intros c Hc. apply letter_not_space.
  assert (Hl : lower_char c ∈ lower word)
    by (apply list_elem_of_fmap_2; exact Hc).
  assert (Hw : forallb (fun w => forallb (fun c => (97 <=? c) && (c <=? 122))%N w)
                 exit_words = true) by reflexivity.
  rewrite forallb_forall in Hw.
  specialize (Hw _ (proj1 (list_elem_of_In _ _) Hin)).
  rewrite forallb_forall in Hw.
  specialize (Hw _ (proj1 (list_elem_of_In _ _) Hl)).
  apply andb_true_iff in Hw as [?%N.leb_le ?%N.leb_le]. lia.
Qed.

Section Loop.
Context (B : Backend).

(** X22: an exit word ends the session at once, in any letter case and
    with any whitespace around it: the farewell is printed and the loop
    returns, without a call to the model or to a tool. *)
Theorem exit_word_ends_session :
  forall fuel (s : state B) w1 (word pad1 pad2 : pystr),
    input B (env s) = (Return (pad1 ++ word ++ pad2), w1) ->
    blank pad1 -> blank pad2 -> lower word ∈ exit_words ->
    session_loop B (S fuel) s
    = (Return tt, after [Printed msg_see_you; Asked] s w1).
Proof.
  intros fuel s w1 word pad1 pad2 Hin H1 H2 Hw.
  cbn [session_loop]. unfold bind, call. rewrite Hin.
  rewrite (strip_pad pad1 word pad2 H1 H2).
  rewrite (strip_no_space word (exit_word_no_space word Hw)).
  unfold is_exit_command. rewrite (bool_decide_eq_true_2 _ Hw).
  reflexivity.
Qed.

(** X23: lines of whitespace only, the empty line included, are passed
    over: after any number of them the loop is where it would be without
    them, having asked for input once per line and done nothing else (no
    line printed, no call to the model). *)
Theorem blank_lines_are_skipped :
  forall (lines : list pystr) fuel (s : state B) w',
    reads B (env s) lines w' -> Forall blank lines ->
    session_loop B (length lines + fuel) s
    = session_loop B fuel (after (repeat Asked (length lines)) s w').
Proof.
  induction lines as [|line lines IH]; intros fuel s w' Hr Hb.
  - simpl in Hr. subst w'. destruct s; reflexivity.
  - destruct Hr as (w1 & Hin & Hr). apply Forall_cons_1 in Hb as [Hl Hb].
    cbn [length Nat.add session_loop]. unfold bind at 1, call at 1.
    rewrite Hin, (strip_blank line Hl).
    change (is_exit_command []) with false. cbn [str_truthy negb].
    rewrite (IH fuel {| self := self s; env := w1; trace := Asked :: trace s |}
               w' Hr Hb).
    f_equal. unfold after. cbn [self env trace]. f_equal.
    change (Asked :: trace s) with ([Asked] ++ trace s).
    rewrite app_assoc. f_equal.
    change (repeat Asked (S (length lines)))
      with (Asked :: repeat Asked (length lines)).
    now rewrite <- repeat_cons.
Qed.

(** X24: an exception that leaves the session loop ends the program in
    one of two ways.  A [KeyboardInterrupt] is caught by [main]: the
    farewell is printed, [close] runs and [main] returns normally.  Any
    other exception (an unhandled error of a turn, the end of the input,
    a cancellation) is not caught: [close] runs and the exception leaves
    [main].  An exception raised by [input] itself leaves the loop as it
    is. *)
Theorem escaped_exception_ends_main :
  forall fuel (s : state B) e s2,
    session_loop B fuel s = (Raise e, s2) ->
    (e = KeyboardInterrupt ->
     forall s3,
       close B (after [Printed msg_catch_you] s2 (env s2)) = (Return tt, s3) ->
       interactive_session B fuel s = (Return tt, s3)) /\
    (e <> KeyboardInterrupt ->
     forall s3,
       close B s2 = (Return tt, s3) ->
       interactive_session B fuel s = (Raise e, s3)) /\
    (forall fuel' (s0 : state B) w1,
       input B (env s0) = (Raise e, w1) ->
       session_loop B (S fuel') s0 = (Raise e, after [Asked] s0 w1)).
Proof.
  intros fuel s e s2 Hloop. split; [|split].
  - intros -> s3 Hc. unfold interactive_session, try_finally, try_except.
    rewrite Hloop. cbn [is_KeyboardInterrupt]. unfold print, record.
    unfold after in Hc. cbn [app] in Hc. now rewrite Hc.
  - intros Hne s3 Hc. unfold interactive_session, try_finally, try_except.
    rewrite Hloop.
    destruct e as [e| | |]; cbn [is_KeyboardInterrupt];
      try congruence; now rewrite Hc.
  - intros fuel' s0 w1 Hin. cbn [session_loop]. unfold bind, call.
    now rewrite Hin.
Qed.

(** X25: two edges of [close].  On a client that never connected it does
    nothing.  When leaving the session raises, the transport is never
    left: the exception replaces whatever result was pending (a normal
    return as well as another exception) and leaves [main] with the exit
    of the session as the last event. *)
Theorem close_failure_keeps_transport_open :
  (forall (s : state B),
     session_context (self s) = false -> client_context (self s) = false ->
     close B s = (Return tt, s)) /\
  (forall fuel (s : state B) r2 s2 e w3,
     try_except (session_loop B fuel) is_KeyboardInterrupt
                (fun _ => print msg_catch_you) s = (r2, s2) ->
     r2 <> Hang ->
     session_context (self s2) = true ->
     session_aexit B (env s2) = (Raise e, w3) ->
     interactive_session B fuel s = (Raise e, after [SessionExited] s2 w3)).
Proof.
  split.
  - intros s Hs Hc. unfold close, bind, get_self. rewrite Hs. unfold ret.
    now rewrite Hc.
  - intros fuel s r2 s2 e w3 Hloop Hend Hs Hx.
    unfold interactive_session, try_finally. rewrite Hloop.
    assert (Hc : close B s2 = (Raise e, after [SessionExited] s2 w3)).
    { unfold close, bind at 1, get_self at 1. rewrite Hs.
      unfold bind at 1, call at 1. now rewrite Hx. }
    rewrite Hc. destruct r2 as [[]|e2|]; [reflexivity | reflexivity | congruence].
Qed.

(** X26: when connecting fails, [main] ends with that exception before
    its [try] is entered, so [close] does not run: the transport context
    the client already holds is never left, and nothing but printing and
    the steps of the connection has happened. *)
Theorem failed_connect_skips_close :
  forall fuel (w : world B) e s1,
    startup B (initial_state B w) = (Raise e, s1) ->
    main B fuel (initial_state B w) = (Raise e, s1) /\
    client_context (self s1) = true /\
    Forall connect_event (trace s1).
Proof.
  intros fuel w e s1 Hstart. split.
  - unfold main, bind. now rewrite Hstart.
  - revert Hstart.
    cbv [startup connect_to_server bind set_self get_self print record call
         self env trace session available_tools client_context session_context
         new_client initial_state].
    destruct (client_aenter B w) as [[[]|e1|] w1];
      [|intros [= <- <-]; split; [reflexivity | repeat constructor]
       |discriminate].
    destruct (session_aenter B w1) as [[[]|e2|] w2];
      [|intros [= <- <-]; split; [reflexivity | repeat constructor]
       |discriminate].
    destruct (session_initialize B w2) as [[[]|e3|] w3];
      [|intros [= <- <-]; split; [reflexivity | repeat constructor]
       |discriminate].
    destruct (session_list_tools B w3) as [[tools|e4|] w4];
      [discriminate
      |intros [= <- <-]; split; [reflexivity | repeat constructor]
      |discriminate].
Qed.

End Loop.

End MainFacts.

(** * The description of the catalog *)

Module CatalogFacts.
Import Py PyFacts Json Exn Client.

Lemma join_substring (sep p : pystr) (parts : list pystr) :
  p ∈ parts -> exists pre post, substring_at (join sep parts) p pre post.
Proof.
  unfold substring_at. induction parts as [|q parts IH]; [now intros ?%elem_of_nil|].
  intros [->|Hin]%elem_of_cons.
  - destruct parts as [|q2 parts].
    + exists [], []. cbn. now rewrite app_nil_r.
    + exists [], (sep ++ join sep (q2 :: parts)). reflexivity.
  - destruct parts as [|q2 parts]; [now apply elem_of_nil in Hin|].
    destruct (IH Hin) as (pre & post & Hj).
    exists (q ++ sep ++ pre), post.
    change (join sep (q :: q2 :: parts)) with (q ++ sep ++ join sep (q2 :: parts)).
    rewrite Hj. now rewrite <- !app_assoc.
Qed.

Lemma join_line_breaks (parts : list pystr) :
  Forall (fun p => c_newline ∉ p) parts -> parts <> [] ->
  count_occ N.eq_dec (join nl parts) c_newline = (length parts - 1)%nat.
Proof.
  induction 1 as [|p parts Hp Hps IH]; [congruence|]. intros _.
  assert (Hc : count_occ N.eq_dec p c_newline = 0%nat).
  { apply count_occ_not_In. intros Hin. apply Hp, list_elem_of_In, Hin. }
  destruct parts as [|q parts].
  - exact Hc.
  - change (join nl (p :: q :: parts)) with (p ++ nl ++ join nl (q :: parts)).
    rewrite !count_occ_app, Hc, IH by discriminate.
    cbn. lia.
Qed.

(** X27: the description of the catalog mentions every tool: for each
    tool of the client its line (a dash, the name, a colon, the
    description) is a piece of the text; the text is empty for an empty
    catalog; and when no name and no description holds a line break, the
    text has exactly one line for each tool. *)
Theorem tools_description_lists_every_tool :
  forall (c : MCPClient),
    (available_tools c = [] -> get_tools_for_llm c = []) /\
    (forall t, t ∈ available_tools c ->
       exists pre post,
         substring_at (get_tools_for_llm c)
           (lit "- " ++ name t ++ lit ": " ++ description t) pre post) /\
    (Forall (fun t => c_newline ∉ name t ++ description t) (available_tools c) ->
     available_tools c <> [] ->
     count_occ N.eq_dec (get_tools_for_llm c) c_newline
     = (length (available_tools c) - 1)%nat).
Proof.
  intros c. unfold get_tools_for_llm. split; [|split].
  - now intros ->.
  - intros t Hin. apply join_substring.
    apply (list_elem_of_fmap_2
             (fun t => lit "- " ++ name t ++ lit ": " ++ description t)), Hin.
  - intros Hnl Hne. rewrite join_line_breaks.
    + now rewrite length_map.
    + apply Forall_fmap. eapply Forall_impl; [exact Hnl|].
      intros t Ht. unfold compose. rewrite !elem_of_app. intros [H|[H|[H|H]]].
      * revert H. apply (bool_decide_unpack (_ ∉ _)). vm_compute. exact I.
      * apply Ht, elem_of_app. now left.
      * revert H. apply (bool_decide_unpack (_ ∉ _)). vm_compute. exact I.
      * apply Ht, elem_of_app. now right.
    + destruct (available_tools c); [congruence | discriminate].
Qed.

Lemma tools_description_witness :
  count_occ N.eq_dec (get_tools_for_llm connected_client) c_newline
  = (length (available_tools connected_client) - 1)%nat.
Proof.
  destruct (tools_description_lists_every_tool connected_client) as (_ & _ & H).
  apply H; [|discriminate].
  repeat constructor; apply (bool_decide_unpack (_ ∉ _)); vm_compute; exact I.
Defined.

End CatalogFacts.

(** * The theorems about turns and sessions at work in the example worlds *)

Module ExampleRuns.
Import Py PyFacts Json Exn Client SessionFacts TurnFacts MainFacts.

Lemma tool_turn_witness :
  let B := scripted text_news_call in
  let s := started text_news_call [] in
  chat_with_mistral B (lit "any news?") s
  = (Return tt,
     after [Printed (strip (lit "Here you go: []") ++ nl);
            Generated (NaturalPrompt (lit "any news?") (lit "[]")) natural_options;
            ToolCalled (JString (lit "get_latest_news")) (JObject []);
            Generated (DecisionPrompt (lit "any news?")) decision_options] s []) /\
  strip (strip (lit "Here you go: []")) = strip (lit "Here you go: []").
Proof.
  cbv zeta.
  apply (tool_turn_prints_phrased_result (scripted text_news_call)
           (lit "any news?") (started text_news_call []) text_news_call []
           [(lit "tool", JString (lit "get_latest_news"));
            (lit "arguments", JObject [])]
           (JString (lit "get_latest_news")) (JObject [])
           (lit "[]") [] [] (lit "Here you go: []") []);
    vm_compute; reflexivity.
Defined.

Lemma phrasing_failure_witness :
  let B := mute text_news_call [TextContent (lit "[]")] in
  let s := connected B [] in
  chat_with_mistral B (lit "any news?") s
  = (Return tt,
     after [Printed msg_apology;
            Printed (msg_debug (CollaboratorError (lit "model runner has stopped")));
            Generated (NaturalPrompt (lit "any news?") (lit "[]")) natural_options;
            ToolCalled (JString (lit "get_latest_news")) (JObject []);
            Generated (DecisionPrompt (lit "any news?")) decision_options] s []).
Proof.
  cbv zeta.
  apply (phrasing_failure_is_caught (mute text_news_call [TextContent (lit "[]")])
           (lit "any news?")
           (connected (mute text_news_call [TextContent (lit "[]")]) [])
           text_news_call []
           [(lit "tool", JString (lit "get_latest_news"));
            (lit "arguments", JObject [])]
           (JString (lit "get_latest_news")) (JObject [])
           (lit "[]") [] []
           (CollaboratorError (lit "model runner has stopped")) []);
    vm_compute; reflexivity.
Defined.

Lemma own_failures_witness :
  (let B := scripted text_news_call in
   let s := initial_state B [] in
   chat_with_mistral B (lit "any news?") s
   = (Return tt,
      after [Printed msg_apology;
             Printed (msg_debug (RuntimeError (lit "Not connected to server")));
             Generated (DecisionPrompt (lit "any news?")) decision_options] s [])) /\
  (let B := mute text_news_call [] in
   let s := connected B [] in
   chat_with_mistral B (lit "any news?") s
   = (Return tt,
      after [Printed msg_apology; Printed (msg_debug IndexError);
             ToolCalled (JString (lit "get_latest_news")) (JObject []);
             Generated (DecisionPrompt (lit "any news?")) decision_options] s [])).
Proof.
  cbv zeta. split.
  - unshelve epose proof
      (own_failures_of_tool_call_are_caught (scripted text_news_call)
         (lit "any news?") (initial_state (scripted text_news_call) [])
         text_news_call []
         [(lit "tool", JString (lit "get_latest_news"));
          (lit "arguments", JObject [])]
         (JString (lit "get_latest_news")) (JObject []) _ _ _ _ _)
      as (H & _).
    1-5: vm_compute; reflexivity.
    apply H. reflexivity.
  - unshelve epose proof
      (own_failures_of_tool_call_are_caught (mute text_news_call [])
         (lit "any news?") (connected (mute text_news_call []) [])
         text_news_call []
         [(lit "tool", JString (lit "get_latest_news"));
          (lit "arguments", JObject [])]
         (JString (lit "get_latest_news")) (JObject []) _ _ _ _ _)
      as (_ & H).
    1-5: vm_compute; reflexivity.
    apply (H []); reflexivity.
Defined.

Lemma model_failure_witness :
  (let B := offline text_news_call in
   let s := connected B [] in
   chat_with_mistral B (lit "hello") s
   = (Raise (Exception (CollaboratorError (lit "Failed to connect to Ollama"))),
      decided (lit "hello") s [])) /\
  (let B := mute text_tool_none [] in
   let s := connected B [] in
   chat_with_mistral B (lit "hello") s
   = (Raise (Exception (CollaboratorError (lit "model runner has stopped"))),
      after [Generated (ChatPrompt (lit "hello")) chat_options;
             Generated (DecisionPrompt (lit "hello")) decision_options] s [])).
Proof.
  cbv zeta. split.
  - destruct (model_failure_outside_try_escapes (offline text_news_call)
                (lit "hello") (connected (offline text_news_call) []))
      as [H _].
    apply H. reflexivity.
  - destruct (model_failure_outside_try_escapes (mute text_tool_none [])
                (lit "hello") (connected (mute text_tool_none []) []))
      as [_ H].
    apply (H text_tool_none [] value_tool_none);
      [reflexivity | vm_compute; reflexivity | | reflexivity].
    right. right. eexists. split; reflexivity.
Defined.

Lemma turn_budget_witness :
  let B := scripted text_news_call in
  let s := started text_news_call [] in
  exists later,
    trace (snd (chat_with_mistral B (lit "any news?") s))
    = later ++ Generated (DecisionPrompt (lit "any news?")) decision_options
      :: trace s /\
    (count_events is_generated later <= 1)%nat /\
    (count_events is_tool_called later <= 1)%nat /\
    Forall turn_event later /\
    self (snd (chat_with_mistral B (lit "any news?") s)) = self s.
Proof.
  cbv zeta.
  apply (turn_budget (scripted text_news_call) (lit "any news?")
           (started text_news_call [])
           (fst (chat_with_mistral (scripted text_news_call) (lit "any news?")
                   (started text_news_call [])))).
  apply surjective_pairing.
Defined.

Lemma session_budget_witness :
  let B := scripted text_news_call in
  let s := started text_news_call [Return (lit "any news?"); Return (lit "bye")] in
  exists new,
    trace (snd (session_loop B 3 s)) = new ++ trace s /\
    (count_events is_generated new <= 2 * count_events is_asked new)%nat /\
    (count_events is_tool_called new <= count_events is_asked new)%nat.
Proof.
  cbv zeta.
  apply (session_budget (scripted text_news_call) 3
           (started text_news_call [Return (lit "any news?"); Return (lit "bye")])
           (fst (session_loop (scripted text_news_call) 3
                   (started text_news_call
                      [Return (lit "any news?"); Return (lit "bye")])))).
  apply surjective_pairing.
Defined.

Lemma exit_word_witness :
  let B := scripted text_tool_none in
  let s := started text_tool_none [Return (lit "  QuIt ")] in
  session_loop B 1 s = (Return tt, after [Printed msg_see_you; Asked] s []).
Proof.
  cbv zeta.
  apply (exit_word_ends_session (scripted text_tool_none) 0
           (started text_tool_none [Return (lit "  QuIt ")]) []
           (lit "QuIt") (lit "  ") (lit " "));
    [reflexivity | repeat constructor | repeat constructor|].
  apply (bool_decide_unpack (_ ∈ _)). vm_compute. exact I.
Defined.

Lemma blank_lines_witness :
  let B := scripted text_tool_none in
  let s := started text_tool_none
             [Return (lit " "); Return []; Return (lit "quit")] in
  session_loop B (length [lit " "; []] + 1) s
  = session_loop B 1
      (after (repeat Asked (length [lit " "; []])) s [Return (lit "quit")]).
Proof.
  cbv zeta.
  apply (blank_lines_are_skipped (scripted text_tool_none) [lit " "; []] 1
           (started text_tool_none
              [Return (lit " "); Return []; Return (lit "quit")])
           [Return (lit "quit")]).
  - eexists. split; [reflexivity|]. eexists. split; reflexivity.
  - repeat constructor.
Defined.

Lemma escaped_exception_witness :
  let B := scripted text_tool_none in
  (let s := started text_tool_none [Raise KeyboardInterrupt] in
   interactive_session B 1 s
   = (Return tt,
      after [ClientExited; SessionExited; Printed msg_catch_you; Asked] s [])) /\
  (let s := started text_tool_none [] in
   interactive_session B 1 s
   = (Raise (Exception EOFError),
      after [ClientExited; SessionExited; Asked] s [])).
Proof.
  cbv zeta. split.
  - destruct (escaped_exception_ends_main (scripted text_tool_none) 1
                (started text_tool_none [Raise KeyboardInterrupt])
                KeyboardInterrupt
                (after [Asked] (started text_tool_none [Raise KeyboardInterrupt]) []))
      as (H & _ & _); [reflexivity|].
    apply (H eq_refl). reflexivity.
  - destruct (escaped_exception_ends_main (scripted text_tool_none) 1
                (started text_tool_none []) (Exception EOFError)
                (after [Asked] (started text_tool_none []) []))
      as (_ & H & _); [reflexivity|].
    apply H; [discriminate | reflexivity].
Defined.

Lemma close_failure_witness :
  let B := stale text_tool_none in
  let s := connected B [Return (lit "quit")] in
  interactive_session B 1 s
  = (Raise (Exception (CollaboratorError (lit "Broken pipe"))),
     after [SessionExited; Printed msg_see_you; Asked] s []).
Proof.
  cbv zeta.
  destruct (close_failure_keeps_transport_open (stale text_tool_none)) as [_ H].
  apply (H 1 (connected (stale text_tool_none) [Return (lit "quit")])
           (Return tt)
           (after [Printed msg_see_you; Asked]
                  (connected (stale text_tool_none) [Return (lit "quit")]) []));
    [vm_compute; reflexivity | discriminate | reflexivity | reflexivity].
Defined.

Lemma failed_connect_witness :
  let B := refusing text_tool_none in
  let s1 := snd (startup B (initial_state B [])) in
  main B 3 (initial_state B [])
  = (Raise (Exception (CollaboratorError (lit "Connection closed"))), s1) /\
  client_context (self s1) = true /\
  Forall connect_event (trace s1).
Proof.
  cbv zeta.
  apply (failed_connect_skips_close (refusing text_tool_none) 3 []).
  vm_compute. reflexivity.
Defined.

End ExampleRuns.
